(** * Risk detection engine (scripts/risk_engine.py, scripts/alert_system.py)

    A shallow embedding of the engine's classifiers, rolling trackers and
    poll-process-alert cycle, and the properties of the specification
    settled against it.

    Data: Python [float] is IEEE binary64, embedded as Rocq's primitive
    [float]; Python [int] is [Z]; [datetime] values are [Z] microseconds;
    [deque(maxlen=n)] is a list with eviction at the front; a
    [defaultdict] keyed by strings is a [gmap string _] read with a
    default.  Effects: the methods of [RiskEngine] run in a state and
    exception monad over a [World] that holds the engine object, the
    database, the clock and what was sent to the outside. *)

From Stdlib Require Import ZArith List Floats Uint63 Lia.
From Stdlib Require Import Sorting.Sorted.
From stdpp Require Import base option list gmap strings.

Import ListNotations.
Local Open Scope Z_scope.

(* ===================================================================== *)
(** ** Floats *)
(* ===================================================================== *)

Module PyFloat.

(** [float(n)] for a Python int: the nearest float, for |n| < 2^63 (the
    engine converts a count of at most 100 and the velocity threshold). *)
Definition of_Z (z : Z) : float :=
  match z with
  | Z0 => 0%float
  | Zpos _ => PrimFloat.of_uint63 (Uint63.of_Z z)
  | Zneg _ => (- PrimFloat.of_uint63 (Uint63.of_Z (- z)))%float
  end.

Definition of_nat (n : nat) : float := of_Z (Z.of_nat n).

(** Python's [a > b], [a >= b], [a == b] on floats. *)
Definition gt (a b : float) : bool := (b <? a)%float.
Definition ge (a b : float) : bool := (b <=? a)%float.
Definition eq (a b : float) : bool := (a =? b)%float.

End PyFloat.

(* ===================================================================== *)
(** ** Exceptions and results *)
(* ===================================================================== *)

(** The exceptions the engine's code can meet. *)
Inductive exn : Type :=
| ZeroDivisionError      (* float / 0.0 *)
| TypeError              (* float(None) on a NULL column *)
| FloatingPointError     (* numpy division by zero, made observable *)
| DatabaseError.         (* a failing cursor.execute or connect *)

Inductive result (A : Type) : Type :=
| Ok (a : A)
| Raise (e : exn).
Arguments Ok {A} a.
Arguments Raise {A} e.

(** Python's [a / b] on floats: raises on a zero divisor (0.0 and -0.0). *)
Definition py_truediv (a b : float) : result float :=
  if PyFloat.eq b 0 then Raise ZeroDivisionError else Ok (a / b)%float.

(** [float(x)] on a column value; [None] is SQL NULL. *)
Definition py_float (x : option float) : result float :=
  match x with
  | Some v => Ok v
  | None => Raise TypeError
  end.

(* ===================================================================== *)
(** ** Configuration (module-level constants of risk_engine.py) *)
(* ===================================================================== *)

(** The four thresholds are read from the environment with [float(...)] and
    [int(...)]: any float (0, negatives, inf, nan) and any int is accepted. *)
Record Config : Type := {
  CLIENT_EXPOSURE_THRESHOLD : float;
  SYMBOL_EXPOSURE_THRESHOLD : float;
  TRANSACTION_VELOCITY_THRESHOLD : Z;
  ANOMALY_DETECTION_THRESHOLD : float
}.

Definition default_config : Config := {|
  CLIENT_EXPOSURE_THRESHOLD := 1000000%float;
  SYMBOL_EXPOSURE_THRESHOLD := 500000%float;
  TRANSACTION_VELOCITY_THRESHOLD := 10;
  ANOMALY_DETECTION_THRESHOLD := 3%float
|}.

Definition MONITORING_INTERVAL : Z := 5.   (* seconds; a constant, not read from the environment *)
Definition VELOCITY_WINDOW : Z := 60.      (* seconds *)
Definition ANOMALY_WINDOW : nat := 100.    (* transactions *)

(** [timedelta(seconds=s)] in microseconds. *)
Definition timedelta_seconds (s : Z) : Z := s * 1000000.

(* ===================================================================== *)
(** ** Alerts *)
(* ===================================================================== *)

Inductive RiskLevel : Type := LOW | MEDIUM | HIGH | CRITICAL.

Inductive AlertType : Type :=
| HIGH_CLIENT_EXPOSURE
| HIGH_SYMBOL_EXPOSURE
| HIGH_TRANSACTION_VELOCITY
| ANOMALY_DETECTED.

Inductive EntityType : Type := CLIENT | SYMBOL | SYSTEM.

(** The alert dictionary built by the checks (the formatted [message]
    string is left out: it is derived from the other fields). *)
Record AlertData : Type := {
  alert_type : AlertType;
  severity : RiskLevel;
  entity_type : EntityType;
  entity_id : string;
  threshold_value : float;
  current_value : float
}.

(* ===================================================================== *)
(** ** Bounded deques and the per-entity trackers *)
(* ===================================================================== *)

(** [d.append(x)] on a [deque(maxlen=maxlen)]: the oldest entries leave. *)
Definition deque_append {A : Type} (maxlen : nat) (d : list A) (x : A) : list A :=
  let d' := d ++ [x] in
  drop (length d' - maxlen) d'.

Definition TRACKER_MAXLEN : nat := 100.   (* deque(maxlen=100) *)

(** [tracker[key]] on the [defaultdict]: a missing key reads as an empty deque. *)
Definition tracker_get (tracker : gmap string (list Z)) (key : string) : list Z :=
  default [] (tracker !! key).

(** [tracker[key].append(t)]. *)
Definition record (key : string) (t : Z) (tracker : gmap string (list Z))
  : gmap string (list Z) :=
  <[key := deque_append TRACKER_MAXLEN (tracker_get tracker key) t]> tracker.

(** [sum(1 for tx_time in transactions if tx_time > cutoff)]. *)
Fixpoint recent_count (transactions : list Z) (cutoff : Z) : nat :=
  match transactions with
  | [] => O
  | tx_time :: rest =>
      ((if (cutoff <? tx_time)%Z then 1 else 0) + recent_count rest cutoff)%nat
  end.

(* ===================================================================== *)
(** ** Pure checks *)
(* ===================================================================== *)

(** [RiskEngine.calculate_risk_level]. *)
Definition calculate_risk_level (exposure threshold : float) : result RiskLevel :=
  match py_truediv exposure threshold with
  | Raise e => Raise e
  | Ok ratio =>
      Ok (if PyFloat.ge ratio 1 then CRITICAL
          else if PyFloat.ge ratio 0.75 then HIGH
          else if PyFloat.ge ratio 0.5 then MEDIUM
          else LOW)
  end.

(** The severity expression of the exposure alerts:
    ['CRITICAL' if exposure > THRESHOLD * 1.5 else 'HIGH']. *)
Definition exposure_severity (exposure threshold : float) : RiskLevel :=
  if PyFloat.gt exposure (threshold * 1.5)%float then CRITICAL else HIGH.

(* ===================================================================== *)
(** ** numpy *)
(* ===================================================================== *)

(** The two numpy reductions [detect_anomaly] calls.  numpy is outside the
    repository, so the engine is embedded over any implementation of them;
    [reference_numpy] below is the textbook one used to evaluate examples. *)
Class Numpy : Type := {
  np_mean : list float -> float;
  np_std : list float -> float
}.

(** Division of numpy scalars.  numpy does not raise on a zero divisor (it
    warns and yields inf or nan); the embedding reports the event as
    [FloatingPointError], as under [np.seterr(divide='raise')], so that its
    absence is a property of the caller. *)
Definition np_divide (a b : float) : result float :=
  if PyFloat.eq b 0 then Raise FloatingPointError else Ok (a / b)%float.

Module ReferenceNumpy.
Definition sum (values : list float) : float :=
  fold_left PrimFloat.add values 0%float.
Definition mean (values : list float) : float :=
  (sum values / PyFloat.of_nat (length values))%float.
(** Population standard deviation: [sqrt(mean(abs(x - x.mean())**2))]. *)
Definition std (values : list float) : float :=
  let m := mean values in
  PrimFloat.sqrt (mean (map (fun x => ((x - m) * (x - m))%float) values)).
End ReferenceNumpy.

#[export] Instance reference_numpy : Numpy := {|
  np_mean := ReferenceNumpy.mean;
  np_std := ReferenceNumpy.std
|}.

(* ===================================================================== *)
(** ** The database *)
(* ===================================================================== *)

(** A row of [transactions] (the columns the engine reads). *)
Record Transaction : Type := {
  transaction_id : Z;
  client_id : string;
  symbol : string;
  total_value : option float      (* None is NULL, which float() rejects *)
}.

(** A row of [client_exposures] or [symbol_exposures]. *)
Record ExposureRow : Type := {
  exposure_key : string;          (* client_id, or symbol *)
  total_exposure : option float;
  risk_level : RiskLevel
}.

(** A row of [alerts]. *)
Record AlertRow : Type := {
  alert_id : Z;
  alert_timestamp : Z;
  alert_data : AlertData
}.

(** A row of [risk_metrics]. *)
Record MetricsRow : Type := {
  metrics_timestamp : Z;
  total_transactions : Z;
  metrics_total_exposure : float;
  active_clients : Z;
  active_symbols : Z;
  high_risk_clients : Z;
  high_risk_symbols : Z;
  metrics_alerts_generated : Z
}.

(** The store behind [self.db].  [faults] is the schedule of statement
    failures: every [cursor.execute] consumes one entry, and raises when it
    is [true]; an exhausted schedule means no further failure.  Every write
    of the engine is the only statement of its [get_cursor] block and is
    committed when the block ends, so a write is durable as soon as its
    statement succeeds. *)
Record Database : Type := {
  reachable : bool;               (* does get_db_connection() succeed *)
  faults : list bool;
  transactions : list Transaction;
  client_exposures : list ExposureRow;
  symbol_exposures : list ExposureRow;
  alerts : list AlertRow;
  alert_sequence : Z;             (* last alert_id handed out *)
  risk_metrics : list MetricsRow
}.

(* ===================================================================== *)
(** ** The engine object and its world *)
(* ===================================================================== *)

(** [AlertSystem.__init__]: which channels are configured. *)
Record AlertSystem : Type := {
  slack_enabled : bool;
  email_enabled : bool
}.

(** The attributes of a [RiskEngine] instance. *)
Record RiskEngine : Type := {
  alert_system : AlertSystem;
  running : bool;
  client_transactions : gmap string (list Z);
  symbol_transactions : gmap string (list Z);
  transaction_values : list float;
  last_transaction_id : Z;
  alerts_generated : Z;
  transactions_processed : Z
}.

(** [RiskEngine.__init__]. *)
Definition new_engine (channels : AlertSystem) : RiskEngine := {|
  alert_system := channels;
  running := false;
  client_transactions := ∅;
  symbol_transactions := ∅;
  transaction_values := [];
  last_transaction_id := 0;
  alerts_generated := 0;
  transactions_processed := 0
|}.

(** What the code prints. *)
Inductive LogLine : Type :=
| LogConnected
| LogStarting
| LogStats
| LogStopping
| LogClosed
| LogAlert (alert : AlertData)            (* "[ALERT] severity: message", printed by send_alert *)
| LogNoChannels
| LogAlertBanner (id : Z)                 (* the banner create_alert prints *)
| LogFatal (e : exn)
| LogLoopError (e : exn)
| LogTransactionsError (e : exn)
| LogExposuresError (e : exn)
| LogMetricsError (e : exn)
| LogCreateAlertError (e : exn)
| LogRiskLevelError (e : exn).

(** What leaves through the external channels. *)
Inductive Delivery : Type :=
| SlackPost (alert : AlertData)
| Email (alert : AlertData).

Record World : Type := {
  self : RiskEngine;
  db : Database;
  clock : nat -> Z;                (* the successive values of datetime.now() *)
  clock_reads : nat;
  environment : list (Database -> Database);
                                   (* what the other writers of the store do
                                      during each successive sleep *)
  stdout : list LogLine;
  deliveries : list Delivery;
  processed : list Z               (* history, for the statements only: the ids
                                      of the transactions whose loop body ran to
                                      its end, oldest first *)
}.

Definition with_self (f : RiskEngine -> RiskEngine) (w : World) : World :=
  {| self := f (self w); db := db w; clock := clock w; clock_reads := clock_reads w;
     environment := environment w; stdout := stdout w; deliveries := deliveries w;
     processed := processed w |}.

Definition with_db (f : Database -> Database) (w : World) : World :=
  {| self := self w; db := f (db w); clock := clock w; clock_reads := clock_reads w;
     environment := environment w; stdout := stdout w; deliveries := deliveries w;
     processed := processed w |}.

Definition set_running (b : bool) (e : RiskEngine) : RiskEngine :=
  {| alert_system := alert_system e; running := b;
     client_transactions := client_transactions e;
     symbol_transactions := symbol_transactions e;
     transaction_values := transaction_values e;
     last_transaction_id := last_transaction_id e;
     alerts_generated := alerts_generated e;
     transactions_processed := transactions_processed e |}.

Definition set_client_transactions (m : gmap string (list Z)) (e : RiskEngine) : RiskEngine :=
  {| alert_system := alert_system e; running := running e;
     client_transactions := m;
     symbol_transactions := symbol_transactions e;
     transaction_values := transaction_values e;
     last_transaction_id := last_transaction_id e;
     alerts_generated := alerts_generated e;
     transactions_processed := transactions_processed e |}.

Definition set_symbol_transactions (m : gmap string (list Z)) (e : RiskEngine) : RiskEngine :=
  {| alert_system := alert_system e; running := running e;
     client_transactions := client_transactions e;
     symbol_transactions := m;
     transaction_values := transaction_values e;
     last_transaction_id := last_transaction_id e;
     alerts_generated := alerts_generated e;
     transactions_processed := transactions_processed e |}.

Definition set_transaction_values (l : list float) (e : RiskEngine) : RiskEngine :=
  {| alert_system := alert_system e; running := running e;
     client_transactions := client_transactions e;
     symbol_transactions := symbol_transactions e;
     transaction_values := l;
     last_transaction_id := last_transaction_id e;
     alerts_generated := alerts_generated e;
     transactions_processed := transactions_processed e |}.

Definition set_alerts_generated (n : Z) (e : RiskEngine) : RiskEngine :=
  {| alert_system := alert_system e; running := running e;
     client_transactions := client_transactions e;
     symbol_transactions := symbol_transactions e;
     transaction_values := transaction_values e;
     last_transaction_id := last_transaction_id e;
     alerts_generated := n;
     transactions_processed := transactions_processed e |}.

(** The two assignments that end the loop body of
    [process_new_transactions], with the history entry. *)
Definition mark_processed (id : Z) (w : World) : World :=
  {| self :=
       {| alert_system := alert_system (self w); running := running (self w);
          client_transactions := client_transactions (self w);
          symbol_transactions := symbol_transactions (self w);
          transaction_values := transaction_values (self w);
          last_transaction_id := id;
          alerts_generated := alerts_generated (self w);
          transactions_processed := transactions_processed (self w) + 1 |};
     db := db w; clock := clock w; clock_reads := clock_reads w;
     environment := environment w; stdout := stdout w; deliveries := deliveries w;
     processed := processed w ++ [id] |}.

(* ===================================================================== *)
(** ** The monad of the methods: state over [World], with exceptions *)
(* ===================================================================== *)

Definition M (A : Type) : Type := World -> result A * World.

Definition ret {A : Type} (a : A) : M A := fun w => (Ok a, w).

Definition raise {A : Type} (e : exn) : M A := fun w => (Raise e, w).

Definition bind {A B : Type} (m : M A) (k : A -> M B) : M B :=
  fun w =>
    match m w with
    | (Ok a, w') => k a w'
    | (Raise e, w') => (Raise e, w')
    end.

(** [try: m  except Exception as e: handler(e)]: what [m] did to the world
    before it raised stays done. *)
Definition try_except {A : Type} (m : M A) (handler : exn -> M A) : M A :=
  fun w =>
    match m w with
    | (Ok a, w') => (Ok a, w')
    | (Raise e, w') => handler e w'
    end.

Definition lift {A : Type} (r : result A) : M A := fun w => (r, w).
Definition get : M World := fun w => (Ok w, w).
Definition modify (f : World -> World) : M unit := fun w => (Ok tt, f w).

Definition exec {A : Type} (m : M A) (w : World) : World := snd (m w).
Definition outcome {A : Type} (m : M A) (w : World) : result A := fst (m w).

Declare Scope engine_scope.
Delimit Scope engine_scope with engine.
Notation "'let*' x ':=' m 'in' k" := (bind m (fun x => k))
  (at level 10, x name, m at level 100, k at level 200) : engine_scope.
Notation "m ';;' k" := (bind m (fun _ => k))
  (at level 100, k at level 200, right associativity, only parsing) : engine_scope.
Local Open Scope engine_scope.

(** [for x in l: body(x)]. *)
Fixpoint for_each {A : Type} (l : list A) (body : A -> M unit) : M unit :=
  match l with
  | [] => ret tt
  | x :: rest => body x ;; for_each rest body
  end.

(** [if x: f(x)] on an optional alert. *)
Definition when_some {A B : Type} (x : option A) (f : A -> M B) : M unit :=
  match x with
  | Some a => f a ;; ret tt
  | None => ret tt
  end.

(** *** Primitive effects *)

(** [datetime.now()]. *)
Definition datetime_now : M Z :=
  fun w =>
    (Ok (clock w (clock_reads w)),
     {| self := self w; db := db w; clock := clock w; clock_reads := S (clock_reads w);
        environment := environment w; stdout := stdout w; deliveries := deliveries w;
        processed := processed w |}).

Definition py_print (line : LogLine) : M unit :=
  modify (fun w =>
    {| self := self w; db := db w; clock := clock w; clock_reads := clock_reads w;
       environment := environment w; stdout := stdout w ++ [line];
       deliveries := deliveries w; processed := processed w |}).

Definition deliver (d : Delivery) : M unit :=
  modify (fun w =>
    {| self := self w; db := db w; clock := clock w; clock_reads := clock_reads w;
       environment := environment w; stdout := stdout w;
       deliveries := deliveries w ++ [d]; processed := processed w |}).

Definition set_faults (l : list bool) (d : Database) : Database :=
  {| reachable := reachable d; faults := l; transactions := transactions d;
     client_exposures := client_exposures d; symbol_exposures := symbol_exposures d;
     alerts := alerts d; alert_sequence := alert_sequence d;
     risk_metrics := risk_metrics d |}.

(** [cursor.execute(...)]: succeeds or raises, as the fault schedule says. *)
Definition execute : M unit :=
  fun w =>
    match faults (db w) with
    | [] => (Ok tt, w)
    | false :: rest => (Ok tt, with_db (set_faults rest) w)
    | true :: rest => (Raise DatabaseError, with_db (set_faults rest) w)
    end.

(** [await asyncio.sleep(MONITORING_INTERVAL)]: the engine is suspended and
    the other writers of the store act. *)
Definition sleep : M unit :=
  modify (fun w =>
    match environment w with
    | [] => w
    | act :: rest =>
        {| self := self w; db := act (db w); clock := clock w;
           clock_reads := clock_reads w; environment := rest; stdout := stdout w;
           deliveries := deliveries w; processed := processed w |}
    end).

(** *** SQL statements of the engine *)

(** [ORDER BY transaction_id]: a stable insertion sort on the id. *)
Fixpoint insert_by_id (tx : Transaction) (l : list Transaction) : list Transaction :=
  match l with
  | [] => [tx]
  | y :: rest =>
      if transaction_id tx <? transaction_id y then tx :: y :: rest
      else y :: insert_by_id tx rest
  end.

Definition order_by_transaction_id (l : list Transaction) : list Transaction :=
  fold_right insert_by_id [] l.

(** [SELECT * FROM transactions WHERE transaction_id > ? ORDER BY transaction_id]. *)
Definition select_new_transactions (d : Database) (last_id : Z) : list Transaction :=
  order_by_transaction_id
    (List.filter (fun tx => last_id <? transaction_id tx) (transactions d)).

(** [UPDATE ... SET risk_level = ? WHERE key = ?] on a table of exposures. *)
Definition set_risk_level (key : string) (level : RiskLevel) (rows : list ExposureRow)
  : list ExposureRow :=
  map (fun row =>
         if String.eqb (exposure_key row) key
         then {| exposure_key := exposure_key row;
                 total_exposure := total_exposure row;
                 risk_level := level |}
         else row) rows.

Definition update_client_rows (f : list ExposureRow -> list ExposureRow) (d : Database) : Database :=
  {| reachable := reachable d; faults := faults d; transactions := transactions d;
     client_exposures := f (client_exposures d); symbol_exposures := symbol_exposures d;
     alerts := alerts d; alert_sequence := alert_sequence d;
     risk_metrics := risk_metrics d |}.

Definition update_symbol_rows (f : list ExposureRow -> list ExposureRow) (d : Database) : Database :=
  {| reachable := reachable d; faults := faults d; transactions := transactions d;
     client_exposures := client_exposures d; symbol_exposures := f (symbol_exposures d);
     alerts := alerts d; alert_sequence := alert_sequence d;
     risk_metrics := risk_metrics d |}.

(** [INSERT INTO alerts ...]: the row gets the next id of the sequence. *)
Definition insert_alert_row (now : Z) (a : AlertData) (d : Database) : Database :=
  {| reachable := reachable d; faults := faults d; transactions := transactions d;
     client_exposures := client_exposures d; symbol_exposures := symbol_exposures d;
     alerts := alerts d ++ [ {| alert_id := alert_sequence d + 1;
                                alert_timestamp := now;
                                alert_data := a |} ];
     alert_sequence := alert_sequence d + 1;
     risk_metrics := risk_metrics d |}.

Definition insert_metrics_row (row : MetricsRow) (d : Database) : Database :=
  {| reachable := reachable d; faults := faults d; transactions := transactions d;
     client_exposures := client_exposures d; symbol_exposures := symbol_exposures d;
     alerts := alerts d; alert_sequence := alert_sequence d;
     risk_metrics := risk_metrics d ++ [row] |}.

(* ===================================================================== *)
(** ** alert_system.py *)
(* ===================================================================== *)

(** [AlertSystem.send_slack_alert] and [send_email_alert]: the hand-over to
    the transport is what is recorded; an error of the transport is caught
    inside these methods and never reaches the caller. *)
Definition send_slack_alert (alert : AlertData) : M unit :=
  let* w := get in
  if negb (slack_enabled (alert_system (self w))) then ret tt
  else deliver (SlackPost alert).

Definition send_email_alert (alert : AlertData) : M unit :=
  let* w := get in
  if negb (email_enabled (alert_system (self w))) then ret tt
  else deliver (Email alert).

(** [AlertSystem.send_alert]. *)
Definition send_alert (alert : AlertData) : M unit :=
  py_print (LogAlert alert) ;;
  let* w := get in
  let channels := alert_system (self w) in
  (if slack_enabled channels then send_slack_alert alert else ret tt) ;;
  (if email_enabled channels then send_email_alert alert else ret tt) ;;
  (if negb (slack_enabled channels) && negb (email_enabled channels)
   then py_print LogNoChannels else ret tt).

(* ===================================================================== *)
(** ** risk_engine.py: the methods of [RiskEngine] *)
(* ===================================================================== *)

Section Engine.

Context {numpy : Numpy}.
Variable cfg : Config.

(** [RiskEngine.update_client_risk_level]. *)
Definition update_client_risk_level (client_id : string) (risk_level : RiskLevel) : M unit :=
  try_except
    (execute ;;
     modify (with_db (update_client_rows (set_risk_level client_id risk_level))))
    (fun e => py_print (LogRiskLevelError e)).

(** [RiskEngine.update_symbol_risk_level]. *)
Definition update_symbol_risk_level (symbol : string) (risk_level : RiskLevel) : M unit :=
  try_except
    (execute ;;
     modify (with_db (update_symbol_rows (set_risk_level symbol risk_level))))
    (fun e => py_print (LogRiskLevelError e)).

(** [RiskEngine.check_client_exposure]. *)
Definition check_client_exposure (client_id : string) (exposure : float)
  : M (option AlertData) :=
  let* risk_level := lift (calculate_risk_level exposure (CLIENT_EXPOSURE_THRESHOLD cfg)) in
  if PyFloat.gt exposure (CLIENT_EXPOSURE_THRESHOLD cfg) then
    ret (Some {| alert_type := HIGH_CLIENT_EXPOSURE;
                 severity := exposure_severity exposure (CLIENT_EXPOSURE_THRESHOLD cfg);
                 entity_type := CLIENT;
                 entity_id := client_id;
                 threshold_value := CLIENT_EXPOSURE_THRESHOLD cfg;
                 current_value := exposure |})
  else
    update_client_risk_level client_id risk_level ;;
    ret None.

(** [RiskEngine.check_symbol_exposure]. *)
Definition check_symbol_exposure (symbol : string) (exposure : float)
  : M (option AlertData) :=
  let* risk_level := lift (calculate_risk_level exposure (SYMBOL_EXPOSURE_THRESHOLD cfg)) in
  if PyFloat.gt exposure (SYMBOL_EXPOSURE_THRESHOLD cfg) then
    ret (Some {| alert_type := HIGH_SYMBOL_EXPOSURE;
                 severity := exposure_severity exposure (SYMBOL_EXPOSURE_THRESHOLD cfg);
                 entity_type := SYMBOL;
                 entity_id := symbol;
                 threshold_value := SYMBOL_EXPOSURE_THRESHOLD cfg;
                 current_value := exposure |})
  else
    update_symbol_risk_level symbol risk_level ;;
    ret None.

(** [RiskEngine.check_transaction_velocity]. *)
Definition check_transaction_velocity (entity_type : EntityType) (entity_id : string)
    (transactions : list Z) : M (option AlertData) :=
  if (length transactions <? 2)%nat then ret None
  else
    let* now := datetime_now in
    let cutoff := now - timedelta_seconds VELOCITY_WINDOW in
    let recent_count := recent_count transactions cutoff in
    if TRANSACTION_VELOCITY_THRESHOLD cfg <? Z.of_nat recent_count then
      ret (Some {| alert_type := HIGH_TRANSACTION_VELOCITY;
                   severity := HIGH;
                   entity_type := entity_type;
                   entity_id := entity_id;
                   threshold_value := PyFloat.of_Z (TRANSACTION_VELOCITY_THRESHOLD cfg);
                   current_value := PyFloat.of_nat recent_count |})
    else ret None.

(** [RiskEngine.detect_anomaly]. *)
Definition detect_anomaly (transaction_value : float) : M (option AlertData) :=
  let* w := get in
  if (length (transaction_values (self w)) <? 30)%nat then ret None
  else
    let values := transaction_values (self w) in
    let mean := np_mean values in
    let std := np_std values in
    if PyFloat.eq std 0 then ret None
    else
      let* quotient := lift (np_divide (transaction_value - mean)%float std) in
      let z_score := PrimFloat.abs quotient in
      if PyFloat.gt z_score (ANOMALY_DETECTION_THRESHOLD cfg) then
        ret (Some {| alert_type := ANOMALY_DETECTED;
                     severity := if (z_score <? 4)%float then MEDIUM else HIGH;
                     entity_type := SYSTEM;
                     entity_id := "TRANSACTION_MONITOR";
                     threshold_value :=
                       (mean + ANOMALY_DETECTION_THRESHOLD cfg * std)%float;
                     current_value := transaction_value |})
      else ret None.

(** [RiskEngine.create_alert]: the INSERT, the notification and the counter
    sit in one [try] block. *)
Definition create_alert (alert_data : AlertData) : M (option Z) :=
  try_except
    (let* now := datetime_now in
     execute ;;
     modify (with_db (insert_alert_row now alert_data)) ;;
     let* w := get in
     let alert_id := alert_sequence (db w) in
     send_alert alert_data ;;
     modify (with_self (fun e => set_alerts_generated (alerts_generated e + 1) e)) ;;
     py_print (LogAlertBanner alert_id) ;;
     ret (Some alert_id))
    (fun e => py_print (LogCreateAlertError e) ;; ret None).

(** The body of the [for tx in transactions] loop of
    [process_new_transactions], in the two parts its comments mark.
    First "Update tracking": the three appends. *)
Definition update_tracking (tx : Transaction) : M unit :=
  let* t_client := datetime_now in
  modify (with_self (fun e =>
    set_client_transactions (record (client_id tx) t_client (client_transactions e)) e)) ;;
  let* t_symbol := datetime_now in
  modify (with_self (fun e =>
    set_symbol_transactions (record (symbol tx) t_symbol (symbol_transactions e)) e)) ;;
  let* value := lift (py_float (total_value tx)) in
  modify (with_self (fun e =>
    set_transaction_values (deque_append ANOMALY_WINDOW (transaction_values e) value) e)).

(** Then "Check for anomalies", "Check transaction velocity" and the two
    counters. *)
Definition run_checks (tx : Transaction) : M unit :=
  let* value := lift (py_float (total_value tx)) in
  let* anomaly_alert := detect_anomaly value in
  when_some anomaly_alert create_alert ;;
  let* w := get in
  let* client_velocity_alert :=
    check_transaction_velocity CLIENT (client_id tx)
      (tracker_get (client_transactions (self w)) (client_id tx)) in
  when_some client_velocity_alert create_alert ;;
  let* w := get in
  let* symbol_velocity_alert :=
    check_transaction_velocity SYMBOL (symbol tx)
      (tracker_get (symbol_transactions (self w)) (symbol tx)) in
  when_some symbol_velocity_alert create_alert ;;
  modify (mark_processed (transaction_id tx)).

Definition process_transaction (tx : Transaction) : M unit :=
  update_tracking tx ;;
  run_checks tx.

(** [RiskEngine.process_new_transactions]: one [try] around the query and
    the whole loop. *)
Definition process_new_transactions : M unit :=
  try_except
    (let* w := get in
     let last_id := last_transaction_id (self w) in
     execute ;;
     let* w := get in
     let transactions := select_new_transactions (db w) last_id in
     for_each transactions process_transaction)
    (fun e => py_print (LogTransactionsError e)).

(** [RiskEngine.check_exposures]: one [try] around both loops. *)
Definition check_exposures : M unit :=
  try_except
    (execute ;;
     let* w := get in
     for_each (client_exposures (db w)) (fun row =>
       let* exposure := lift (py_float (total_exposure row)) in
       let* alert := check_client_exposure (exposure_key row) exposure in
       when_some alert create_alert) ;;
     execute ;;
     let* w := get in
     for_each (symbol_exposures (db w)) (fun row =>
       let* exposure := lift (py_float (total_exposure row)) in
       let* alert := check_symbol_exposure (exposure_key row) exposure in
       when_some alert create_alert))
    (fun e => py_print (LogExposuresError e)).

(** *** Aggregates of [update_risk_metrics] *)

(** [SELECT SUM(total_exposure)]: NULL when no row has a value (the low
    bits of a float sum depend on the store's summation; the engine only
    copies the value into the snapshot). *)
Definition sql_sum (column : list (option float)) : option float :=
  match omap id column with
  | [] => None
  | values => Some (fold_left PrimFloat.add values 0%float)
  end.

(** [SELECT COUNT(DISTINCT key) ... WHERE total_exposure > 0]. *)
Definition count_active (rows : list ExposureRow) : Z :=
  Z.of_nat (length (remove_dups (map exposure_key
    (List.filter (fun row =>
       match total_exposure row with
       | Some v => PyFloat.gt v 0
       | None => false
       end) rows)))).

(** [SELECT COUNT( * ) ... WHERE risk_level IN ('HIGH', 'CRITICAL')]. *)
Definition count_high_risk (rows : list ExposureRow) : Z :=
  Z.of_nat (length (List.filter (fun row =>
    match risk_level row with
    | HIGH | CRITICAL => true
    | _ => false
    end) rows)).

(** [RiskEngine.update_risk_metrics]. *)
Definition update_risk_metrics : M unit :=
  try_except
    (execute ;;
     let* w := get in
     let n_transactions := Z.of_nat (length (transactions (db w))) in
     execute ;;
     let* w := get in
     let* exposure_sum :=
       lift (py_float (sql_sum (map total_exposure (client_exposures (db w))))) in
     execute ;;
     let* w := get in
     let n_active_clients := count_active (client_exposures (db w)) in
     execute ;;
     let* w := get in
     let n_active_symbols := count_active (symbol_exposures (db w)) in
     execute ;;
     let* w := get in
     let n_high_risk_clients := count_high_risk (client_exposures (db w)) in
     execute ;;
     let* w := get in
     let n_high_risk_symbols := count_high_risk (symbol_exposures (db w)) in
     let* now := datetime_now in
     let* w := get in
     execute ;;
     modify (with_db (insert_metrics_row
       {| metrics_timestamp := now;
          total_transactions := n_transactions;
          metrics_total_exposure := exposure_sum;
          active_clients := n_active_clients;
          active_symbols := n_active_symbols;
          high_risk_clients := n_high_risk_clients;
          high_risk_symbols := n_high_risk_symbols;
          metrics_alerts_generated := alerts_generated (self w) |})))
    (fun e => py_print (LogMetricsError e)).

(** *** The loop *)

(** The statements of one pass of [while self.running], before the sleep. *)
Definition cycle (iteration : Z) : M unit :=
  process_new_transactions ;;
  check_exposures ;;
  if iteration mod 10 =? 0 then
    update_risk_metrics ;;
    py_print LogStats
  else ret tt.

(** The [while self.running] loop of [monitor_loop].  Nothing in the engine
    clears [running]: the loop ends on KeyboardInterrupt, which arrives
    here after [passes] passes. *)
Fixpoint monitor_passes (passes : nat) (iteration : Z) : M unit :=
  match passes with
  | O =>
      py_print LogStopping ;;
      modify (with_self (set_running false))
  | S passes' =>
      try_except
        (cycle (iteration + 1) ;; sleep)
        (fun e => py_print (LogLoopError e) ;; sleep) ;;
      monitor_passes passes' (iteration + 1)
  end.

(** [RiskEngine.monitor_loop]. *)
Definition monitor_loop (passes : nat) : M unit :=
  py_print LogStarting ;;
  modify (with_self (set_running true)) ;;
  monitor_passes passes 0.

(** [get_db_connection()] of database_config.py. *)
Definition get_db_connection : M unit :=
  let* w := get in
  if reachable (db w) then ret tt else raise DatabaseError.

(** [RiskEngine.run]: connect, then the loop; [self.db] is set, and closed
    in the [finally] block, only when the connection succeeded.  No
    statement of [run], of [monitor_loop] or of the module level looks at
    the values of the configuration. *)
Definition run (passes : nat) : M unit :=
  try_except
    (get_db_connection ;;
     py_print LogConnected ;;
     try_except (monitor_loop passes) (fun e => py_print (LogFatal e)) ;;
     py_print LogClosed)
    (fun e => py_print (LogFatal e)).

End Engine.

(* ===================================================================== *)
(** ** Vocabulary of the statements *)
(* ===================================================================== *)

(** [preserves R m]: running [m] takes every world to an [R]-related one,
    whether [m] returns or raises.  [safe m]: [m] never raises. *)
Definition preserves {A : Type} (R : World -> World -> Prop) (m : M A) : Prop :=
  forall w, R w (exec m w).

Definition safe {A : Type} (m : M A) : Prop :=
  forall w, exists a, outcome m w = Ok a.

(** The part of the world a method leaves alone. *)
Definition unchanged {V : Type} (view : World -> V) : World -> World -> Prop :=
  fun w w' => view w = view w'.

(** The cursor of the engine. *)
Definition cursor (w : World) : Z := last_transaction_id (self w).

(** The cursor with the history of processed ids, and the same with what the
    other writers still have to do. *)
Definition progress (w : World) : Z * list Z := (cursor w, processed w).
Definition kept (w : World) : Z * list Z * list (Database -> Database) :=
  (cursor w, processed w, environment w).

(** [marks id m]: [m] returns, having advanced the cursor to [id] and
    entered [id] in the history, and having left the rest of [kept] alone. *)
Definition marks (id : Z) (m : M unit) : Prop :=
  forall w,
    outcome m w = Ok tt
    /\ cursor (exec m w) = id
    /\ processed (exec m w) = processed w ++ [id]
    /\ environment (exec m w) = environment w.

(** The alerts [send_alert] was invoked with, oldest first: [send_alert]
    prints one "[ALERT]" line per invocation, and nothing else prints it. *)
Definition dispatched (w : World) : list AlertData :=
  omap (fun line => match line with LogAlert a => Some a | _ => None end) (stdout w).

(** Does the next [cursor.execute] raise? *)
Definition next_statement_fails (w : World) : bool :=
  match faults (db w) with
  | true :: _ => true
  | _ => false
  end.

(** The alert of [check_client_exposure]. *)
Definition client_exposure_alert (cfg : Config) (client_id : string) (exposure : float)
  : AlertData :=
  {| alert_type := HIGH_CLIENT_EXPOSURE;
     severity := exposure_severity exposure (CLIENT_EXPOSURE_THRESHOLD cfg);
     entity_type := CLIENT;
     entity_id := client_id;
     threshold_value := CLIENT_EXPOSURE_THRESHOLD cfg;
     current_value := exposure |}.

(** The alert of [check_transaction_velocity] for a count of recent
    timestamps, and the cutoff it counts from when it runs in [w]. *)
Definition velocity_alert (cfg : Config) (entity_type : EntityType) (entity_id : string)
    (count : nat) : AlertData :=
  {| alert_type := HIGH_TRANSACTION_VELOCITY;
     severity := HIGH;
     entity_type := entity_type;
     entity_id := entity_id;
     threshold_value := PyFloat.of_Z (TRANSACTION_VELOCITY_THRESHOLD cfg);
     current_value := PyFloat.of_nat count |}.

Definition velocity_cutoff (w : World) : Z :=
  clock w (clock_reads w) - timedelta_seconds VELOCITY_WINDOW.

(** A sequence of [tracker[key].append(t)] calls, oldest first, on a tracker. *)
Definition record_all (calls : list (string * Z)) (tracker : gmap string (list Z))
  : gmap string (list Z) :=
  fold_left (fun tr call => record (fst call) (snd call) tr) calls tracker.

(** The timestamps the calls recorded for [key], oldest first. *)
Definition recorded_for (key : string) (calls : list (string * Z)) : list Z :=
  map snd (List.filter (fun call => String.eqb (fst call) key) calls).

(** The number of timestamps strictly greater than [cutoff]. *)
Definition count_greater (cutoff : Z) (times : list Z) : nat :=
  length (List.filter (fun t => cutoff <? t) times).

(** The world after the three appends of "Update tracking" for a
    transaction whose value is [value]. *)
Definition tracked (tx : Transaction) (value : float) (w : World) : World :=
  {| self :=
       {| alert_system := alert_system (self w);
          running := running (self w);
          client_transactions :=
            record (client_id tx) (clock w (clock_reads w)) (client_transactions (self w));
          symbol_transactions :=
            record (symbol tx) (clock w (S (clock_reads w))) (symbol_transactions (self w));
          transaction_values :=
            deque_append ANOMALY_WINDOW (transaction_values (self w)) value;
          last_transaction_id := last_transaction_id (self w);
          alerts_generated := alerts_generated (self w);
          transactions_processed := transactions_processed (self w) |};
     db := db w; clock := clock w; clock_reads := S (S (clock_reads w));
     environment := environment w; stdout := stdout w; deliveries := deliveries w;
     processed := processed w |}.

(** The cursor after the transactions [done] were processed in order. *)
Definition cursor_after (start : Z) (done : list Transaction) : Z :=
  fold_left (fun _ tx => transaction_id tx) done start.

(** Ascending ids, as ORDER BY leaves them. *)
Definition ascending (l : list Transaction) : Prop :=
  StronglySorted (fun a b => transaction_id a <= transaction_id b) l.

(** [c] is the maximum of the processed ids, or the initial 0 when there
    is none. *)
Definition maximum_of (c : Z) (ids : list Z) : Prop :=
  Forall (fun i => i <= c) ids
  /\ (ids = [] -> c = 0)
  /\ (ids <> [] -> In c ids).

(** The invariant of the loop: the cursor bounds the history, and is its
    newest entry when there is one. *)
Definition cursor_invariant (w : World) : Prop :=
  Forall (fun i => i <= cursor w) (processed w)
  /\ (processed w = [] /\ cursor w = 0 \/ last (processed w) = Some (cursor w)).

(** One step of the engine, seen from the cursor: it does not go back, and
    it stays the newest and largest processed id. *)
Definition advances (w w' : World) : Prop :=
  cursor w <= cursor w' /\ (cursor_invariant w -> cursor_invariant w').

(* ===================================================================== *)
(** ** Worlds and inputs of the scenarios *)
(* ===================================================================== *)

Module Scenario.

Definition no_channels : AlertSystem := {| slack_enabled := false; email_enabled := false |}.

Definition store (txs : list Transaction) (clients symbols : list ExposureRow)
    (schedule : list bool) : Database :=
  {| reachable := true; faults := schedule; transactions := txs;
     client_exposures := clients; symbol_exposures := symbols;
     alerts := []; alert_sequence := 0; risk_metrics := [] |}.

(** A fresh engine on a store, with a clock that advances one second per reading. *)
Definition world (d : Database) : World :=
  {| self := new_engine no_channels; db := d;
     clock := fun n => 1000000 * Z.of_nat n; clock_reads := 0;
     environment := []; stdout := []; deliveries := []; processed := [] |}.

Definition tx (id : Z) (value : option float) : Transaction :=
  {| transaction_id := id; client_id := "CLIENT_001"; symbol := "AAPL";
     total_value := value |}.

Definition exposure (key : string) (value : float) : ExposureRow :=
  {| exposure_key := key; total_exposure := Some value; risk_level := LOW |}.

Definition empty_world : World := world (store [] [] [] []).

(** Another writer of the store appends a transaction. *)
Definition append_transaction (t : Transaction) (d : Database) : Database :=
  {| reachable := reachable d; faults := faults d;
     transactions := transactions d ++ [t];
     client_exposures := client_exposures d; symbol_exposures := symbol_exposures d;
     alerts := alerts d; alert_sequence := alert_sequence d;
     risk_metrics := risk_metrics d |}.

(** The same world, with what the other writers do during the next sleeps. *)
Definition with_environment (acts : list (Database -> Database)) (w : World) : World :=
  {| self := self w; db := db w; clock := clock w; clock_reads := clock_reads w;
     environment := acts; stdout := stdout w; deliveries := deliveries w;
     processed := processed w |}.

End Scenario.

Module VelocityExample.

(** Threshold 0, and one timestamp taken a second before the check. *)
Definition cfg : Config := {|
  CLIENT_EXPOSURE_THRESHOLD := 1000000%float;
  SYMBOL_EXPOSURE_THRESHOLD := 500000%float;
  TRANSACTION_VELOCITY_THRESHOLD := 0;
  ANOMALY_DETECTION_THRESHOLD := 3%float
|}.
Definition w : World :=
  {| self := new_engine Scenario.no_channels; db := Scenario.store [] [] [] [];
     clock := fun n => 1000000 * Z.of_nat n; clock_reads := 5;
     environment := []; stdout := []; deliveries := []; processed := [] |}.
Definition transactions : list Z := [4000000].
Definition cutoff : Z := clock w (clock_reads w) - timedelta_seconds VELOCITY_WINDOW.

End VelocityExample.

Module AnomalyExample.


End AnomalyExample.

Module AtThreshold.

(** One client whose exposure equals the default threshold, and one symbol
    whose exposure equals the default symbol threshold. *)
Definition w : World :=
  Scenario.world (Scenario.store []
    [Scenario.exposure "CLIENT_001" 1000000%float]
    [Scenario.exposure "AAPL" 500000%float] []).

End AtThreshold.

Module TrackerExample.

(** Two clients interleaved; CLIENT_001 has three timestamps, two of them
    after the cutoff. *)
Definition calls : list (string * Z) :=
  [("CLIENT_001", 10); ("CLIENT_002", 20); ("CLIENT_001", 70);
   ("CLIENT_002", 80); ("CLIENT_001", 90)].

End TrackerExample.

Module ScenarioD.

(** Thirty samples with mean 1000 and deviation 100 in the window, and one
    new transaction of value 1350. *)
Definition samples : list float := repeat 900%float 15 ++ repeat 1100%float 15.
Definition incoming : Transaction := Scenario.tx 1 (Some 1350%float).
Definition w : World :=
  with_self (set_transaction_values samples)
    (Scenario.world (Scenario.store [incoming] [] [] [])).

End ScenarioD.

Module SinkDown.

(** One client above the threshold; the SELECT of the exposures succeeds
    and the INSERT of the alert fails. *)
Definition w : World :=
  Scenario.world (Scenario.store []
    [Scenario.exposure "CLIENT_001" 1250000%float] [] [false; true]).

(** The alert of that client, and a world whose next statement fails. *)
Definition alert : AlertData :=
  client_exposure_alert default_config "CLIENT_001" 1250000%float.
Definition down : World :=
  Scenario.world (Scenario.store []
    [Scenario.exposure "CLIENT_001" 1250000%float] [] [true]).

End SinkDown.

Module PoisonedBatch.

(** Three new transactions; the second one has a NULL value. *)
Definition batch : list Transaction :=
  [Scenario.tx 1 (Some 100%float); Scenario.tx 2 None; Scenario.tx 3 (Some 300%float)].
Definition w : World := Scenario.world (Scenario.store batch [] [] []).

End PoisonedBatch.

Module Feed.

(** Ids out of order in the table, one acceptable exposure row and one whose
    total is NULL (the exposure step fails on it); during the first sleep
    transaction 5 arrives, during the second one transaction 4. *)
Definition w : World :=
  Scenario.with_environment
    [Scenario.append_transaction (Scenario.tx 5 (Some 500%float));
     Scenario.append_transaction (Scenario.tx 4 (Some 400%float))]
    (Scenario.world (Scenario.store
      [Scenario.tx 3 (Some 300%float); Scenario.tx 1 (Some 100%float);
       Scenario.tx 2 (Some 200%float)]
      [Scenario.exposure "CLIENT_001" 1000%float;
       {| exposure_key := "CLIENT_002"; total_exposure := None; risk_level := LOW |}]
      [] [])).

End Feed.

Module BadConfiguration.

(** A zero client threshold, and negative values everywhere else; two
    transactions in the store and two more arriving during the sleeps. *)
Definition cfg : Config := {|
  CLIENT_EXPOSURE_THRESHOLD := 0%float;
  SYMBOL_EXPOSURE_THRESHOLD := (-500000)%float;
  TRANSACTION_VELOCITY_THRESHOLD := -10;
  ANOMALY_DETECTION_THRESHOLD := (-3)%float
|}.
Definition w : World :=
  Scenario.with_environment
    [Scenario.append_transaction (Scenario.tx 3 (Some 100%float));
     Scenario.append_transaction (Scenario.tx 4 (Some 100%float))]
    (Scenario.world (Scenario.store
      [Scenario.tx 1 (Some 100%float); Scenario.tx 2 (Some 100%float)]
      [Scenario.exposure "CLIENT_001" 1000%float]
      [Scenario.exposure "AAPL" 500%float] [])).

End BadConfiguration.

(* ===================================================================== *)
(** ** Vocabulary of the further properties *)
(* ===================================================================== *)

(** A run of appends, oldest first, on a [deque(maxlen=maxlen)]. *)
Definition deque_extend {A : Type} (maxlen : nat) (d : list A) (pushed : list A) : list A :=
  fold_left (deque_append maxlen) pushed d.

(** The newest [n] entries of a list. *)
Definition newest {A : Type} (n : nat) (l : list A) : list A :=
  drop (length l - n) l.

(** The anomaly window of the engine. *)
Definition window (w : World) : list float := transaction_values (self w).

(** The values of a batch of transactions that all have one. *)
Definition values_of (batch : list Transaction) : list float :=
  omap total_value batch.

Module CapacityExample.

(** A velocity threshold of 100, and 150 timestamps recorded for one client,
    one per microsecond. *)
Definition cfg : Config := {|
  CLIENT_EXPOSURE_THRESHOLD := 1000000%float;
  SYMBOL_EXPOSURE_THRESHOLD := 500000%float;
  TRANSACTION_VELOCITY_THRESHOLD := 100;
  ANOMALY_DETECTION_THRESHOLD := 3%float
|}.
Definition calls : list (string * Z) :=
  map (fun n => ("CLIENT_001", Z.of_nat n)) (seq 1 150).

End CapacityExample.

Module WindowExample.

(** Two new transactions, with values 100 and 300, on a fresh engine. *)
Definition w : World :=
  Scenario.world (Scenario.store
    [Scenario.tx 2 (Some 300%float); Scenario.tx 1 (Some 100%float)] [] [] []).

End WindowExample.

(** The ids of the rows of [transactions]. *)
Definition transaction_ids (d : Database) : list Z := map transaction_id (transactions d).

Module OrderExample.

(** Five rows out of order; the third in id order has a NULL value. *)
Definition w : World :=
  Scenario.world (Scenario.store
    [Scenario.tx 4 (Some 400%float); Scenario.tx 2 (Some 200%float);
     Scenario.tx 5 (Some 500%float); Scenario.tx 1 (Some 100%float);
     Scenario.tx 3 None] [] [] []).

(** The same rows, all with a value, seen by an engine whose cursor is 2. *)
Definition resumed : World :=
  mark_processed 2 (Scenario.world (Scenario.store
    [Scenario.tx 4 (Some 400%float); Scenario.tx 2 (Some 200%float);
     Scenario.tx 5 (Some 500%float); Scenario.tx 1 (Some 100%float);
     Scenario.tx 3 (Some 300%float)] [] [] [])).

End OrderExample.

(** What the engine reads from the store and is not the owner of: the rows
    of [transactions], and the keys and totals of the exposure tables. *)
Definition exposure_data (rows : list ExposureRow) : list (string * option float) :=
  map (fun row => (exposure_key row, total_exposure row)) rows.

Definition inputs (w : World)
  : list Transaction * list (string * option float) * list (string * option float) :=
  (transactions (db w),
   exposure_data (client_exposures (db w)),
   exposure_data (symbol_exposures (db w))).

(** Is the line the "[ALERT]" line of [send_alert]? *)
Definition is_alert_line (line : LogLine) : bool :=
  match line with
  | LogAlert _ => true
  | _ => false
  end.

(** From [w] to [w'] the alert table only grew, by rows that were each
    announced by one [send_alert], in the same order and with the same
    alert, and counted once in [alerts_generated]. *)
Definition accounted (w w' : World) : Prop :=
  exists rows,
    alerts (db w') = alerts (db w) ++ rows
    /\ dispatched w' = dispatched w ++ map alert_data rows
    /\ alerts_generated (self w') = alerts_generated (self w) + Z.of_nat (length rows).

Module BusyExample.

(** Two clients above the threshold and one below it; the INSERT of the
    first alert fails. *)
Definition w : World :=
  Scenario.world (Scenario.store []
    [Scenario.exposure "CLIENT_001" 1250000%float;
     Scenario.exposure "CLIENT_002" 800000%float;
     Scenario.exposure "CLIENT_003" 2000000%float] [] [false; true]).

End BusyExample.

(** The alert of [check_symbol_exposure]. *)
Definition symbol_exposure_alert (cfg : Config) (symbol : string) (exposure : float)
  : AlertData :=
  {| alert_type := HIGH_SYMBOL_EXPOSURE;
     severity := exposure_severity exposure (SYMBOL_EXPOSURE_THRESHOLD cfg);
     entity_type := SYMBOL;
     entity_id := symbol;
     threshold_value := SYMBOL_EXPOSURE_THRESHOLD cfg;
     current_value := exposure |}.

(** [new] is the row [old] after [UPDATE ... SET risk_level = level WHERE
    key = key]: same key and total, and the level when the key matches. *)
Definition risk_level_written (key : string) (level : RiskLevel) (old new : ExposureRow)
  : Prop :=
  exposure_key new = exposure_key old
  /\ total_exposure new = total_exposure old
  /\ risk_level new = (if String.eqb (exposure_key old) key then level else risk_level old).

Module ZeroThreshold.

(** A zero client threshold with the default symbol threshold; one client
    row, and a symbol far above its threshold. *)
Definition cfg : Config := {|
  CLIENT_EXPOSURE_THRESHOLD := 0%float;
  SYMBOL_EXPOSURE_THRESHOLD := 500000%float;
  TRANSACTION_VELOCITY_THRESHOLD := 10;
  ANOMALY_DETECTION_THRESHOLD := 3%float
|}.
Definition w : World :=
  Scenario.world (Scenario.store []
    [Scenario.exposure "CLIENT_001" 1000%float]
    [Scenario.exposure "AAPL" 9000000%float] []).

End ZeroThreshold.

(** The "Monitoring Stats" lines printed so far. *)
Definition is_stats_line (line : LogLine) : bool :=
  match line with
  | LogStats => true
  | _ => false
  end.

Definition stats_lines (w : World) : nat :=
  length (List.filter is_stats_line (stdout w)).

(** The snapshot [update_risk_metrics] inserts when its statements succeed
    and the exposure sum is [total], read at time [now]. *)
Definition snapshot_of (w : World) (now : Z) (total : float) : MetricsRow :=
  {| metrics_timestamp := now;
     total_transactions := Z.of_nat (length (transactions (db w)));
     metrics_total_exposure := total;
     active_clients := count_active (client_exposures (db w));
     active_symbols := count_active (symbol_exposures (db w));
     high_risk_clients := count_high_risk (client_exposures (db w));
     high_risk_symbols := count_high_risk (symbol_exposures (db w));
     metrics_alerts_generated := alerts_generated (self w) |}.

Module MetricsExample.

(** Three client rows, none of them with a total. *)
Definition no_total (key : string) : ExposureRow :=
  {| exposure_key := key; total_exposure := None; risk_level := LOW |}.
Definition w : World :=
  Scenario.world (Scenario.store []
    [no_total "CLIENT_001"; no_total "CLIENT_002"; no_total "CLIENT_003"] [] []).

End MetricsExample.

Module Unreachable.

(** The store of [BusyExample], out of reach. *)
Definition w : World :=
  with_db (fun d =>
    {| reachable := false; faults := faults d; transactions := transactions d;
       client_exposures := client_exposures d; symbol_exposures := symbol_exposures d;
       alerts := alerts d; alert_sequence := alert_sequence d;
       risk_metrics := risk_metrics d |}) BusyExample.w.

End Unreachable.

(** From [w] to [w'] the cursor did not go back and the history grew by ids
    that lie above the old cursor and up to the new one, in an order that
    respects [R]. *)
Definition grows (R : Z -> Z -> Prop) (w w' : World) : Prop :=
  cursor w <= cursor w'
  /\ exists more,
       processed w' = processed w ++ more
       /\ StronglySorted R more
       /\ Forall (fun i => cursor w < i <= cursor w') more.




Module KeyedFeed.

(** An INSERT under the primary key: a row whose id is already in the table
    is rejected. *)
Definition insert_transaction (t : Transaction) (d : Database) : Database :=
  if bool_decide (transaction_id t ∈ transaction_ids d) then d
  else Scenario.append_transaction t d.

(** The table of [Feed]; transaction 5 arrives during the first sleep,
    transaction 4 during the second one, and a second row with id 5 is
    rejected during the third. *)
Definition w : World :=
  Scenario.with_environment
    [insert_transaction (Scenario.tx 5 (Some 500%float));
     insert_transaction (Scenario.tx 4 (Some 400%float));
     insert_transaction (Scenario.tx 5 (Some 700%float))]
    (Scenario.world (Scenario.store
      [Scenario.tx 3 (Some 300%float); Scenario.tx 1 (Some 100%float);
       Scenario.tx 2 (Some 200%float)] [] [] [])).

End KeyedFeed.

(* ===================================================================== *)
(** ** database_config.py: [DatabaseConnection] *)
(* ===================================================================== *)

Module DatabaseConfig.

Section Connection.

(** The contents of the database. *)
Variable Store : Type.

(** What the body of a [with self.db.get_cursor()] block works on while the
    connection is open: [working] is what the transaction of the connection
    sees, [durable] what is committed, [open_cursors] the number of cursors
    not closed yet.  Nothing inside a block of the engine calls [connect] or
    [close]; a block nested in another works on the same connection. *)
Record Session : Type := {
  working : Store;
  durable : Store;
  open_cursors : nat
}.

Definition Block (A : Type) : Type := Session -> result A * Session.

Definition and_then {A B : Type} (m : Block A) (k : A -> Block B) : Block B :=
  fun s =>
    match m s with
    | (Ok a, s') => k a s'
    | (Raise e, s') => (Raise e, s')
    end.

Definition failing {A : Type} (e : exn) : Block A := fun s => (Raise e, s).

(** [cursor.execute(...)] of a statement that changes the contents by
    [change] (the identity for a SELECT); a failing statement changes
    nothing. *)
Definition statement (change : Store -> Store) (fails : bool) : Block unit :=
  fun s =>
    if fails then (Raise DatabaseError, s)
    else (Ok tt, {| working := change (working s); durable := durable s;
                    open_cursors := open_cursors s |}).

(** [connection.commit()], [connection.rollback()], [connection.cursor()]
    and [cursor.close()]; the four are taken not to fail on an open
    connection. *)
Definition commit (s : Session) : Session :=
  {| working := working s; durable := working s; open_cursors := open_cursors s |}.

Definition rollback (s : Session) : Session :=
  {| working := durable s; durable := durable s; open_cursors := open_cursors s |}.

Definition cursor_open (s : Session) : Session :=
  {| working := working s; durable := durable s; open_cursors := S (open_cursors s) |}.

Definition cursor_close (s : Session) : Session :=
  {| working := working s; durable := durable s; open_cursors := pred (open_cursors s) |}.

(** [get_cursor] from the creation of the cursor on: the body runs at the
    [yield]; commit when it returns, rollback and the same exception when it
    raises, and the cursor is closed in both cases. *)
Definition with_cursor {A : Type} (body : Block A) : Block A :=
  fun s =>
    match body (cursor_open s) with
    | (Ok a, s') => (Ok a, cursor_close (commit s'))
    | (Raise e, s') => (Raise e, cursor_close (rollback s'))
    end.

(** A [DatabaseConnection] object and the server behind it: [connection]
    is [self.connection], [None] or the open connection with what its
    transaction sees. *)
Record DatabaseConnection : Type := {
  connection : option Store;
  database : Store;
  reachable : bool;
  cursors : nat
}.

(** [DatabaseConnection.__init__]. *)
Definition new_connection (contents : Store) (up : bool) : DatabaseConnection :=
  {| connection := None; database := contents; reachable := up; cursors := 0 |}.

(** [DatabaseConnection.connect]: a new connection, which sees the
    committed contents, is stored in [self.connection] and returned. *)
Definition connect (c : DatabaseConnection) : result Store * DatabaseConnection :=
  if reachable c then
    (Ok (database c),
     {| connection := Some (database c); database := database c;
        reachable := reachable c; cursors := cursors c |})
  else (Raise DatabaseError, c).

(** [DatabaseConnection.close]. *)
Definition close (c : DatabaseConnection) : DatabaseConnection :=
  match connection c with
  | Some _ => {| connection := None; database := database c;
                 reachable := reachable c; cursors := cursors c |}
  | None => c
  end.

Definition in_session {A : Type} (body : Block A) (view : Store) (c : DatabaseConnection)
  : result A * DatabaseConnection :=
  let '(r, s) := with_cursor body {| working := view; durable := database c;
                                     open_cursors := cursors c |} in
  (r, {| connection := Some (working s); database := durable s;
         reachable := reachable c; cursors := open_cursors s |}).

(** [DatabaseConnection.get_cursor]: [if not self.connection:
    self.connect()], then the block. *)
Definition get_cursor {A : Type} (body : Block A) (c : DatabaseConnection)
  : result A * DatabaseConnection :=
  match connection c with
  | Some view => in_session body view c
  | None =>
      match connect c with
      | (Ok view, c') => in_session body view c'
      | (Raise e, c') => (Raise e, c')
      end
  end.

(** [get_db_connection()]: a new object, connected. *)
Definition get_db_connection (contents : Store) (up : bool) : result DatabaseConnection :=
  match connect (new_connection contents up) with
  | (Ok _, c) => Ok c
  | (Raise e, _) => Raise e
  end.

(** Nothing is pending: the connection, when there is one, sees exactly
    what is committed. *)
Definition clean (c : DatabaseConnection) : Prop :=
  match connection c with
  | Some view => view = database c
  | None => True
  end.

(** A body that closes every cursor it opens. *)
Definition balanced {A : Type} (body : Block A) : Prop :=
  forall s, open_cursors (snd (body s)) = open_cursors s.

End Connection.

Arguments working {Store} _.
Arguments durable {Store} _.
Arguments open_cursors {Store} _.
Arguments and_then {Store A B} _ _ _.
Arguments failing {Store A} _ _.
Arguments statement {Store} _ _ _.
Arguments commit {Store} _.
Arguments rollback {Store} _.
Arguments cursor_open {Store} _.
Arguments cursor_close {Store} _.
Arguments with_cursor {Store A} _ _.
Arguments connection {Store} _.
Arguments database {Store} _.
Arguments reachable {Store} _.
Arguments cursors {Store} _.
Arguments new_connection {Store} _ _.
Arguments connect {Store} _.
Arguments close {Store} _.
Arguments in_session {Store A} _ _ _.
Arguments get_cursor {Store A} _ _.
Arguments get_db_connection {Store} _ _.
Arguments clean {Store} _.
Arguments balanced {Store A} _.

End DatabaseConfig.

Module BlockExample.

(** The contents are the rows written so far, newest first. *)
Definition write (row : string) : DatabaseConfig.Block (list string) unit :=
  DatabaseConfig.statement (cons row) false.

Definition idle : DatabaseConfig.DatabaseConnection (list string) :=
  {| DatabaseConfig.connection := Some ["seed"];
     DatabaseConfig.database := ["seed"];
     DatabaseConfig.reachable := true;
     DatabaseConfig.cursors := 0 |}.

Definition session : DatabaseConfig.Session (list string) :=
  {| DatabaseConfig.working := ["seed"];
     DatabaseConfig.durable := ["seed"];
     DatabaseConfig.open_cursors := 0 |}.

End BlockExample.

(** The alert a row of an exposure table gives rise to, if any. *)
Definition client_alert_of (cfg : Config) (row : ExposureRow) : option AlertData :=
  match total_exposure row with
  | Some exposure =>
      if PyFloat.gt exposure (CLIENT_EXPOSURE_THRESHOLD cfg)
      then Some (client_exposure_alert cfg (exposure_key row) exposure)
      else None
  | None => None
  end.

Definition symbol_alert_of (cfg : Config) (row : ExposureRow) : option AlertData :=
  match total_exposure row with
  | Some exposure =>
      if PyFloat.gt exposure (SYMBOL_EXPOSURE_THRESHOLD cfg)
      then Some (symbol_exposure_alert cfg (exposure_key row) exposure)
      else None
  | None => None
  end.

(** The alerts of the rows above their threshold: the clients in table
    order, then the symbols in table order. *)
Definition exposure_alerts (cfg : Config) (d : Database) : list AlertData :=
  omap (client_alert_of cfg) (client_exposures d)
  ++ omap (symbol_alert_of cfg) (symbol_exposures d).

(** The alerts stored so far, without their ids and timestamps. *)
Definition stored_alerts (w : World) : list AlertData :=
  map alert_data (alerts (db w)).

(** What a pass over one exposure table does when no statement fails: the
    alerts [new] are stored and handed on, in this order; the fault
    schedule stays empty and the keys and totals of both tables stay. *)
Definition checked (new : list AlertData) (w w' : World) : Prop :=
  faults (db w') = []
  /\ stored_alerts w' = stored_alerts w ++ new
  /\ dispatched w' = dispatched w ++ new
  /\ exposure_data (client_exposures (db w')) = exposure_data (client_exposures (db w))
  /\ exposure_data (symbol_exposures (db w')) = exposure_data (symbol_exposures (db w)).

Module RepeatExample.

(** No failing statement; one client and one symbol above their
    thresholds, one client below. *)
Definition w : World :=
  Scenario.world (Scenario.store []
    [Scenario.exposure "CLIENT_001" 1250000%float;
     Scenario.exposure "CLIENT_002" 800000%float]
    [Scenario.exposure "AAPL" 850000%float] []).

End RepeatExample.

(* ===================================================================== *)
(** ** Facts about float comparisons *)
(* ===================================================================== *)

Module PyFloatFacts.

Lemma SFcompare_refl_not_Lt (x : spec_float) : SFcompare x x <> Some Lt.
Proof.
  destruct x as [s | s | | s m e]; simpl; try discriminate.
  - destruct s; discriminate.
  - destruct s; rewrite Z.compare_refl.
    + rewrite Pos.compare_cont_refl. discriminate.
    + rewrite Pos.compare_cont_refl. discriminate.
Qed.

(** No float is greater than itself (for NaN every comparison is false). *)
Lemma gt_irrefl (x : float) : PyFloat.gt x x = false.
Proof.
  unfold PyFloat.gt. rewrite FloatAxioms.ltb_spec. unfold SFltb.
  pose proof (SFcompare_refl_not_Lt (Prim2SF x)) as H.
  destruct (SFcompare (Prim2SF x) (Prim2SF x)) as [[ | | ] | ]; congruence.
Qed.

(** A positive float is not equal to zero. *)
Lemma pos_nonzero (x : float) : PyFloat.gt x 0 = true -> PyFloat.eq x 0 = false.
Proof.
  unfold PyFloat.gt, PyFloat.eq. rewrite FloatAxioms.ltb_spec, FloatAxioms.eqb_spec. unfold SFltb, SFeqb.
  change (Prim2SF 0) with (S754_zero false).
  destruct (Prim2SF x) as [s | s | | s m e]; simpl; try discriminate.
  - destruct s; [discriminate | reflexivity].
  - destruct s; [discriminate | reflexivity].
Qed.

End PyFloatFacts.

(* ===================================================================== *)
(** ** Reasoning about the methods *)
(* ===================================================================== *)

#[export] Instance unchanged_refl {V : Type} (view : World -> V) : Reflexive (unchanged view).
Proof. intros w. reflexivity. Qed.

#[export] Instance unchanged_trans {V : Type} (view : World -> V) : Transitive (unchanged view).
Proof. intros w1 w2 w3 H12 H23. unfold unchanged in *. congruence. Qed.

Section Preserves.

Context (R : World -> World -> Prop) `{!Reflexive R} `{!Transitive R}.

Lemma preserves_ret {A : Type} (a : A) : preserves R (ret a).
Proof. intros w. unfold exec, ret. simpl. reflexivity. Qed.

Lemma preserves_raise {A : Type} (e : exn) : preserves R (@raise A e).
Proof. intros w. unfold exec, raise. simpl. reflexivity. Qed.

Lemma preserves_lift {A : Type} (r : result A) : preserves R (lift r).
Proof. intros w. unfold exec, lift. simpl. reflexivity. Qed.

Lemma preserves_get : preserves R get.
Proof. intros w. unfold exec, get. simpl. reflexivity. Qed.

Lemma preserves_bind {A B : Type} (m : M A) (k : A -> M B) :
  preserves R m -> (forall a, preserves R (k a)) -> preserves R (bind m k).
Proof.
  intros Hm Hk w. specialize (Hm w). unfold exec, bind in *.
  destruct (m w) as [[a | e] w1]; simpl in *.
  - etransitivity; [exact Hm | apply Hk].
  - exact Hm.
Qed.

Lemma preserves_try_except {A : Type} (m : M A) (handler : exn -> M A) :
  preserves R m -> (forall e, preserves R (handler e)) ->
  preserves R (try_except m handler).
Proof.
  intros Hm Hh w. specialize (Hm w). unfold exec, try_except in *.
  destruct (m w) as [[a | e] w1]; simpl in *.
  - exact Hm.
  - etransitivity; [exact Hm | apply Hh].
Qed.

Lemma preserves_for_each {A : Type} (l : list A) (body : A -> M unit) :
  (forall x, preserves R (body x)) -> preserves R (for_each l body).
Proof.
  intros Hbody. induction l as [| x rest IH]; simpl.
  - apply preserves_ret.
  - apply preserves_bind; [apply Hbody | intros _; exact IH].
Qed.

Lemma preserves_when_some {A B : Type} (x : option A) (f : A -> M B) :
  (forall a, preserves R (f a)) -> preserves R (when_some x f).
Proof.
  intros Hf. destruct x as [a |]; simpl.
  - apply preserves_bind; [apply Hf | intros _; apply preserves_ret].
  - apply preserves_ret.
Qed.

End Preserves.

Section Safe.

Lemma safe_ret {A : Type} (a : A) : safe (ret a).
Proof. intros w. exists a. reflexivity. Qed.

Lemma safe_get : safe get.
Proof. intros w. exists w. reflexivity. Qed.

Lemma safe_modify (f : World -> World) : safe (modify f).
Proof. intros w. exists tt. reflexivity. Qed.

Lemma safe_lift_ok {A : Type} (a : A) : safe (lift (Ok a)).
Proof. intros w. exists a. reflexivity. Qed.

Lemma safe_bind {A B : Type} (m : M A) (k : A -> M B) :
  safe m -> (forall a, safe (k a)) -> safe (bind m k).
Proof.
  intros Hm Hk w. destruct (Hm w) as [a Ha]. unfold outcome, bind in *.
  destruct (m w) as [[a' | e] w1]; simpl in *; [| discriminate].
  apply Hk.
Qed.

(** A [try] whose handler cannot raise never raises, whatever it guards. *)
Lemma safe_try_except {A : Type} (m : M A) (handler : exn -> M A) :
  (forall e, safe (handler e)) -> safe (try_except m handler).
Proof.
  intros Hh w. unfold outcome, try_except.
  destruct (m w) as [[a | e] w1]; simpl.
  - exists a. reflexivity.
  - apply Hh.
Qed.

Lemma safe_for_each {A : Type} (l : list A) (body : A -> M unit) :
  (forall x, safe (body x)) -> safe (for_each l body).
Proof.
  intros Hbody. induction l as [| x rest IH]; simpl.
  - apply safe_ret.
  - apply safe_bind; [apply Hbody | intros _; exact IH].
Qed.

Lemma safe_when_some {A B : Type} (x : option A) (f : A -> M B) :
  (forall a, safe (f a)) -> safe (when_some x f).
Proof.
  intros Hf. destruct x as [a |]; simpl.
  - apply safe_bind; [apply Hf | intros _; apply safe_ret].
  - apply safe_ret.
Qed.

Lemma safe_datetime_now : safe datetime_now.
Proof. intros w. eexists. reflexivity. Qed.

Lemma safe_py_print (line : LogLine) : safe (py_print line).
Proof. apply safe_modify. Qed.

Lemma safe_deliver (d : Delivery) : safe (deliver d).
Proof. apply safe_modify. Qed.

Lemma safe_sleep : safe sleep.
Proof. apply safe_modify. Qed.

End Safe.

(** *** What each method leaves alone *)

Lemma preserves_weaken {A : Type} (R R' : World -> World -> Prop) (m : M A) :
  (forall w w', R w w' -> R' w w') -> preserves R m -> preserves R' m.
Proof. intros HR Hm w. apply HR, Hm. Qed.

Lemma kept_progress (w w' : World) : unchanged kept w w' -> unchanged progress w w'.
Proof. unfold unchanged, kept, progress. intros H. congruence. Qed.

Lemma kept_environment (w w' : World) : unchanged kept w w' -> unchanged environment w w'.
Proof. unfold unchanged, kept. intros H. congruence. Qed.

Create HintDb frame.

(** Decomposition of a goal [preserves R m] or [safe m] along the syntax of [m]. *)
Ltac frame_step :=
  lazymatch goal with
  | |- Reflexive _ => typeclasses eauto
  | |- Transitive _ => typeclasses eauto
  | |- preserves _ (ret _) => apply preserves_ret
  | |- preserves _ (raise _) => apply preserves_raise
  | |- preserves _ (lift _) => apply preserves_lift
  | |- preserves _ get => apply preserves_get
  | |- preserves _ (bind _ _) => apply preserves_bind; [| | intros ?]
  | |- preserves _ (try_except _ _) => apply preserves_try_except; [| | intros ?]
  | |- preserves _ (for_each _ _) => apply preserves_for_each; [| | intros ?]
  | |- preserves _ (when_some _ _) => apply preserves_when_some; [| | intros ?]
  | |- preserves _ (if ?b then _ else _) => destruct b
  | |- preserves _ (match ?x with _ => _ end) => destruct x
  end.

Ltac frame := cbv zeta; repeat first [ frame_step; cbv zeta | solve [auto with frame] ].

Ltac no_raise_step :=
  lazymatch goal with
  | |- safe (ret _) => apply safe_ret
  | |- safe get => apply safe_get
  | |- safe (modify _) => apply safe_modify
  | |- safe (lift (Ok _)) => apply safe_lift_ok
  | |- safe datetime_now => apply safe_datetime_now
  | |- safe (py_print _) => apply safe_py_print
  | |- safe (deliver _) => apply safe_deliver
  | |- safe sleep => apply safe_sleep
  | |- safe (bind _ _) => apply safe_bind; [| intros ?]
  | |- safe (try_except _ _) => apply safe_try_except; intros ?
  | |- safe (for_each _ _) => apply safe_for_each; intros ?
  | |- safe (when_some _ _) => apply safe_when_some; intros ?
  | |- safe (if ?b then _ else _) => destruct b
  | |- safe (match ?x with _ => _ end) => destruct x
  end.

Ltac no_raise := cbv zeta; repeat first [ no_raise_step; cbv zeta | solve [auto with frame] ].

Lemma kept_datetime_now : preserves (unchanged kept) datetime_now.
Proof. intros w. reflexivity. Qed.

Lemma kept_py_print (line : LogLine) : preserves (unchanged kept) (py_print line).
Proof. intros w. reflexivity. Qed.

Lemma kept_deliver (d : Delivery) : preserves (unchanged kept) (deliver d).
Proof. intros w. reflexivity. Qed.

Lemma kept_execute : preserves (unchanged kept) execute.
Proof.
  intros w. unfold unchanged, exec, execute.
  destruct (faults (db w)) as [| [|] rest]; reflexivity.
Qed.

Lemma kept_with_db (f : Database -> Database) : preserves (unchanged kept) (modify (with_db f)).
Proof. intros w. reflexivity. Qed.

Lemma kept_alerts_generated (f : RiskEngine -> Z) :
  preserves (unchanged kept) (modify (with_self (fun e => set_alerts_generated (f e) e))).
Proof. intros w. reflexivity. Qed.

Lemma kept_client_transactions (f : RiskEngine -> gmap string (list Z)) :
  preserves (unchanged kept) (modify (with_self (fun e => set_client_transactions (f e) e))).
Proof. intros w. reflexivity. Qed.

Lemma kept_symbol_transactions (f : RiskEngine -> gmap string (list Z)) :
  preserves (unchanged kept) (modify (with_self (fun e => set_symbol_transactions (f e) e))).
Proof. intros w. reflexivity. Qed.

Lemma kept_transaction_values (f : RiskEngine -> list float) :
  preserves (unchanged kept) (modify (with_self (fun e => set_transaction_values (f e) e))).
Proof. intros w. reflexivity. Qed.

Lemma kept_running (b : bool) : preserves (unchanged kept) (modify (with_self (set_running b))).
Proof. intros w. reflexivity. Qed.

#[export] Hint Resolve kept_datetime_now kept_py_print kept_deliver kept_execute
  kept_with_db kept_alerts_generated kept_client_transactions kept_symbol_transactions
  kept_transaction_values kept_running : frame.

Lemma kept_send_alert (alert : AlertData) : preserves (unchanged kept) (send_alert alert).
Proof. unfold send_alert, send_slack_alert, send_email_alert. frame. Qed.

Lemma safe_send_alert (alert : AlertData) : safe (send_alert alert).
Proof. unfold send_alert, send_slack_alert, send_email_alert. no_raise. Qed.

#[export] Hint Resolve kept_send_alert safe_send_alert : frame.

Lemma kept_create_alert (alert : AlertData) : preserves (unchanged kept) (create_alert alert).
Proof. unfold create_alert. frame. Qed.

Lemma safe_create_alert (alert : AlertData) : safe (create_alert alert).
Proof. unfold create_alert. no_raise. Qed.

Lemma kept_update_client_risk_level (key : string) (level : RiskLevel) :
  preserves (unchanged kept) (update_client_risk_level key level).
Proof. unfold update_client_risk_level. frame. Qed.

Lemma kept_update_symbol_risk_level (key : string) (level : RiskLevel) :
  preserves (unchanged kept) (update_symbol_risk_level key level).
Proof. unfold update_symbol_risk_level. frame. Qed.

#[export] Hint Resolve kept_create_alert safe_create_alert
  kept_update_client_risk_level kept_update_symbol_risk_level : frame.

Section EngineFrames.

Context {numpy : Numpy}.
Variable cfg : Config.

Lemma kept_check_client_exposure (key : string) (exposure : float) :
  preserves (unchanged kept) (check_client_exposure cfg key exposure).
Proof. unfold check_client_exposure. frame. Qed.

Lemma kept_check_symbol_exposure (key : string) (exposure : float) :
  preserves (unchanged kept) (check_symbol_exposure cfg key exposure).
Proof. unfold check_symbol_exposure. frame. Qed.

Lemma kept_check_transaction_velocity (entity_type : EntityType) (entity_id : string)
    (transactions : list Z) :
  preserves (unchanged kept) (check_transaction_velocity cfg entity_type entity_id transactions).
Proof. unfold check_transaction_velocity. frame. Qed.

Lemma safe_check_transaction_velocity (entity_type : EntityType) (entity_id : string)
    (transactions : list Z) :
  safe (check_transaction_velocity cfg entity_type entity_id transactions).
Proof. unfold check_transaction_velocity. no_raise. Qed.

Lemma kept_detect_anomaly (value : float) :
  preserves (unchanged kept) (detect_anomaly cfg value).
Proof. unfold detect_anomaly. frame. Qed.

Hint Resolve kept_check_client_exposure kept_check_symbol_exposure
  kept_check_transaction_velocity kept_detect_anomaly : frame.

Lemma kept_check_exposures : preserves (unchanged kept) (check_exposures cfg).
Proof. unfold check_exposures. frame. Qed.

Lemma safe_check_exposures : safe (check_exposures cfg).
Proof. unfold check_exposures. no_raise. Qed.

Lemma kept_update_risk_metrics : preserves (unchanged kept) update_risk_metrics.
Proof. unfold update_risk_metrics. frame. Qed.

Lemma safe_update_risk_metrics : safe update_risk_metrics.
Proof. unfold update_risk_metrics. no_raise. Qed.

Lemma safe_process_new_transactions : safe (process_new_transactions cfg).
Proof. unfold process_new_transactions. no_raise. Qed.

End EngineFrames.

(* ===================================================================== *)
(** ** Velocity check: the two-timestamp guard *)
(* ===================================================================== *)

(** C10.  Whenever the deque passed to [check_transaction_velocity] holds
    fewer than 2 timestamps, the check returns None and does nothing else
    (the clock is not even read), whatever the configured velocity
    threshold and however many of the timestamps are recent. *)
Theorem velocity_needs_two_timestamps :
  forall (cfg : Config) (entity_type : EntityType) (entity_id : string)
         (transactions : list Z) (w : World),
    (length transactions < 2)%nat ->
    check_transaction_velocity cfg entity_type entity_id transactions w = (Ok None, w).
Proof.
  intros cfg entity_type entity_id transactions w Hlen.
  unfold check_transaction_velocity.
  destruct (Nat.ltb_spec (length transactions) 2) as [_ | Hge]; [reflexivity | lia].
Qed.

Lemma velocity_needs_two_timestamps_witness :
  (TRANSACTION_VELOCITY_THRESHOLD VelocityExample.cfg
     <? Z.of_nat (recent_count VelocityExample.transactions VelocityExample.cutoff)) = true
  /\ check_transaction_velocity VelocityExample.cfg CLIENT "CLIENT_001"
       VelocityExample.transactions VelocityExample.w
     = (Ok None, VelocityExample.w).
Proof.
  split.
  - reflexivity.
  - apply (velocity_needs_two_timestamps VelocityExample.cfg CLIENT "CLIENT_001"
             VelocityExample.transactions VelocityExample.w).
    simpl. lia.
Defined.

(* ===================================================================== *)
(** ** Anomaly detection: the guards *)
(* ===================================================================== *)

Lemma np_divide_nonzero (a b : float) :
  PyFloat.eq b 0 = false -> np_divide a b = Ok (a / b)%float.
Proof. intros H. unfold np_divide. rewrite H. reflexivity. Qed.



(* ===================================================================== *)
(** ** Exposure classification *)
(* ===================================================================== *)

Lemma calculate_risk_level_nonzero (exposure threshold : float) :
  PyFloat.eq threshold 0 = false ->
  exists level, calculate_risk_level exposure threshold = Ok level.
Proof.
  intros H. unfold calculate_risk_level, py_truediv. rewrite H. eauto.
Qed.

Lemma calculate_risk_level_zero (exposure threshold : float) :
  PyFloat.eq threshold 0 = true ->
  calculate_risk_level exposure threshold = Raise ZeroDivisionError.
Proof.
  intros H. unfold calculate_risk_level, py_truediv. rewrite H. reflexivity.
Qed.





(** C3, as the code has it.  At an exposure exactly equal to the configured
    threshold neither exposure check returns an alert (triggered is false);
    a check returns an alert exactly when the exposure is strictly greater
    than the threshold (and the threshold is not zero, where the check
    raises instead). *)
Theorem exposure_equal_threshold_no_alert :
  forall (cfg : Config) (key : string) (w : World),
    (forall a, outcome (check_client_exposure cfg key (CLIENT_EXPOSURE_THRESHOLD cfg)) w
               <> Ok (Some a))
    /\ (forall a, outcome (check_symbol_exposure cfg key (SYMBOL_EXPOSURE_THRESHOLD cfg)) w
                  <> Ok (Some a))
    /\ (forall exposure,
          (exists a, outcome (check_client_exposure cfg key exposure) w = Ok (Some a))
          <-> (PyFloat.eq (CLIENT_EXPOSURE_THRESHOLD cfg) 0 = false
               /\ PyFloat.gt exposure (CLIENT_EXPOSURE_THRESHOLD cfg) = true))
    /\ (forall exposure,
          (exists a, outcome (check_symbol_exposure cfg key exposure) w = Ok (Some a))
          <-> (PyFloat.eq (SYMBOL_EXPOSURE_THRESHOLD cfg) 0 = false
               /\ PyFloat.gt exposure (SYMBOL_EXPOSURE_THRESHOLD cfg) = true)).
Proof.
  intros cfg key w.
  assert (Hclient : forall exposure,
    (exists a, outcome (check_client_exposure cfg key exposure) w = Ok (Some a))
    <-> (PyFloat.eq (CLIENT_EXPOSURE_THRESHOLD cfg) 0 = false
         /\ PyFloat.gt exposure (CLIENT_EXPOSURE_THRESHOLD cfg) = true)).
  { intros exposure. unfold check_client_exposure, outcome, bind, lift, ret.
    destruct (PyFloat.eq (CLIENT_EXPOSURE_THRESHOLD cfg) 0) eqn:Hzero.
    - rewrite (calculate_risk_level_zero _ _ Hzero). simpl.
      split; [intros [a Ha]; discriminate | intros [H _]; discriminate].
    - destruct (calculate_risk_level_nonzero exposure _ Hzero) as [level Hlevel].
      rewrite Hlevel.
      destruct (PyFloat.gt exposure (CLIENT_EXPOSURE_THRESHOLD cfg)) eqn:Hgt; simpl.
      + split; [intros _; split; reflexivity | intros _; eauto].
      + split; [intros [a Ha] | intros [_ H]; discriminate].
        destruct (update_client_risk_level key level w) as [[u | e] w1];
          simpl in Ha; discriminate. }
  assert (Hsymbol : forall exposure,
    (exists a, outcome (check_symbol_exposure cfg key exposure) w = Ok (Some a))
    <-> (PyFloat.eq (SYMBOL_EXPOSURE_THRESHOLD cfg) 0 = false
         /\ PyFloat.gt exposure (SYMBOL_EXPOSURE_THRESHOLD cfg) = true)).
  { intros exposure. unfold check_symbol_exposure, outcome, bind, lift, ret.
    destruct (PyFloat.eq (SYMBOL_EXPOSURE_THRESHOLD cfg) 0) eqn:Hzero.
    - rewrite (calculate_risk_level_zero _ _ Hzero). simpl.
      split; [intros [a Ha]; discriminate | intros [H _]; discriminate].
    - destruct (calculate_risk_level_nonzero exposure _ Hzero) as [level Hlevel].
      rewrite Hlevel.
      destruct (PyFloat.gt exposure (SYMBOL_EXPOSURE_THRESHOLD cfg)) eqn:Hgt; simpl.
      + split; [intros _; split; reflexivity | intros _; eauto].
      + split; [intros [a Ha] | intros [_ H]; discriminate].
        destruct (update_symbol_risk_level key level w) as [[u | e] w1];
          simpl in Ha; discriminate. }
  split; [| split; [| split]]; [| | exact Hclient | exact Hsymbol].
  - intros a Ha.
    destruct (proj1 (Hclient (CLIENT_EXPOSURE_THRESHOLD cfg)) (ex_intro _ a Ha)) as [_ Hgt].
    rewrite PyFloatFacts.gt_irrefl in Hgt. discriminate.
  - intros a Ha.
    destruct (proj1 (Hsymbol (SYMBOL_EXPOSURE_THRESHOLD cfg)) (ex_intro _ a Ha)) as [_ Hgt].
    rewrite PyFloatFacts.gt_irrefl in Hgt. discriminate.
Qed.

Lemma exposure_equal_threshold_no_alert_witness :
  exists a,
    outcome (check_client_exposure default_config "CLIENT_001" 1000001%float) AtThreshold.w
    = Ok (Some a).
Proof.
  apply (proj2 (proj1 (proj2 (proj2 (exposure_equal_threshold_no_alert
                                       default_config "CLIENT_001" AtThreshold.w)))
                 1000001%float)).
  split; reflexivity.
Defined.

(** C3 fails at exposure = threshold: with the default thresholds, a client
    at exactly 1,000,000 and a symbol at exactly 500,000 pass a whole
    [check_exposures] without any alert being created or sent. *)
Lemma exposure_equal_threshold_not_triggered :
  outcome (check_client_exposure default_config "CLIENT_001" 1000000%float) AtThreshold.w
    = Ok None
  /\ outcome (check_symbol_exposure default_config "AAPL" 500000%float) AtThreshold.w
    = Ok None
  /\ alerts (db (exec (check_exposures default_config) AtThreshold.w)) = []
  /\ stdout (exec (check_exposures default_config) AtThreshold.w) = [].
Proof. repeat split; reflexivity. Qed.

(* ===================================================================== *)
(** ** The rate tracker *)
(* ===================================================================== *)

Lemma recent_count_count_greater (times : list Z) (cutoff : Z) :
  recent_count times cutoff = count_greater cutoff times.
Proof.
  unfold count_greater. induction times as [| t rest IH]; simpl.
  - reflexivity.
  - rewrite IH. destruct (cutoff <? t); reflexivity.
Qed.


Lemma tracker_get_record_same (key : string) (t : Z) (tracker : gmap string (list Z)) :
  tracker_get (record key t tracker) key
  = deque_append TRACKER_MAXLEN (tracker_get tracker key) t.
Proof. unfold tracker_get at 1, record. rewrite lookup_insert_eq. reflexivity. Qed.

Lemma tracker_get_record_other (key key' : string) (t : Z) (tracker : gmap string (list Z)) :
  key' <> key -> tracker_get (record key' t tracker) key = tracker_get tracker key.
Proof.
  intros Hne. unfold tracker_get, record. rewrite lookup_insert_ne by exact Hne. reflexivity.
Qed.

Lemma recorded_for_snoc (key : string) (calls : list (string * Z)) (call : string * Z) :
  recorded_for key (calls ++ [call])
  = recorded_for key calls ++ (if String.eqb (fst call) key then [snd call] else []).
Proof.
  unfold recorded_for. rewrite List.filter_app, map_app. simpl.
  destruct (String.eqb (fst call) key); reflexivity.
Qed.

Lemma record_all_snoc (calls : list (string * Z)) (call : string * Z)
    (tracker : gmap string (list Z)) :
  record_all (calls ++ [call]) tracker
  = record (fst call) (snd call) (record_all calls tracker).
Proof. unfold record_all. rewrite fold_left_app. reflexivity. Qed.


(** The check on a deque of two timestamps or more: one reading of the
    clock, and an alert exactly when the count exceeds the threshold. *)
Lemma check_transaction_velocity_counts (cfg : Config) (entity_type : EntityType)
    (entity_id : string) (transactions : list Z) (w : World) :
  (2 <= length transactions)%nat ->
  outcome (check_transaction_velocity cfg entity_type entity_id transactions) w
  = Ok (let count := recent_count transactions (velocity_cutoff w) in
        if TRANSACTION_VELOCITY_THRESHOLD cfg <? Z.of_nat count
        then Some (velocity_alert cfg entity_type entity_id count)
        else None).
Proof.
  intros Hlen. unfold check_transaction_velocity, outcome, bind, datetime_now, ret.
  destruct (Nat.ltb_spec (length transactions) 2) as [Hlt | _]; [lia |].
  cbv zeta. fold (velocity_cutoff w). simpl.
  destruct (TRANSACTION_VELOCITY_THRESHOLD cfg
              <? Z.of_nat (recent_count transactions (velocity_cutoff w))); reflexivity.
Qed.



(* ===================================================================== *)
(** ** The order of push and score *)
(* ===================================================================== *)



Lemma update_tracking_value (tx : Transaction) (value : float) (w : World) :
  total_value tx = Some value ->
  update_tracking tx w = (Ok tt, tracked tx value w).
Proof.
  intros Hvalue. unfold update_tracking, bind, datetime_now, modify, lift.
  simpl. rewrite Hvalue. reflexivity.
Qed.

(** A NULL value stops "Update tracking" after the two timestamp appends. *)
Lemma update_tracking_null (tx : Transaction) (w : World) :
  total_value tx = None ->
  outcome (update_tracking tx) w = Raise TypeError.
Proof.
  intros Hvalue. unfold outcome, update_tracking, bind, datetime_now, modify, lift.
  simpl. rewrite Hvalue. reflexivity.
Qed.




(* ===================================================================== *)
(** ** Notification and the alert sink *)
(* ===================================================================== *)

Lemma dispatched_send_alert (alert : AlertData) (w : World) :
  dispatched (exec (send_alert alert) w) = dispatched w ++ [alert].
Proof.
  destruct w as [[[slack email] on ct st tv cur ag tp] d c cr env out del pr].
  unfold dispatched, exec, send_alert, send_slack_alert, send_email_alert,
    bind, get, py_print, deliver, modify, ret.
  destruct slack, email; simpl; rewrite ?omap_app; simpl; rewrite ?app_nil_r; reflexivity.
Qed.

(** C6, as the code has it.  [create_alert] invokes [send_alert] exactly
    once, with its alert, when the INSERT into the alert sink succeeds, and
    not at all when the INSERT fails: the failure is caught and None is
    returned. *)
Theorem create_alert_sends_iff_stored :
  forall (alert : AlertData) (w : World),
    dispatched (exec (create_alert alert) w)
      = dispatched w ++ (if next_statement_fails w then [] else [alert])
    /\ (next_statement_fails w = true ->
        outcome (create_alert alert) w = Ok None
        /\ alerts (db (exec (create_alert alert) w)) = alerts (db w)
        /\ deliveries (exec (create_alert alert) w) = deliveries w)
    /\ (next_statement_fails w = false ->
        outcome (create_alert alert) w = Ok (Some (alert_sequence (db w) + 1))).
Proof.
  intros alert w.
  destruct w as [[[slack email] on ct st tv cur ag tp] d c cr env out del pr].
  destruct d as [up schedule txs clients symbols rows seq metrics].
  unfold next_statement_fails, dispatched, exec, outcome, create_alert, send_alert,
    send_slack_alert, send_email_alert, try_except, bind, datetime_now, execute, get,
    py_print, deliver, modify, ret.
  destruct schedule as [| [|] rest]; destruct slack, email;
    simpl; rewrite ?omap_app; simpl; rewrite ?app_nil_r;
    (split; [reflexivity | split; intros H; try discriminate H; repeat split; reflexivity]).
Qed.

Lemma create_alert_sends_iff_stored_witness :
  dispatched (exec (create_alert SinkDown.alert) Scenario.empty_world) = [SinkDown.alert]
  /\ dispatched (exec (create_alert SinkDown.alert) SinkDown.down) = []
  /\ outcome (create_alert SinkDown.alert) SinkDown.down = Ok None.
Proof.
  split; [| split].
  - apply (proj1 (create_alert_sends_iff_stored SinkDown.alert Scenario.empty_world)).
  - apply (proj1 (create_alert_sends_iff_stored SinkDown.alert SinkDown.down)).
  - apply (proj1 (proj2 (create_alert_sends_iff_stored SinkDown.alert SinkDown.down))).
    reflexivity.
Defined.

(** C6 fails when the sink is down: the exposure check triggers, and
    [send_alert] is never invoked for the alert. *)
Lemma sink_failure_suppresses_notification :
  outcome (check_client_exposure default_config "CLIENT_001" 1250000%float) SinkDown.w
    = Ok (Some (client_exposure_alert default_config "CLIENT_001" 1250000%float))
  /\ dispatched (exec (check_exposures default_config) SinkDown.w) = []
  /\ deliveries (exec (check_exposures default_config) SinkDown.w) = []
  /\ stdout (exec (check_exposures default_config) SinkDown.w)
     = [LogCreateAlertError DatabaseError].
Proof. repeat split; reflexivity. Qed.

(* ===================================================================== *)
(** ** The transaction loop *)
(* ===================================================================== *)

Lemma bind_continue {A B : Type} (m : M A) (k : A -> M B) (w : World) :
  safe m -> exists a, outcome m w = Ok a /\ bind m k w = k a (exec m w).
Proof.
  intros Hsafe. destruct (Hsafe w) as [a Ha]. exists a.
  unfold outcome, exec, bind in *.
  destruct (m w) as [[a' | e] w1]; simpl in *; [| discriminate].
  inversion Ha. subst a'. split; reflexivity.
Qed.

Lemma bind_raise {A B : Type} (m : M A) (k : A -> M B) (w : World) (e : exn) :
  outcome m w = Raise e ->
  outcome (bind m k) w = Raise e /\ exec (bind m k) w = exec m w.
Proof.
  unfold outcome, exec, bind. destruct (m w) as [[a | e'] w1]; simpl.
  - discriminate.
  - intros H. inversion H. split; reflexivity.
Qed.

Lemma marks_mark_processed (id : Z) : marks id (modify (mark_processed id)).
Proof. intros w. repeat split; reflexivity. Qed.

Lemma marks_bind {A : Type} (id : Z) (m : M A) (k : A -> M unit) :
  safe m -> preserves (unchanged kept) m -> (forall a, marks id (k a)) ->
  marks id (bind m k).
Proof.
  intros Hsafe Hkept Hk w.
  destruct (bind_continue m k w Hsafe) as [a [_ Hbind]].
  specialize (Hk a (exec m w)). specialize (Hkept w).
  unfold unchanged, kept in Hkept. inversion Hkept as [[Hc Hp He]].
  unfold outcome, exec in *. rewrite Hbind.
  destruct Hk as [Hok [Hcur [Hproc Henv]]].
  repeat split; [exact Hok | exact Hcur | | ]; congruence.
Qed.

Section TransactionLoop.

Context {numpy : Numpy}.
Variable cfg : Config.

Lemma safe_detect_anomaly (value : float) : safe (detect_anomaly cfg value).
Proof.
  intros w. unfold detect_anomaly, outcome, bind, get, ret, lift.
  destruct (length (transaction_values (self w)) <? 30)%nat; [eauto |].
  destruct (PyFloat.eq (np_std (transaction_values (self w))) 0) eqn:Hstd; [eauto |].
  rewrite (np_divide_nonzero _ _ Hstd).
  destruct (PyFloat.gt _ _); eauto.
Qed.

Lemma marks_run_checks (tx : Transaction) (value : float) :
  total_value tx = Some value -> marks (transaction_id tx) (run_checks cfg tx).
Proof.
  intros Hvalue. unfold run_checks. rewrite Hvalue. simpl py_float.
  repeat first
    [ apply marks_mark_processed
    | apply marks_bind;
      [ first [ apply safe_detect_anomaly
              | apply safe_check_transaction_velocity
              | no_raise ]
      | first [ apply kept_detect_anomaly
              | apply kept_check_transaction_velocity
              | frame ]
      | intros ? ] ].
Qed.

(** A transaction with a value: the loop body runs to its end. *)
Lemma process_transaction_value (tx : Transaction) (value : float) (w : World) :
  total_value tx = Some value ->
  outcome (process_transaction cfg tx) w = Ok tt
  /\ cursor (exec (process_transaction cfg tx) w) = transaction_id tx
  /\ processed (exec (process_transaction cfg tx) w) = processed w ++ [transaction_id tx]
  /\ environment (exec (process_transaction cfg tx) w) = environment w.
Proof.
  intros Hvalue.
  assert (Hrun : process_transaction cfg tx w = run_checks cfg tx (tracked tx value w)).
  { unfold process_transaction, bind at 1.
    rewrite (update_tracking_value tx value w Hvalue). reflexivity. }
  unfold outcome, exec. rewrite Hrun.
  apply (marks_run_checks tx value Hvalue (tracked tx value w)).
Qed.

Lemma kept_update_tracking (tx : Transaction) :
  preserves (unchanged kept) (update_tracking tx).
Proof. unfold update_tracking. frame. Qed.

(** A transaction whose value is NULL: the loop body raises in "Update
    tracking", before the cursor and the history are touched. *)
Lemma process_transaction_null (tx : Transaction) (w : World) :
  total_value tx = None ->
  outcome (process_transaction cfg tx) w = Raise TypeError
  /\ kept (exec (process_transaction cfg tx) w) = kept w.
Proof.
  intros Hvalue. unfold process_transaction.
  destruct (bind_raise (update_tracking tx) (fun _ => run_checks cfg tx) w TypeError
              (update_tracking_null tx w Hvalue)) as [Hout Hexec].
  split; [exact Hout |].
  rewrite Hexec. symmetry. apply kept_update_tracking.
Qed.

(** The loop over a run of transactions that all have a value goes through
    all of them and continues with what follows. *)
Lemma for_each_values (pre rest : list Transaction) (w : World) :
  Forall (fun tx => total_value tx <> None) pre ->
  exists w1,
    for_each (pre ++ rest) (process_transaction cfg) w
      = for_each rest (process_transaction cfg) w1
    /\ cursor w1 = cursor_after (cursor w) pre
    /\ processed w1 = processed w ++ map transaction_id pre
    /\ environment w1 = environment w.
Proof.
  intros Hpre. revert w. induction Hpre as [| tx pre Htx Hpre IH]; intros w.
  - exists w. simpl. rewrite app_nil_r. repeat split; reflexivity.
  - destruct (total_value tx) as [value |] eqn:Hvalue; [| congruence].
    destruct (process_transaction_value tx value w Hvalue) as [Hok [Hcur [Hproc Henv]]].
    destruct (IH (exec (process_transaction cfg tx) w)) as [w1 [Hrun [Hc1 [Hp1 He1]]]].
    exists w1. split; [| split; [| split]].
    + rewrite <- Hrun. simpl. unfold bind at 1. unfold outcome, exec in *.
      destruct (process_transaction cfg tx w) as [[[] | e] w']; simpl in *;
        [reflexivity | discriminate].
    + rewrite Hc1, Hcur. reflexivity.
    + rewrite Hp1, Hproc. simpl. rewrite <- app_assoc. reflexivity.
    + rewrite He1, Henv. reflexivity.
Qed.

(** The loop stops at the first transaction that raises: nothing after it
    is processed. *)
Lemma for_each_null (bad : Transaction) (post : list Transaction) (w : World) :
  total_value bad = None ->
  outcome (for_each (bad :: post) (process_transaction cfg)) w = Raise TypeError
  /\ kept (exec (for_each (bad :: post) (process_transaction cfg)) w) = kept w.
Proof.
  intros Hvalue. destruct (process_transaction_null bad w Hvalue) as [Hout Hkept].
  simpl for_each.
  destruct (bind_raise (process_transaction cfg bad)
              (fun _ => for_each post (process_transaction cfg)) w TypeError Hout)
    as [Hout' Hexec].
  split; [exact Hout' | rewrite Hexec; exact Hkept].
Qed.

End TransactionLoop.

(* ===================================================================== *)
(** ** An error in the middle of a batch *)
(* ===================================================================== *)

(** A statement that does not fail changes nothing but the fault schedule. *)
Lemma execute_succeeds (w : World) :
  next_statement_fails w = false ->
  exists w1,
    execute w = (Ok tt, w1)
    /\ self w1 = self w
    /\ processed w1 = processed w
    /\ environment w1 = environment w
    /\ (forall last_id, select_new_transactions (db w1) last_id
                        = select_new_transactions (db w) last_id).
Proof.
  unfold next_statement_fails, execute. intros Hnext.
  destruct (faults (db w)) as [| [|] rest]; [| discriminate |];
    eexists; repeat split; reflexivity.
Qed.

(** C4, as the code has it.  When the transaction [bad] of a fetched batch
    raises (its value is NULL), the transactions before it have been
    processed and the cursor stands at the last of them; [bad] and every
    transaction after it in the batch are not processed in this cycle; the
    error is caught and printed by [process_new_transactions], which
    returns, and the following steps of the cycle run. *)
Theorem batch_stops_at_first_error :
  forall (numpy : Numpy) (cfg : Config) (w : World)
         (pre : list Transaction) (bad : Transaction) (post : list Transaction),
    next_statement_fails w = false ->
    select_new_transactions (db w) (cursor w) = pre ++ bad :: post ->
    Forall (fun tx => total_value tx <> None) pre ->
    total_value bad = None ->
    let w' := exec (process_new_transactions cfg) w in
    outcome (process_new_transactions cfg) w = Ok tt
    /\ processed w' = processed w ++ map transaction_id pre
    /\ cursor w' = cursor_after (cursor w) pre
    /\ last (stdout w') = Some (LogTransactionsError TypeError)
    /\ (forall iteration,
          cycle cfg iteration w
          = (check_exposures cfg ;;
             if iteration mod 10 =? 0 then update_risk_metrics ;; py_print LogStats
             else ret tt) w').
Proof.
  intros numpy cfg w pre bad post Hnext Hbatch Hpre Hbad w'.
  destruct (execute_succeeds w Hnext) as [w1 [Hexec [Hself [Hproc [Henv Hselect]]]]].
  destruct (for_each_values cfg pre (bad :: post) w1 Hpre) as [w2 [Hrun [Hc2 [Hp2 He2]]]].
  destruct (for_each_null cfg bad post w2 Hbad) as [Hout Hkept].
  assert (Hbody : process_new_transactions cfg w
                  = py_print (LogTransactionsError TypeError)
                      (exec (for_each (bad :: post) (process_transaction cfg)) w2)).
  { unfold process_new_transactions, try_except, bind at 1, get.
    unfold bind at 1. rewrite Hexec. unfold bind at 1, get.
    rewrite Hselect. fold (cursor w). rewrite Hbatch, Hrun.
    unfold outcome, exec in *.
    destruct (for_each (bad :: post) (process_transaction cfg) w2) as [[u | e] w3];
      simpl in *; [discriminate |].
    inversion Hout. reflexivity. }
  assert (Hok : outcome (process_new_transactions cfg) w = Ok tt).
  { unfold outcome. rewrite Hbody. reflexivity. }
  unfold kept in Hkept. inversion Hkept as [[Hc3 Hp3 He3]].
  split; [exact Hok |]. split; [| split; [| split]].
  - unfold w', exec. rewrite Hbody. simpl. rewrite Hp3, Hp2, Hproc. reflexivity.
  - unfold w', exec, cursor in *. rewrite Hbody. simpl. rewrite Hc3, Hc2, Hself. reflexivity.
  - unfold w', exec. rewrite Hbody. simpl. apply last_snoc.
  - intros iteration. unfold cycle, bind at 1. unfold w', exec, outcome in *.
    destruct (process_new_transactions cfg w) as [[[] | e] w3]; simpl in *;
      [reflexivity | discriminate].
Qed.

Lemma batch_stops_at_first_error_witness :
  processed (exec (process_new_transactions default_config) PoisonedBatch.w) = [1]
  /\ cursor (exec (process_new_transactions default_config) PoisonedBatch.w) = 1.
Proof.
  pose proof (batch_stops_at_first_error reference_numpy default_config PoisonedBatch.w
                [Scenario.tx 1 (Some 100%float)] (Scenario.tx 2 None)
                [Scenario.tx 3 (Some 300%float)] eq_refl eq_refl) as H.
  cbv zeta in H. destruct H as [_ [Hproc [Hcur _]]].
  - constructor; [discriminate | constructor].
  - reflexivity.
  - split; [exact Hproc | exact Hcur].
Defined.

(** C4 fails on a batch whose second transaction raises: the third
    transaction, which is in the same batch and has a proper value, is not
    processed in that cycle (nor in the following ones: the cursor stays
    before the failing transaction). *)
Lemma later_transactions_not_processed :
  select_new_transactions (db PoisonedBatch.w) (cursor PoisonedBatch.w) = PoisonedBatch.batch
  /\ processed (exec (cycle default_config 1) PoisonedBatch.w) = [1]
  /\ ~ In 3 (processed (exec (cycle default_config 1) PoisonedBatch.w))
  /\ stdout (exec (cycle default_config 1) PoisonedBatch.w) = [LogTransactionsError TypeError]
  /\ processed (exec (monitor_loop default_config 5) PoisonedBatch.w) = [1].
Proof.
  repeat split; try reflexivity.
  intros [H | []]. discriminate H.
Qed.

(* ===================================================================== *)
(** ** The cursor *)
(* ===================================================================== *)

Lemma Forall_insert_by_id (P : Transaction -> Prop) (tx : Transaction) (l : list Transaction) :
  P tx -> Forall P l -> Forall P (insert_by_id tx l).
Proof.
  intros Htx Hl. induction Hl as [| y rest Hy Hrest IH]; simpl.
  - constructor; [exact Htx | constructor].
  - destruct (transaction_id tx <? transaction_id y).
    + constructor; [exact Htx | constructor; assumption].
    + constructor; assumption.
Qed.

Lemma ascending_insert_by_id (tx : Transaction) (l : list Transaction) :
  ascending l -> ascending (insert_by_id tx l).
Proof.
  unfold ascending. intros Hl. induction Hl as [| y rest Hrest IH Hy]; simpl.
  - constructor; constructor.
  - destruct (Z.ltb_spec (transaction_id tx) (transaction_id y)) as [Hlt | Hge].
    + constructor.
      * constructor; assumption.
      * constructor; [lia |].
        eapply List.Forall_impl; [| exact Hy]. simpl. intros b Hb. lia.
    + constructor; [exact IH |].
      apply Forall_insert_by_id; [lia | exact Hy].
Qed.

Lemma ascending_order_by (l : list Transaction) : ascending (order_by_transaction_id l).
Proof.
  induction l as [| tx rest IH]; simpl.
  - constructor.
  - apply ascending_insert_by_id, IH.
Qed.

Lemma Forall_order_by (P : Transaction -> Prop) (l : list Transaction) :
  Forall P l -> Forall P (order_by_transaction_id l).
Proof.
  intros Hl. induction Hl as [| tx rest Htx Hrest IH]; simpl.
  - constructor.
  - apply Forall_insert_by_id; assumption.
Qed.

(** What the SELECT returns: ids above the cursor, in ascending order. *)
Lemma select_new_transactions_above (d : Database) (last_id : Z) :
  Forall (fun tx => last_id < transaction_id tx) (select_new_transactions d last_id).
Proof.
  unfold select_new_transactions. apply Forall_order_by.
  apply List.Forall_forall. intros tx Hin.
  apply List.filter_In in Hin. destruct Hin as [_ Hlt]. lia.
Qed.

Lemma select_new_transactions_ascending (d : Database) (last_id : Z) :
  ascending (select_new_transactions d last_id).
Proof. apply ascending_order_by. Qed.

#[export] Instance advances_refl : Reflexive advances.
Proof. intros w. split; [lia | tauto]. Qed.

#[export] Instance advances_trans : Transitive advances.
Proof. intros w1 w2 w3 [H12 I12] [H23 I23]. split; [lia | tauto]. Qed.

Lemma cursor_invariant_maximum (w : World) :
  cursor_invariant w -> maximum_of (cursor w) (processed w).
Proof.
  intros [Hbound [[Hnil Hzero] | Hlast]]; split; try exact Hbound; split.
  - intros _. exact Hzero.
  - intros Hne. contradiction.
  - intros Hnil. rewrite Hnil in Hlast. discriminate.
  - intros _. apply list_elem_of_In. apply last_Some_elem_of. exact Hlast.
Qed.

Lemma progress_advances (w w' : World) : unchanged progress w w' -> advances w w'.
Proof.
  unfold unchanged, progress, advances, cursor_invariant. intros H.
  injection H as Hc Hp. rewrite <- Hc, <- Hp. split; [lia | tauto].
Qed.

Lemma kept_advances {A : Type} (m : M A) :
  preserves (unchanged kept) m -> preserves advances m.
Proof.
  apply preserves_weaken. intros w w' H. apply progress_advances, kept_progress, H.
Qed.

Section Cursor.

Context {numpy : Numpy}.
Variable cfg : Config.

(** The loop over a batch in ascending order whose ids are not below the
    cursor. *)
Lemma for_each_advances (batch : list Transaction) :
  ascending batch ->
  forall w,
    Forall (fun tx => cursor w <= transaction_id tx) batch ->
    advances w (exec (for_each batch (process_transaction cfg)) w).
Proof.
  unfold ascending. intros Hsorted.
  induction Hsorted as [| tx rest Hrest IH Htx]; intros w Hbatch.
  - simpl. reflexivity.
  - inversion Hbatch as [| tx' rest' Hc Hrest']. subst tx' rest'.
    simpl for_each.
    destruct (total_value tx) as [value |] eqn:Hvalue.
    + destruct (process_transaction_value cfg tx value w Hvalue)
        as [Hok [Hcur [Hproc _]]].
      destruct (bind_continue (process_transaction cfg tx)
                  (fun _ => for_each rest (process_transaction cfg)) w)
        as [[] [_ Hbind]].
      { intros w0. exists tt.
        exact (proj1 (process_transaction_value cfg tx value w0 Hvalue)). }
      unfold exec at 1. rewrite Hbind. fold (exec (for_each rest (process_transaction cfg))
                                               (exec (process_transaction cfg tx) w)).
      transitivity (exec (process_transaction cfg tx) w).
      * split; [lia |]. unfold cursor_invariant. rewrite Hcur, Hproc.
        intros [Hbound _]. split.
        -- apply Forall_app. split.
           ++ eapply List.Forall_impl; [| exact Hbound]. simpl. intros i Hi. lia.
           ++ constructor; [lia | constructor].
        -- right. apply last_snoc.
      * apply IH. rewrite Hcur. exact Htx.
    + destruct (process_transaction_null cfg tx w Hvalue) as [Hout Hkept].
      destruct (bind_raise (process_transaction cfg tx)
                  (fun _ => for_each rest (process_transaction cfg)) w TypeError Hout)
        as [_ Hexec].
      rewrite Hexec. apply progress_advances, kept_progress. symmetry. exact Hkept.
Qed.

Lemma advances_process_new_transactions :
  preserves advances (process_new_transactions cfg).
Proof.
  unfold process_new_transactions.
  apply preserves_try_except; [typeclasses eauto | | intros e; apply kept_advances; frame].
  intros w. unfold exec, bind at 1, get. unfold bind at 1.
  pose proof (kept_execute w) as Hkept. unfold exec in Hkept.
  destruct (execute w) as [[[] | e] w1]; simpl in *.
  - unfold bind at 1, get.
    transitivity w1; [apply progress_advances, kept_progress, Hkept |].
    apply for_each_advances; [apply select_new_transactions_ascending |].
    assert (Hc : cursor w1 = cursor w).
    { unfold unchanged, kept in Hkept. inversion Hkept. reflexivity. }
    rewrite Hc.
    eapply List.Forall_impl; [| apply select_new_transactions_above].
    simpl. unfold cursor. intros tx Htx. lia.
  - apply progress_advances, kept_progress, Hkept.
Qed.

Lemma kept_sleep_progress : preserves (unchanged progress) sleep.
Proof.
  intros w. unfold unchanged, exec, sleep, modify. simpl.
  destruct (environment w); reflexivity.
Qed.

Lemma advances_cycle (iteration : Z) : preserves advances (cycle cfg iteration).
Proof.
  unfold cycle.
  apply preserves_bind; [typeclasses eauto | apply advances_process_new_transactions |].
  intros _. apply preserves_bind; [typeclasses eauto | |].
  - apply kept_advances, kept_check_exposures.
  - intros _. destruct (iteration mod 10 =? 0).
    + apply preserves_bind; [typeclasses eauto | |].
      * apply kept_advances, kept_update_risk_metrics.
      * intros _. apply kept_advances. frame.
    + apply preserves_ret. typeclasses eauto.
Qed.

Lemma advances_sleep : preserves advances sleep.
Proof. intros w. apply progress_advances, kept_sleep_progress. Qed.

Lemma advances_monitor_passes (passes : nat) :
  forall iteration, preserves advances (monitor_passes cfg passes iteration).
Proof.
  induction passes as [| passes IH]; intros iteration; simpl.
  - apply kept_advances. frame.
  - apply preserves_bind; [typeclasses eauto | | intros _; apply IH].
    apply preserves_try_except; [typeclasses eauto | |].
    + apply preserves_bind; [typeclasses eauto | apply advances_cycle |].
      intros _. apply advances_sleep.
    + intros e. apply preserves_bind; [typeclasses eauto | |].
      * apply kept_advances. frame.
      * intros _. apply advances_sleep.
Qed.

Lemma advances_monitor_loop (passes : nat) : preserves advances (monitor_loop cfg passes).
Proof.
  unfold monitor_loop.
  apply preserves_bind; [typeclasses eauto | apply kept_advances; frame |].
  intros _. apply preserves_bind; [typeclasses eauto | apply kept_advances; frame |].
  intros _. apply advances_monitor_passes.
Qed.

End Cursor.

(** C9.  From a fresh engine (cursor 0, nothing processed), after any
    number of passes of the monitoring loop, over any store, fault schedule
    and activity of the other writers, the cursor is the maximum of the ids
    processed (the SELECT hands them over in ascending order); the cursor
    never decreases across a step of the engine (the transaction step, the
    exposure step, the metrics step, the sleep, a whole cycle, the whole
    loop), from any world; and the exposure step leaves it as it was,
    whatever fails there. *)
Theorem cursor_monotone_maximum :
  forall (numpy : Numpy) (cfg : Config) (passes : nat) (w0 : World),
    cursor w0 = 0 ->
    processed w0 = [] ->
    maximum_of (cursor (exec (monitor_loop cfg passes) w0))
               (processed (exec (monitor_loop cfg passes) w0))
    /\ (forall w, cursor w <= cursor (exec (process_new_transactions cfg) w))
    /\ (forall w, cursor (exec (check_exposures cfg) w) = cursor w)
    /\ (forall w, cursor (exec update_risk_metrics w) = cursor w)
    /\ (forall w, cursor (exec sleep w) = cursor w)
    /\ (forall w iteration, cursor w <= cursor (exec (cycle cfg iteration) w))
    /\ (forall w n, cursor w <= cursor (exec (monitor_loop cfg n) w)).
Proof.
  intros numpy cfg passes w0 Hcursor Hprocessed.
  split; [| split; [| split; [| split; [| split; [| split]]]]].
  - apply cursor_invariant_maximum.
    apply (advances_monitor_loop cfg passes w0).
    unfold cursor_invariant. rewrite Hprocessed, Hcursor.
    split; [constructor | left; split; reflexivity].
  - intros w. apply (advances_process_new_transactions cfg w).
  - intros w. pose proof (kept_check_exposures cfg w) as H.
    unfold unchanged, kept in H. inversion H. reflexivity.
  - intros w. pose proof (kept_update_risk_metrics w) as H.
    unfold unchanged, kept in H. inversion H. reflexivity.
  - intros w. pose proof (kept_sleep_progress w) as H.
    unfold unchanged, progress in H. inversion H. reflexivity.
  - intros w iteration. apply (advances_cycle cfg iteration w).
  - intros w n. apply (advances_monitor_loop cfg n w).
Qed.

Lemma cursor_monotone_maximum_witness :
  maximum_of (cursor (exec (monitor_loop default_config 3) Feed.w))
             (processed (exec (monitor_loop default_config 3) Feed.w))
  /\ processed (exec (monitor_loop default_config 3) Feed.w) = [1; 2; 3; 5]
  /\ cursor (exec (monitor_loop default_config 3) Feed.w) = 5.
Proof.
  split; [| split; reflexivity].
  apply (proj1 (cursor_monotone_maximum reference_numpy default_config 3 Feed.w
                  eq_refl eq_refl)).
Defined.

(* ===================================================================== *)
(** ** Startup *)
(* ===================================================================== *)

#[export] Hint Resolve kept_check_client_exposure kept_check_symbol_exposure
  kept_check_transaction_velocity kept_detect_anomaly kept_check_exposures
  kept_update_risk_metrics kept_update_tracking
  safe_check_transaction_velocity safe_detect_anomaly safe_check_exposures
  safe_update_risk_metrics safe_process_new_transactions : frame.

Lemma environment_of_kept {A : Type} (m : M A) :
  preserves (unchanged kept) m -> preserves (unchanged environment) m.
Proof. apply preserves_weaken. exact kept_environment. Qed.

Lemma environment_mark_processed (id : Z) :
  preserves (unchanged environment) (modify (mark_processed id)).
Proof. intros w. reflexivity. Qed.

#[export] Hint Resolve environment_mark_processed : frame.
#[export] Hint Extern 4 (preserves (unchanged environment) _) =>
  apply environment_of_kept; solve [auto with frame] : frame.

Lemma environment_sleep (w : World) :
  environment (exec sleep w) = tail (environment w).
Proof.
  unfold exec, sleep, modify. simpl.
  destruct (environment w) as [| act rest] eqn:Henv; simpl; [rewrite Henv |]; reflexivity.
Qed.

Lemma try_except_safe {A : Type} (m : M A) (handler : exn -> M A) (w : World) :
  safe m -> try_except m handler w = m w.
Proof.
  intros Hsafe. destruct (Hsafe w) as [a Ha]. unfold outcome, try_except in *.
  destruct (m w) as [[a' | e] w1]; simpl in *; [reflexivity | discriminate].
Qed.

Section Startup.

Context {numpy : Numpy}.
Variable cfg : Config.

Lemma environment_cycle (iteration : Z) :
  preserves (unchanged environment) (cycle cfg iteration).
Proof.
  unfold cycle, process_new_transactions, process_transaction, run_checks. frame.
Qed.

Lemma safe_cycle (iteration : Z) : safe (cycle cfg iteration).
Proof. unfold cycle. no_raise. Qed.

Lemma safe_monitor_passes (passes : nat) :
  forall iteration, safe (monitor_passes cfg passes iteration).
Proof.
  induction passes as [| passes IH]; intros iteration; simpl.
  - no_raise.
  - apply safe_bind; [| intros _; apply IH]. no_raise.
Qed.

Lemma safe_monitor_loop (passes : nat) : safe (monitor_loop cfg passes).
Proof.
  unfold monitor_loop. apply safe_bind; [no_raise |]. intros _.
  apply safe_bind; [no_raise |]. intros _. apply safe_monitor_passes.
Qed.

(** Every pass ends in exactly one sleep. *)
Lemma environment_monitor_passes (passes : nat) :
  forall iteration w,
    environment (exec (monitor_passes cfg passes iteration) w)
    = drop passes (environment w).
Proof.
  induction passes as [| passes IH]; intros iteration w.
  - simpl. rewrite drop_0. symmetry.
    assert (H : preserves (unchanged environment)
                  (py_print LogStopping ;; modify (with_self (set_running false)))).
    { frame. }
    apply H.
  - simpl monitor_passes.
    set (pass := try_except (cycle cfg (iteration + 1) ;; sleep)
                   (fun e => py_print (LogLoopError e) ;; sleep)).
    destruct (bind_continue pass (fun _ => monitor_passes cfg passes (iteration + 1)) w)
      as [[] [_ Hbind]].
    { unfold pass. no_raise. }
    unfold exec at 1. rewrite Hbind.
    fold (exec (monitor_passes cfg passes (iteration + 1)) (exec pass w)).
    rewrite IH.
    assert (Hpass : environment (exec pass w) = tail (environment w)).
    { unfold pass, exec. rewrite try_except_safe.
      - destruct (bind_continue (cycle cfg (iteration + 1)) (fun _ => sleep) w
                    (safe_cycle (iteration + 1))) as [[] [_ Hcycle]].
        rewrite Hcycle. fold (exec sleep (exec (cycle cfg (iteration + 1)) w)).
        rewrite environment_sleep.
        rewrite <- (environment_cycle (iteration + 1) w). reflexivity.
      - apply safe_bind; [apply safe_cycle | intros _; apply safe_sleep]. }
    rewrite Hpass. destruct (environment w); simpl; rewrite ?drop_nil; reflexivity.
Qed.

End Startup.

Lemma get_db_connection_reachable (w : World) :
  reachable (db w) = true -> get_db_connection w = (Ok tt, w).
Proof. intros H. unfold get_db_connection, bind, get, ret. rewrite H. reflexivity. Qed.

Lemma bind_try_except_safe {A B : Type} (m : M A) (handler : exn -> M A) (k : A -> M B)
    (w : World) :
  safe m -> bind (try_except m handler) k w = bind m k w.
Proof. intros Hsafe. unfold bind. rewrite try_except_safe by exact Hsafe. reflexivity. Qed.

(** C5, as the code has it.  For every configuration, whatever the values
    of its thresholds (zero and negative ones included; the monitoring
    interval is a constant of the module and cannot be configured), once
    the database connection succeeds [run] does not fail: it is the
    monitoring loop between the "connected" and "closed" lines, and the loop
    performs every one of its passes. *)
Theorem run_starts_whatever_configuration :
  forall (numpy : Numpy) (cfg : Config) (passes : nat) (w : World),
    reachable (db w) = true ->
    outcome (run cfg passes) w = Ok tt
    /\ run cfg passes w
       = (py_print LogConnected ;; monitor_loop cfg passes ;; py_print LogClosed) w
    /\ environment (exec (run cfg passes) w) = drop passes (environment w).
Proof.
  intros numpy cfg passes w Hreach.
  set (loop := (py_print LogConnected ;; monitor_loop cfg passes ;; py_print LogClosed)).
  assert (Hsafe : safe loop).
  { unfold loop. apply safe_bind; [no_raise | intros _].
    apply safe_bind; [apply safe_monitor_loop | intros _; no_raise]. }
  assert (Hrun : run cfg passes w = loop w).
  { unfold run, try_except at 1, bind at 1.
    rewrite (get_db_connection_reachable w Hreach).
    assert (Hinner : (py_print LogConnected ;;
                      try_except (monitor_loop cfg passes) (fun e => py_print (LogFatal e)) ;;
                      py_print LogClosed) w = loop w).
    { unfold loop, bind at 1 3, py_print at 1 3, modify. 
      apply bind_try_except_safe, safe_monitor_loop. }
    rewrite Hinner. destruct (Hsafe w) as [[] Hok]. unfold outcome in Hok.
    destruct (loop w) as [[[] | e] w1]; simpl in *; [reflexivity | discriminate]. }
  split; [| split].
  - unfold outcome. rewrite Hrun. destruct (Hsafe w) as [[] Hok]. exact Hok.
  - exact Hrun.
  - unfold exec. rewrite Hrun. unfold loop, bind at 1, py_print at 1, modify.
    set (w1 := {| self := self w; db := db w; clock := clock w;
                  clock_reads := clock_reads w; environment := environment w;
                  stdout := stdout w ++ [LogConnected]; deliveries := deliveries w;
                  processed := processed w |}).
    destruct (bind_continue (monitor_loop cfg passes) (fun _ => py_print LogClosed) w1
                (safe_monitor_loop cfg passes)) as [[] [_ Hbind]].
    rewrite Hbind. simpl.
    change (environment (exec (monitor_loop cfg passes) w1) = drop passes (environment w1)).
    unfold monitor_loop.
    unfold exec, bind at 1, py_print at 1, modify. unfold bind at 1, modify.
    etransitivity; [apply (environment_monitor_passes cfg passes 0) | reflexivity].
Qed.

Lemma run_starts_whatever_configuration_witness :
  outcome (run BadConfiguration.cfg 1) BadConfiguration.w = Ok tt
  /\ length (environment (exec (run BadConfiguration.cfg 1) BadConfiguration.w)) = 1%nat.
Proof.
  destruct (run_starts_whatever_configuration reference_numpy BadConfiguration.cfg 1
              BadConfiguration.w eq_refl) as [Hok [_ Henv]].
  split; [exact Hok | rewrite Henv; reflexivity].
Defined.

(** C5 fails: with a zero client threshold and negative values for the
    other three, the engine starts, processes the new transactions, raises
    velocity alerts against the negative threshold, fails its exposure step
    on the division by the zero threshold, and goes on to the end of the
    run; nothing is rejected and no fatal error is printed. *)
Lemma non_positive_thresholds_accepted :
  PyFloat.gt (CLIENT_EXPOSURE_THRESHOLD BadConfiguration.cfg) 0 = false
  /\ PyFloat.gt (SYMBOL_EXPOSURE_THRESHOLD BadConfiguration.cfg) 0 = false
  /\ (0 <? TRANSACTION_VELOCITY_THRESHOLD BadConfiguration.cfg) = false
  /\ outcome (run BadConfiguration.cfg 1) BadConfiguration.w = Ok tt
  /\ processed (exec (run BadConfiguration.cfg 1) BadConfiguration.w) = [1; 2]
  /\ map (fun row => alert_type (alert_data row))
       (alerts (db (exec (run BadConfiguration.cfg 1) BadConfiguration.w)))
     = [HIGH_TRANSACTION_VELOCITY; HIGH_TRANSACTION_VELOCITY]
  /\ List.filter (fun line => match line with LogAlert _ | LogNoChannels | LogAlertBanner _ => false
                                            | _ => true end)
       (stdout (exec (run BadConfiguration.cfg 1) BadConfiguration.w))
     = [LogConnected; LogStarting; LogExposuresError ZeroDivisionError;
        LogStopping; LogClosed].
Proof. repeat split; reflexivity. Qed.

(* ===================================================================== *)
(** ** Further properties: the bounded deques *)
(* ===================================================================== *)

Lemma deque_append_newest {A : Type} (maxlen : nat) (l : list A) (x : A) :
  deque_append maxlen (newest maxlen l) x = newest maxlen (l ++ [x]).
Proof.
  unfold deque_append, newest.
  rewrite !length_app, length_drop. simpl.
  destruct (Nat.le_gt_cases (length l) maxlen) as [Hle | Hgt].
  - replace (length l - maxlen)%nat with O by lia.
    rewrite drop_0. f_equal. lia.
  - rewrite <- (drop_app_le l [x] (length l - maxlen)) by lia.
    rewrite drop_drop. f_equal. lia.
Qed.

Lemma newest_short {A : Type} (maxlen : nat) (l : list A) :
  (length l <= maxlen)%nat -> newest maxlen l = l.
Proof.
  intros Hle. unfold newest. replace (length l - maxlen)%nat with O by lia. apply drop_0.
Qed.

Lemma length_newest {A : Type} (maxlen : nat) (l : list A) :
  length (newest maxlen l) = Nat.min (length l) maxlen.
Proof. unfold newest. rewrite length_drop. lia. Qed.

Lemma deque_extend_newest {A : Type} (maxlen : nat) (pushed l : list A) :
  deque_extend maxlen (newest maxlen l) pushed = newest maxlen (l ++ pushed).
Proof.
  revert l. induction pushed as [| x pushed IH]; intros l.
  - rewrite app_nil_r. reflexivity.
  - unfold deque_extend in *. simpl. rewrite deque_append_newest, IH.
    rewrite <- app_assoc. reflexivity.
Qed.

(** X1.  A [deque(maxlen=n)] that holds at most [n] entries and receives any
    run of appends holds exactly the newest [n] entries of what it held
    followed by what was appended, in their order; in particular it never
    holds more than [n]. *)
Theorem deque_keeps_newest :
  forall (A : Type) (maxlen : nat) (d pushed : list A),
    (length d <= maxlen)%nat ->
    deque_extend maxlen d pushed = newest maxlen (d ++ pushed)
    /\ (length (deque_extend maxlen d pushed) <= maxlen)%nat.
Proof.
  intros A maxlen d pushed Hd.
  assert (H : deque_extend maxlen d pushed = newest maxlen (d ++ pushed)).
  { rewrite <- (newest_short maxlen d Hd) at 1. apply deque_extend_newest. }
  split; [exact H |]. rewrite H, length_newest. lia.
Qed.

Lemma deque_keeps_newest_witness :
  deque_extend 3 [1; 2] [3; 4; 5] = [3; 4; 5].
Proof.
  rewrite (proj1 (deque_keeps_newest Z 3 [1; 2] [3; 4; 5] ltac:(simpl; lia))).
  reflexivity.
Defined.

Lemma recent_count_le_length (transactions : list Z) (cutoff : Z) :
  (recent_count transactions cutoff <= length transactions)%nat.
Proof.
  induction transactions as [| t rest IH]; simpl.
  - lia.
  - destruct (cutoff <? t); lia.
Qed.

Lemma count_greater_app (cutoff : Z) (l1 l2 : list Z) :
  count_greater cutoff (l1 ++ l2) = (count_greater cutoff l1 + count_greater cutoff l2)%nat.
Proof. unfold count_greater. rewrite List.filter_app, length_app. reflexivity. Qed.

Lemma count_greater_newest (cutoff : Z) (n : nat) (l : list Z) :
  (count_greater cutoff (newest n l) <= count_greater cutoff l)%nat.
Proof.
  unfold newest.
  assert (H : count_greater cutoff l
              = (count_greater cutoff (take (length l - n) l)
                 + count_greater cutoff (drop (length l - n) l))%nat).
  { rewrite <- count_greater_app, take_drop. reflexivity. }
  lia.
Qed.

Lemma tracker_get_record_all_newest (key : string) (calls : list (string * Z)) :
  tracker_get (record_all calls ∅) key = newest TRACKER_MAXLEN (recorded_for key calls).
Proof.
  induction calls as [| call calls IH] using rev_ind.
  - reflexivity.
  - rewrite record_all_snoc, recorded_for_snoc.
    destruct (String.eqb_spec (fst call) key) as [Heq | Hne].
    + rewrite Heq, tracker_get_record_same, IH. apply deque_append_newest.
    + rewrite tracker_get_record_other by exact Hne.
      rewrite app_nil_r. exact IH.
Qed.

(** X2.  After any sequence of record calls on an empty tracker, the deque
    of a key holds the newest 100 timestamps recorded for that key, in the
    order of the calls, whatever was recorded for other keys; so it never
    holds more than 100, and the velocity count over it never exceeds the
    true number of recorded timestamps after the cutoff, nor 100. *)
Theorem tracker_keeps_newest :
  forall (calls : list (string * Z)) (key : string),
    tracker_get (record_all calls ∅) key = newest TRACKER_MAXLEN (recorded_for key calls)
    /\ (length (tracker_get (record_all calls ∅) key) <= TRACKER_MAXLEN)%nat
    /\ (forall cutoff,
          (recent_count (tracker_get (record_all calls ∅) key) cutoff
           <= count_greater cutoff (recorded_for key calls))%nat
          /\ (recent_count (tracker_get (record_all calls ∅) key) cutoff
              <= TRACKER_MAXLEN)%nat).
Proof.
  intros calls key.
  pose proof (tracker_get_record_all_newest key calls) as Hdeque.
  assert (Hlen : (length (tracker_get (record_all calls ∅) key) <= TRACKER_MAXLEN)%nat).
  { rewrite Hdeque, length_newest. lia. }
  split; [exact Hdeque |]. split; [exact Hlen |].
  intros cutoff. split.
  - rewrite Hdeque, recent_count_count_greater. apply count_greater_newest.
  - pose proof (recent_count_le_length (tracker_get (record_all calls ∅) key) cutoff). lia.
Qed.

(** X3.  With a velocity threshold of 100 or more, the velocity check over a
    tracker deque returns None after any sequence of record calls, at any
    time: the deque holds at most 100 timestamps, and the count must be
    strictly greater than the threshold. *)
Theorem velocity_alert_impossible_at_capacity :
  forall (cfg : Config) (entity_type : EntityType) (key : string)
         (calls : list (string * Z)) (w : World),
    Z.of_nat TRACKER_MAXLEN <= TRANSACTION_VELOCITY_THRESHOLD cfg ->
    outcome (check_transaction_velocity cfg entity_type key
               (tracker_get (record_all calls ∅) key)) w
    = Ok None.
Proof.
  intros cfg entity_type key calls w Hthreshold.
  set (deque := tracker_get (record_all calls ∅) key).
  assert (Hlen : (length deque <= TRACKER_MAXLEN)%nat).
  { unfold deque. rewrite tracker_get_record_all_newest, length_newest. lia. }
  destruct (Nat.lt_ge_cases (length deque) 2) as [Hshort | Hlong].
  - unfold check_transaction_velocity, outcome.
    destruct (Nat.ltb_spec (length deque) 2) as [_ | Hge]; [reflexivity | lia].
  - rewrite (check_transaction_velocity_counts cfg entity_type key deque w Hlong).
    cbv zeta.
    pose proof (recent_count_le_length deque (velocity_cutoff w)) as Hcount.
    destruct (Z.ltb_spec (TRANSACTION_VELOCITY_THRESHOLD cfg)
                (Z.of_nat (recent_count deque (velocity_cutoff w)))) as [Hlt | _];
      [lia | reflexivity].
Qed.

Lemma velocity_alert_impossible_at_capacity_witness :
  count_greater 0 (recorded_for "CLIENT_001" CapacityExample.calls) = 150%nat
  /\ outcome (check_transaction_velocity CapacityExample.cfg CLIENT "CLIENT_001"
                (tracker_get (record_all CapacityExample.calls ∅) "CLIENT_001"))
       Scenario.empty_world
     = Ok None.
Proof.
  split.
  - reflexivity.
  - apply (velocity_alert_impossible_at_capacity CapacityExample.cfg CLIENT "CLIENT_001"
             CapacityExample.calls Scenario.empty_world).
    unfold TRACKER_MAXLEN. simpl. lia.
Defined.

(* ===================================================================== *)
(** ** Further properties: the anomaly window of the engine *)
(* ===================================================================== *)

Lemma window_datetime_now : preserves (unchanged window) datetime_now.
Proof. intros w. reflexivity. Qed.

Lemma window_py_print (line : LogLine) : preserves (unchanged window) (py_print line).
Proof. intros w. reflexivity. Qed.

Lemma window_deliver (d : Delivery) : preserves (unchanged window) (deliver d).
Proof. intros w. reflexivity. Qed.

Lemma window_execute : preserves (unchanged window) execute.
Proof.
  intros w. unfold unchanged, exec, execute.
  destruct (faults (db w)) as [| [|] rest]; reflexivity.
Qed.

Lemma window_with_db (f : Database -> Database) :
  preserves (unchanged window) (modify (with_db f)).
Proof. intros w. reflexivity. Qed.

Lemma window_alerts_generated (f : RiskEngine -> Z) :
  preserves (unchanged window) (modify (with_self (fun e => set_alerts_generated (f e) e))).
Proof. intros w. reflexivity. Qed.

Lemma window_mark_processed (id : Z) :
  preserves (unchanged window) (modify (mark_processed id)).
Proof. intros w. reflexivity. Qed.

#[export] Hint Resolve window_datetime_now window_py_print window_deliver window_execute
  window_with_db window_alerts_generated window_mark_processed : frame.

Lemma window_create_alert (alert : AlertData) :
  preserves (unchanged window) (create_alert alert).
Proof. unfold create_alert, send_alert, send_slack_alert, send_email_alert. frame. Qed.

#[export] Hint Resolve window_create_alert : frame.

Section Window.

Context {numpy : Numpy}.
Variable cfg : Config.

Lemma window_run_checks (tx : Transaction) :
  preserves (unchanged window) (run_checks cfg tx).
Proof. unfold run_checks, detect_anomaly, check_transaction_velocity. frame. Qed.

(** One transaction with a value: its value is appended to the window, and
    nothing else happens to the window. *)
Lemma window_process_transaction (tx : Transaction) (value : float) (w : World) :
  total_value tx = Some value ->
  window (exec (process_transaction cfg tx) w)
  = deque_append ANOMALY_WINDOW (window w) value.
Proof.
  intros Hvalue. unfold exec, process_transaction, bind at 1.
  rewrite (update_tracking_value tx value w Hvalue).
  fold (exec (run_checks cfg tx) (tracked tx value w)).
  rewrite <- (window_run_checks tx (tracked tx value w)). reflexivity.
Qed.

Lemma for_each_window (batch : list Transaction) :
  Forall (fun tx => total_value tx <> None) batch ->
  forall w,
    outcome (for_each batch (process_transaction cfg)) w = Ok tt
    /\ window (exec (for_each batch (process_transaction cfg)) w)
       = deque_extend ANOMALY_WINDOW (window w) (values_of batch).
Proof.
  intros Hbatch. induction Hbatch as [| tx rest Htx Hrest IH]; intros w.
  - split; reflexivity.
  - destruct (total_value tx) as [value |] eqn:Hvalue; [| congruence].
    destruct (bind_continue (process_transaction cfg tx)
                (fun _ => for_each rest (process_transaction cfg)) w)
      as [[] [_ Hbind]].
    { intros w0. exists tt.
      exact (proj1 (process_transaction_value cfg tx value w0 Hvalue)). }
    destruct (IH (exec (process_transaction cfg tx) w)) as [Hok Hwindow].
    simpl for_each. unfold outcome, exec in *. rewrite Hbind.
    split; [exact Hok |]. rewrite Hwindow.
    pose proof (window_process_transaction tx value w Hvalue) as Hone.
    unfold exec in Hone. rewrite Hone.
    unfold values_of. simpl. rewrite Hvalue. reflexivity.
Qed.

(** With a successful SELECT and a batch in which every transaction has a
    value, [process_new_transactions] is the loop over the batch. *)
Lemma process_new_transactions_batch (w : World) :
  next_statement_fails w = false ->
  Forall (fun tx => total_value tx <> None) (select_new_transactions (db w) (cursor w)) ->
  exists w1,
    execute w = (Ok tt, w1)
    /\ process_new_transactions cfg w
       = for_each (select_new_transactions (db w) (cursor w)) (process_transaction cfg) w1.
Proof.
  intros Hnext Hbatch.
  destruct (execute_succeeds w Hnext) as [w1 [Hexec [Hself [Hproc [Henv Hselect]]]]].
  exists w1. split; [exact Hexec |].
  destruct (for_each_window _ Hbatch w1) as [Hok _].
  unfold process_new_transactions, try_except, bind at 1, get.
  unfold bind at 1. rewrite Hexec. unfold bind at 1, get.
  rewrite Hselect. fold (cursor w). unfold outcome in Hok.
  destruct (for_each (select_new_transactions (db w) (cursor w))
              (process_transaction cfg) w1) as [[[] | e] w2];
    simpl in *; [reflexivity | discriminate].
Qed.

End Window.

(** X4.  When the SELECT succeeds and every new transaction has a value,
    [process_new_transactions] leaves in the anomaly window what it held
    followed by the values of the new transactions in ascending id order,
    cut to the newest 100: alerts, failing INSERTs and the velocity checks
    do not touch the window. *)
Theorem window_after_batch :
  forall (numpy : Numpy) (cfg : Config) (w : World),
    next_statement_fails w = false ->
    Forall (fun tx => total_value tx <> None) (select_new_transactions (db w) (cursor w)) ->
    (length (window w) <= ANOMALY_WINDOW)%nat ->
    window (exec (process_new_transactions cfg) w)
    = newest ANOMALY_WINDOW
        (window w ++ values_of (select_new_transactions (db w) (cursor w)))
    /\ (length (window (exec (process_new_transactions cfg) w)) <= ANOMALY_WINDOW)%nat.
Proof.
  intros numpy cfg w Hnext Hbatch Hlen.
  destruct (process_new_transactions_batch cfg w Hnext Hbatch) as [w1 [Hexec Hrun]].
  destruct (execute_succeeds w Hnext) as [w1' [Hexec' [Hself _]]].
  rewrite Hexec in Hexec'. inversion Hexec'. subst w1'.
  destruct (for_each_window cfg _ Hbatch w1) as [_ Hwindow].
  assert (H : window (exec (process_new_transactions cfg) w)
              = deque_extend ANOMALY_WINDOW (window w)
                  (values_of (select_new_transactions (db w) (cursor w)))).
  { unfold exec in *. rewrite Hrun, Hwindow. unfold window. rewrite Hself. reflexivity. }
  assert (Hnewest : deque_extend ANOMALY_WINDOW (window w)
                      (values_of (select_new_transactions (db w) (cursor w)))
                    = newest ANOMALY_WINDOW
                        (window w ++ values_of (select_new_transactions (db w) (cursor w)))).
  { rewrite <- (newest_short ANOMALY_WINDOW (window w) Hlen) at 1.
    apply deque_extend_newest. }
  rewrite H, Hnewest. split; [reflexivity |].
  rewrite length_newest. lia.
Qed.

Lemma window_after_batch_witness :
  window (exec (process_new_transactions default_config) WindowExample.w)
  = [100%float; 300%float].
Proof.
  rewrite (proj1 (window_after_batch reference_numpy default_config WindowExample.w
                    eq_refl
                    ltac:(repeat constructor; discriminate)
                    ltac:(simpl; unfold ANOMALY_WINDOW; lia))).
  reflexivity.
Defined.

(* ===================================================================== *)
(** ** Further properties: what a batch processes *)
(* ===================================================================== *)

Lemma Permutation_insert_by_id (tx : Transaction) (l : list Transaction) :
  Permutation (insert_by_id tx l) (tx :: l).
Proof.
  induction l as [| y rest IH]; simpl.
  - reflexivity.
  - destruct (transaction_id tx <? transaction_id y).
    + reflexivity.
    + rewrite IH. apply perm_swap.
Qed.

Lemma Permutation_order_by (l : list Transaction) :
  Permutation (order_by_transaction_id l) l.
Proof.
  induction l as [| tx rest IH]; simpl.
  - reflexivity.
  - rewrite Permutation_insert_by_id, IH. reflexivity.
Qed.

(** The SELECT returns the rows above the cursor, all of them and only them. *)
Lemma In_select_new_transactions (d : Database) (last_id : Z) (tx : Transaction) :
  In tx (select_new_transactions d last_id)
  <-> In tx (transactions d) /\ last_id < transaction_id tx.
Proof.
  unfold select_new_transactions. split.
  - intros Hin.
    apply (Permutation_in _ (Permutation_order_by _)) in Hin.
    apply List.filter_In in Hin. destruct Hin as [Hin Hlt]. split; [exact Hin | lia].
  - intros [Hin Hlt].
    apply (Permutation_in _ (Permutation_sym (Permutation_order_by _))).
    apply List.filter_In. split; [exact Hin | lia].
Qed.

Lemma NoDup_map_filter {A B : Type} (f : A -> B) (p : A -> bool) (l : list A) :
  NoDup (map f l) -> NoDup (map f (List.filter p l)).
Proof.
  induction l as [| x rest IH]; simpl; intros Hnodup.
  - constructor.
  - apply NoDup_cons in Hnodup. destruct Hnodup as [Hx Hrest].
    destruct (p x); simpl; [| apply IH, Hrest].
    apply NoDup_cons. split; [| apply IH, Hrest].
    intros Hin. apply Hx.
    apply list_elem_of_In in Hin. apply list_elem_of_In.
    apply List.in_map_iff in Hin. destruct Hin as [y [Hy Hin]].
    apply List.filter_In in Hin. destruct Hin as [Hin _].
    apply List.in_map_iff. exists y. split; assumption.
Qed.

Lemma NoDup_select_new_transactions (d : Database) (last_id : Z) :
  NoDup (transaction_ids d) ->
  NoDup (map transaction_id (select_new_transactions d last_id)).
Proof.
  unfold transaction_ids, select_new_transactions. intros Hnodup.
  rewrite (Permutation_map transaction_id (Permutation_order_by _)).
  apply NoDup_map_filter, Hnodup.
Qed.

Lemma ascending_app_l (l1 l2 : list Transaction) :
  ascending (l1 ++ l2) -> ascending l1.
Proof.
  unfold ascending. induction l1 as [| tx l1 IH]; simpl; intros Hsorted.
  - constructor.
  - inversion Hsorted as [| tx' l' Hrest Htx]. subst tx' l'.
    constructor; [apply IH, Hrest |].
    apply Forall_app in Htx. exact (proj1 Htx).
Qed.

Lemma cursor_after_snoc (start : Z) (done : list Transaction) (tx : Transaction) :
  cursor_after start (done ++ [tx]) = transaction_id tx.
Proof. unfold cursor_after. rewrite fold_left_app. reflexivity. Qed.

(** On a batch in ascending order, the cursor ends at or above every id of
    the batch, and does not go below where it started. *)
Lemma cursor_after_bounds (batch : list Transaction) :
  ascending batch ->
  forall start,
    Forall (fun tx => start <= transaction_id tx) batch ->
    start <= cursor_after start batch
    /\ Forall (fun tx => transaction_id tx <= cursor_after start batch) batch.
Proof.
  unfold ascending. intros Hsorted.
  induction Hsorted as [| tx rest Hrest IH Htx]; intros start Hstart.
  - simpl. split; [lia | constructor].
  - inversion Hstart as [| tx' rest' Hle Hrest']. subst tx' rest'.
    unfold cursor_after in *. simpl.
    destruct (IH (transaction_id tx) Htx) as [Hge Hall].
    split; [lia |]. constructor; [lia | exact Hall].
Qed.

Lemma progress_try_except {A : Type} (m : M A) (handler : exn -> M A) (w : World) :
  (forall e w0, progress (exec (handler e) w0) = progress w0) ->
  progress (exec (try_except m handler) w) = progress (exec m w).
Proof.
  intros Hhandler. unfold exec, try_except.
  destruct (m w) as [[a | e] w1]; simpl; [reflexivity |].
  apply Hhandler.
Qed.

Section Batch.

Context {numpy : Numpy}.
Variable cfg : Config.

(** The loop goes through a first part of the batch and leaves the rest. *)
Lemma for_each_prefix (batch : list Transaction) :
  forall w,
    exists done rest,
      batch = done ++ rest
      /\ processed (exec (for_each batch (process_transaction cfg)) w)
         = processed w ++ map transaction_id done
      /\ cursor (exec (for_each batch (process_transaction cfg)) w)
         = cursor_after (cursor w) done.
Proof.
  induction batch as [| tx batch IH]; intros w.
  - exists [], []. simpl. rewrite app_nil_r. repeat split; reflexivity.
  - simpl for_each. destruct (total_value tx) as [value |] eqn:Hvalue.
    + destruct (process_transaction_value cfg tx value w Hvalue)
        as [Hok [Hcur [Hproc _]]].
      destruct (bind_continue (process_transaction cfg tx)
                  (fun _ => for_each batch (process_transaction cfg)) w)
        as [[] [_ Hbind]].
      { intros w0. exists tt.
        exact (proj1 (process_transaction_value cfg tx value w0 Hvalue)). }
      destruct (IH (exec (process_transaction cfg tx) w))
        as [done [rest [Hsplit [Hp Hc]]]].
      exists (tx :: done), rest. unfold exec at 1 2. rewrite Hbind.
      fold (exec (for_each batch (process_transaction cfg))
              (exec (process_transaction cfg tx) w)).
      split; [simpl; rewrite Hsplit; reflexivity |]. split.
      * rewrite Hp, Hproc. simpl. rewrite <- app_assoc. reflexivity.
      * rewrite Hc, Hcur. reflexivity.
    + destruct (process_transaction_null cfg tx w Hvalue) as [Hout Hkept].
      destruct (bind_raise (process_transaction cfg tx)
                  (fun _ => for_each batch (process_transaction cfg)) w TypeError Hout)
        as [_ Hexec].
      exists [], (tx :: batch). rewrite Hexec.
      unfold kept in Hkept. injection Hkept as Hc Hp _.
      simpl. rewrite app_nil_r. repeat split; [exact Hp | exact Hc].
Qed.

Lemma process_new_transactions_prefix (w : World) :
  exists done rest,
    select_new_transactions (db w) (cursor w) = done ++ rest
    /\ processed (exec (process_new_transactions cfg) w)
       = processed w ++ map transaction_id done
    /\ cursor (exec (process_new_transactions cfg) w) = cursor_after (cursor w) done.
Proof.
  set (body := (let* w0 := get in
                let last_id := last_transaction_id (self w0) in
                execute ;;
                let* w1 := get in
                let transactions := select_new_transactions (db w1) last_id in
                for_each transactions (process_transaction cfg))).
  assert (Hprogress : progress (exec (process_new_transactions cfg) w)
                      = progress (exec body w)).
  { apply (progress_try_except body (fun e => py_print (LogTransactionsError e)) w).
    intros e w0. reflexivity. }
  assert (Hbody : exists done rest,
            select_new_transactions (db w) (cursor w) = done ++ rest
            /\ progress (exec body w)
               = (cursor_after (cursor w) done, processed w ++ map transaction_id done)).
  { unfold body, exec, bind at 1, get. unfold bind at 1.
    pose proof (kept_execute w) as Hkept. unfold exec in Hkept.
    destruct (execute w) as [[[] | e] w1] eqn:Hexec; simpl in Hkept;
      unfold unchanged, kept in Hkept; injection Hkept as Hc1 Hp1 _.
    - assert (Hselect : select_new_transactions (db w1) (last_transaction_id (self w))
                        = select_new_transactions (db w) (cursor w)).
      { unfold execute in Hexec.
        destruct (faults (db w)) as [| [|] rest]; inversion Hexec; reflexivity. }
      unfold bind at 1, get. cbv zeta. rewrite Hselect.
      destruct (for_each_prefix (select_new_transactions (db w) (cursor w)) w1)
        as [done [rest [Hsplit [Hp Hc]]]].
      exists done, rest. split; [exact Hsplit |].
      unfold exec in Hp, Hc. unfold progress. rewrite Hp, Hc, Hp1, Hc1. reflexivity.
    - exists [], (select_new_transactions (db w) (cursor w)).
      simpl. rewrite app_nil_r. unfold progress. rewrite Hp1, Hc1.
      split; reflexivity. }
  destruct Hbody as [done [rest [Hsplit Hbody]]].
  exists done, rest. split; [exact Hsplit |].
  rewrite Hbody in Hprogress. unfold progress in Hprogress.
  injection Hprogress as Hc Hp. split; assumption.
Qed.

End Batch.

(** X5.  Whatever happens in it (a failing SELECT, a transaction that
    raises, failing INSERTs), [process_new_transactions] processes a first
    part of the rows the SELECT returns and nothing else: every id it adds
    to the history is the id of a row of the table, is strictly above the
    cursor it started from, and the ids are added in ascending order. *)
Theorem only_new_transactions_processed :
  forall (numpy : Numpy) (cfg : Config) (w : World),
    exists done rest,
      select_new_transactions (db w) (cursor w) = done ++ rest
      /\ processed (exec (process_new_transactions cfg) w)
         = processed w ++ map transaction_id done
      /\ Forall (fun tx => In tx (transactions (db w)) /\ cursor w < transaction_id tx) done
      /\ ascending done.
Proof.
  intros numpy cfg w.
  destruct (process_new_transactions_prefix cfg w) as [done [rest [Hsplit [Hp _]]]].
  exists done, rest. split; [exact Hsplit |]. split; [exact Hp |]. split.
  - apply List.Forall_forall. intros tx Hin.
    apply In_select_new_transactions. rewrite Hsplit. apply List.in_or_app. left. exact Hin.
  - pose proof (select_new_transactions_ascending (db w) (cursor w)) as Hsorted.
    rewrite Hsplit in Hsorted. exact (ascending_app_l done rest Hsorted).
Qed.

Lemma NoDup_processed_extend (history : list Z) (done : list Transaction) (start : Z) :
  NoDup history ->
  Forall (fun i => i <= start) history ->
  NoDup (map transaction_id done) ->
  Forall (fun tx => start < transaction_id tx) done ->
  NoDup (history ++ map transaction_id done).
Proof.
  intros Hhistory Hbound Hdone Habove.
  apply NoDup_app. split; [exact Hhistory |]. split; [| exact Hdone].
  intros i Hin Hin'.
  apply list_elem_of_In in Hin. apply list_elem_of_In in Hin'.
  apply List.in_map_iff in Hin'. destruct Hin' as [tx [Hid Htx]].
  pose proof (proj1 (List.Forall_forall _ _) Hbound i Hin) as Hle.
  pose proof (proj1 (List.Forall_forall _ _) Habove tx Htx) as Hlt.
  simpl in Hle, Hlt. lia.
Qed.

(** X6.  When the SELECT succeeds and every new transaction has a value,
    [process_new_transactions] returns having processed every row of the
    table above the cursor, in ascending id order, and the cursor has caught
    up with the table: no row is left with an id above it. *)
Theorem batch_fully_processed :
  forall (numpy : Numpy) (cfg : Config) (w : World),
    next_statement_fails w = false ->
    Forall (fun tx => total_value tx <> None) (select_new_transactions (db w) (cursor w)) ->
    outcome (process_new_transactions cfg) w = Ok tt
    /\ processed (exec (process_new_transactions cfg) w)
       = processed w ++ map transaction_id (select_new_transactions (db w) (cursor w))
    /\ Forall (fun tx => transaction_id tx <= cursor (exec (process_new_transactions cfg) w))
         (transactions (db w)).
Proof.
  intros numpy cfg w Hnext Hbatch.
  set (batch := select_new_transactions (db w) (cursor w)) in *.
  destruct (process_new_transactions_batch cfg w Hnext Hbatch) as [w1 [Hexec Hrun]].
  destruct (execute_succeeds w Hnext) as [w1' [Hexec' [Hself [Hproc _]]]].
  rewrite Hexec in Hexec'. inversion Hexec'. subst w1'.
  destruct (for_each_values cfg batch [] w1 Hbatch) as [w2 [Hloop [Hc2 [Hp2 _]]]].
  rewrite app_nil_r in Hloop. fold batch in Hrun. rewrite Hloop in Hrun. simpl in Hrun.
  assert (Hcursor : cursor (exec (process_new_transactions cfg) w)
                    = cursor_after (cursor w) batch).
  { unfold exec. rewrite Hrun. simpl. rewrite Hc2. unfold cursor. rewrite Hself. reflexivity. }
  split; [unfold outcome; rewrite Hrun; reflexivity |]. split.
  - unfold exec. rewrite Hrun. simpl. rewrite Hp2, Hproc. reflexivity.
  - rewrite Hcursor.
    destruct (cursor_after_bounds batch (select_new_transactions_ascending (db w) (cursor w))
                (cursor w)) as [Hge Hall].
    { eapply List.Forall_impl; [| apply select_new_transactions_above].
      simpl. intros tx Htx. lia. }
    apply List.Forall_forall. intros tx Hin.
    destruct (Z.le_gt_cases (transaction_id tx) (cursor w)) as [Hold | Hnew]; [lia |].
    apply (proj1 (List.Forall_forall _ _) Hall tx).
    apply In_select_new_transactions. split; [exact Hin | lia].
Qed.

Lemma batch_fully_processed_witness :
  processed (exec (process_new_transactions default_config) OrderExample.resumed)
  = [2; 3; 4; 5].
Proof.
  rewrite (proj1 (proj2 (batch_fully_processed reference_numpy default_config
                           OrderExample.resumed eq_refl
                           ltac:(repeat constructor; discriminate)))).
  reflexivity.
Defined.

(** X7.  When the ids of the table are unique, [process_new_transactions]
    keeps the history free of repetitions and bounded by the cursor: no
    transaction is processed twice, in this call or with respect to any
    earlier one. *)
Theorem no_transaction_processed_twice :
  forall (numpy : Numpy) (cfg : Config) (w : World),
    NoDup (transaction_ids (db w)) ->
    NoDup (processed w) ->
    Forall (fun i => i <= cursor w) (processed w) ->
    NoDup (processed (exec (process_new_transactions cfg) w))
    /\ Forall (fun i => i <= cursor (exec (process_new_transactions cfg) w))
         (processed (exec (process_new_transactions cfg) w)).
Proof.
  intros numpy cfg w Hunique Hhistory Hbound.
  destruct (process_new_transactions_prefix cfg w) as [done [rest [Hsplit [Hp Hc]]]].
  pose proof (select_new_transactions_above (db w) (cursor w)) as Habove.
  pose proof (select_new_transactions_ascending (db w) (cursor w)) as Hsorted.
  pose proof (NoDup_select_new_transactions (db w) (cursor w) Hunique) as Hnodup.
  rewrite Hsplit in Habove, Hsorted, Hnodup.
  apply Forall_app in Habove. destruct Habove as [Habove _].
  apply ascending_app_l in Hsorted.
  rewrite map_app in Hnodup. apply NoDup_app in Hnodup. destruct Hnodup as [Hnodup _].
  destruct (cursor_after_bounds done Hsorted (cursor w)) as [Hge Hall].
  { eapply List.Forall_impl; [| exact Habove]. simpl. intros tx Htx. lia. }
  rewrite Hp, Hc. split.
  - apply (NoDup_processed_extend (processed w) done (cursor w)); assumption.
  - apply Forall_app. split.
    + eapply List.Forall_impl; [| exact Hbound]. simpl. intros i Hi. lia.
    + apply Forall_fmap. exact Hall.
Qed.

Lemma no_transaction_processed_twice_witness :
  NoDup (processed (exec (process_new_transactions default_config) OrderExample.resumed)).
Proof.
  assert (Hunique : NoDup (transaction_ids (db OrderExample.resumed))).
  { apply (bool_decide_unpack _). vm_compute. exact I. }
  assert (Hhistory : NoDup (processed OrderExample.resumed)).
  { apply (bool_decide_unpack _). vm_compute. exact I. }
  assert (Hbound : Forall (fun i => i <= cursor OrderExample.resumed)
                     (processed OrderExample.resumed)).
  { constructor; [vm_compute; discriminate | constructor]. }
  exact (proj1 (no_transaction_processed_twice reference_numpy default_config
                  OrderExample.resumed Hunique Hhistory Hbound)).
Defined.

(* ===================================================================== *)
(** ** Further properties: what the engine writes *)
(* ===================================================================== *)

#[export] Instance accounted_refl : Reflexive accounted.
Proof.
  intros w. exists []. simpl. rewrite !app_nil_r. repeat split. lia.
Qed.

#[export] Instance accounted_trans : Transitive accounted.
Proof.
  intros w1 w2 w3 [rows1 [Ha1 [Hd1 Hc1]]] [rows2 [Ha2 [Hd2 Hc2]]].
  exists (rows1 ++ rows2).
  rewrite Ha2, Ha1, Hd2, Hd1, Hc2, Hc1, map_app, length_app, !app_assoc.
  repeat split. lia.
Qed.

Lemma exposure_data_set_risk_level (key : string) (level : RiskLevel)
    (rows : list ExposureRow) :
  exposure_data (set_risk_level key level rows) = exposure_data rows.
Proof.
  unfold exposure_data, set_risk_level. rewrite map_map. apply map_ext.
  intros row. destruct (String.eqb (exposure_key row) key); reflexivity.
Qed.

(** *** The inputs are left alone *)

Lemma inputs_datetime_now : preserves (unchanged inputs) datetime_now.
Proof. intros w. reflexivity. Qed.

Lemma inputs_py_print (line : LogLine) : preserves (unchanged inputs) (py_print line).
Proof. intros w. reflexivity. Qed.

Lemma inputs_deliver (d : Delivery) : preserves (unchanged inputs) (deliver d).
Proof. intros w. reflexivity. Qed.

Lemma inputs_execute : preserves (unchanged inputs) execute.
Proof.
  intros w. unfold unchanged, exec, execute.
  destruct (faults (db w)) as [| [|] rest]; reflexivity.
Qed.

Lemma inputs_with_self (f : RiskEngine -> RiskEngine) :
  preserves (unchanged inputs) (modify (with_self f)).
Proof. intros w. reflexivity. Qed.

Lemma inputs_mark_processed (id : Z) :
  preserves (unchanged inputs) (modify (mark_processed id)).
Proof. intros w. reflexivity. Qed.

Lemma inputs_insert_alert_row (now : Z) (alert : AlertData) :
  preserves (unchanged inputs) (modify (with_db (insert_alert_row now alert))).
Proof. intros w. reflexivity. Qed.

Lemma inputs_insert_metrics_row (row : MetricsRow) :
  preserves (unchanged inputs) (modify (with_db (insert_metrics_row row))).
Proof. intros w. reflexivity. Qed.

Lemma inputs_update_client_rows (key : string) (level : RiskLevel) :
  preserves (unchanged inputs)
    (modify (with_db (update_client_rows (set_risk_level key level)))).
Proof.
  intros w. unfold unchanged, inputs, exec, modify. simpl.
  rewrite exposure_data_set_risk_level. reflexivity.
Qed.

Lemma inputs_update_symbol_rows (key : string) (level : RiskLevel) :
  preserves (unchanged inputs)
    (modify (with_db (update_symbol_rows (set_risk_level key level)))).
Proof.
  intros w. unfold unchanged, inputs, exec, modify. simpl.
  rewrite exposure_data_set_risk_level. reflexivity.
Qed.

#[export] Hint Resolve inputs_datetime_now inputs_py_print inputs_deliver inputs_execute
  inputs_with_self inputs_mark_processed inputs_insert_alert_row
  inputs_insert_metrics_row inputs_update_client_rows inputs_update_symbol_rows : frame.

(** *** Alert rows, notifications and the counter move together *)

Lemma accounted_same (w w' : World) :
  alerts (db w') = alerts (db w) ->
  dispatched w' = dispatched w ->
  alerts_generated (self w') = alerts_generated (self w) ->
  accounted w w'.
Proof.
  intros Ha Hd Hc. exists []. simpl. rewrite Ha, Hd, Hc, !app_nil_r.
  repeat split. lia.
Qed.

Lemma accounted_datetime_now : preserves accounted datetime_now.
Proof. intros w. apply accounted_same; reflexivity. Qed.

Lemma accounted_py_print (line : LogLine) :
  is_alert_line line = false -> preserves accounted (py_print line).
Proof.
  intros Hline w. apply accounted_same; try reflexivity.
  unfold dispatched, exec, py_print, modify. simpl. rewrite omap_app. simpl.
  destruct line; try discriminate Hline; simpl; apply app_nil_r.
Qed.

Lemma accounted_deliver (d : Delivery) : preserves accounted (deliver d).
Proof. intros w. apply accounted_same; reflexivity. Qed.

Lemma accounted_execute : preserves accounted execute.
Proof.
  intros w. unfold exec, execute.
  destruct (faults (db w)) as [| [|] rest]; apply accounted_same; reflexivity.
Qed.

Lemma accounted_running (b : bool) :
  preserves accounted (modify (with_self (set_running b))).
Proof. intros w. apply accounted_same; reflexivity. Qed.

Lemma accounted_client_transactions (f : RiskEngine -> gmap string (list Z)) :
  preserves accounted (modify (with_self (fun e => set_client_transactions (f e) e))).
Proof. intros w. apply accounted_same; reflexivity. Qed.

Lemma accounted_symbol_transactions (f : RiskEngine -> gmap string (list Z)) :
  preserves accounted (modify (with_self (fun e => set_symbol_transactions (f e) e))).
Proof. intros w. apply accounted_same; reflexivity. Qed.

Lemma accounted_transaction_values (f : RiskEngine -> list float) :
  preserves accounted (modify (with_self (fun e => set_transaction_values (f e) e))).
Proof. intros w. apply accounted_same; reflexivity. Qed.

Lemma accounted_mark_processed (id : Z) :
  preserves accounted (modify (mark_processed id)).
Proof. intros w. apply accounted_same; reflexivity. Qed.

Lemma accounted_insert_metrics_row (row : MetricsRow) :
  preserves accounted (modify (with_db (insert_metrics_row row))).
Proof. intros w. apply accounted_same; reflexivity. Qed.

Lemma accounted_update_client_rows (f : list ExposureRow -> list ExposureRow) :
  preserves accounted (modify (with_db (update_client_rows f))).
Proof. intros w. apply accounted_same; reflexivity. Qed.

Lemma accounted_update_symbol_rows (f : list ExposureRow -> list ExposureRow) :
  preserves accounted (modify (with_db (update_symbol_rows f))).
Proof. intros w. apply accounted_same; reflexivity. Qed.

(** [create_alert] as a whole: one row, one notification and one count when
    the INSERT succeeds, none of them when it fails. *)
Lemma accounted_create_alert (alert : AlertData) :
  preserves accounted (create_alert alert).
Proof.
  intros w.
  destruct w as [[[slack email] on ct st tv cur ag tp] d c cr env out del pr].
  destruct d as [up schedule txs clients symbols rows seq metrics].
  unfold accounted, dispatched, exec, create_alert, send_alert,
    send_slack_alert, send_email_alert, try_except, bind, datetime_now, execute, get,
    py_print, deliver, modify, ret.
  destruct schedule as [| [|] rest]; destruct slack, email; simpl;
    rewrite ?omap_app; simpl; rewrite ?app_nil_r;
    first [ exists []; simpl; rewrite ?app_nil_r; repeat split; lia
          | eexists [_]; simpl; repeat split; lia ].
Qed.

#[export] Hint Resolve accounted_datetime_now accounted_deliver accounted_execute
  accounted_running accounted_client_transactions accounted_symbol_transactions
  accounted_transaction_values accounted_mark_processed accounted_insert_metrics_row
  accounted_update_client_rows accounted_update_symbol_rows accounted_create_alert : frame.
#[export] Hint Extern 2 (preserves accounted (py_print _)) =>
  apply accounted_py_print; reflexivity : frame.

Section Bookkeeping.

Context {numpy : Numpy}.
Variable cfg : Config.

Lemma inputs_cycle (iteration : Z) : preserves (unchanged inputs) (cycle cfg iteration).
Proof.
  unfold cycle, process_new_transactions, process_transaction, update_tracking, run_checks,
    check_exposures, update_risk_metrics, check_client_exposure, check_symbol_exposure,
    update_client_risk_level, update_symbol_risk_level, detect_anomaly,
    check_transaction_velocity, create_alert, send_alert, send_slack_alert,
    send_email_alert.
  frame.
Qed.

Lemma accounted_cycle (iteration : Z) : preserves accounted (cycle cfg iteration).
Proof.
  unfold cycle, process_new_transactions, process_transaction, update_tracking, run_checks,
    check_exposures, update_risk_metrics, check_client_exposure, check_symbol_exposure,
    update_client_risk_level, update_symbol_risk_level, detect_anomaly,
    check_transaction_velocity.
  frame.
Qed.

End Bookkeeping.

(** X8.  One cycle of the engine (new transactions, exposure checks, and
    the metrics snapshot when it is due) never changes a row of
    [transactions], and never changes the key or the total of an exposure
    row, nor adds or removes one: of the exposure tables it only writes the
    [risk_level] field. *)
Theorem cycle_leaves_inputs :
  forall (numpy : Numpy) (cfg : Config) (iteration : Z) (w : World),
    transactions (db (exec (cycle cfg iteration) w)) = transactions (db w)
    /\ exposure_data (client_exposures (db (exec (cycle cfg iteration) w)))
       = exposure_data (client_exposures (db w))
    /\ exposure_data (symbol_exposures (db (exec (cycle cfg iteration) w)))
       = exposure_data (symbol_exposures (db w)).
Proof.
  intros numpy cfg iteration w.
  pose proof (inputs_cycle cfg iteration w) as H.
  unfold unchanged, inputs in H. injection H as Ht Hc Hs.
  repeat split; congruence.
Qed.

(** X9.  Over one cycle of the engine the alert table only grows, and the
    rows added, the notifications sent by [send_alert] and the increments of
    [alerts_generated] correspond one to one, in order: an alert that could
    not be stored is neither announced nor counted, and nothing is announced
    or counted that was not stored. *)
Theorem cycle_accounts_for_alerts :
  forall (numpy : Numpy) (cfg : Config) (iteration : Z) (w : World),
    exists rows,
      alerts (db (exec (cycle cfg iteration) w)) = alerts (db w) ++ rows
      /\ dispatched (exec (cycle cfg iteration) w) = dispatched w ++ map alert_data rows
      /\ alerts_generated (self (exec (cycle cfg iteration) w))
         = alerts_generated (self w) + Z.of_nat (length rows).
Proof.
  intros numpy cfg iteration w. exact (accounted_cycle cfg iteration w).
Qed.

Lemma set_risk_level_written (key : string) (level : RiskLevel) (rows : list ExposureRow) :
  Forall2 (risk_level_written key level) rows (set_risk_level key level rows).
Proof.
  induction rows as [| row rows IH]; simpl; constructor; [| exact IH].
  unfold risk_level_written.
  destruct (String.eqb (exposure_key row) key); repeat split; reflexivity.
Qed.

(** X10.  An exposure that is not above the (non-zero) client threshold
    makes [check_client_exposure] return None and write the tier of
    [calculate_risk_level] to the rows of that client, and to no other row:
    keys and totals stay, and so does the alert table.  When the UPDATE
    fails nothing is written, and None is returned all the same. *)
Theorem client_tier_written_back :
  forall (cfg : Config) (client_id : string) (exposure : float) (level : RiskLevel)
         (w : World),
    calculate_risk_level exposure (CLIENT_EXPOSURE_THRESHOLD cfg) = Ok level ->
    PyFloat.gt exposure (CLIENT_EXPOSURE_THRESHOLD cfg) = false ->
    let w' := exec (check_client_exposure cfg client_id exposure) w in
    outcome (check_client_exposure cfg client_id exposure) w = Ok None
    /\ alerts (db w') = alerts (db w)
    /\ symbol_exposures (db w') = symbol_exposures (db w)
    /\ (next_statement_fails w = false ->
        Forall2 (risk_level_written client_id level)
          (client_exposures (db w)) (client_exposures (db w')))
    /\ (next_statement_fails w = true ->
        client_exposures (db w') = client_exposures (db w)).
Proof.
  intros cfg client_id exposure level w Hlevel Hgt w'.
  unfold w', exec, outcome, check_client_exposure, bind at 1 3 5 7 9, lift.
  rewrite Hlevel, Hgt.
  unfold update_client_risk_level, next_statement_fails, try_except, bind, execute,
    modify, py_print, ret.
  destruct (faults (db w)) as [| [|] rest]; simpl;
    repeat split; try reflexivity; intros H; try discriminate H;
    apply set_risk_level_written.
Qed.

Lemma client_tier_written_back_witness :
  outcome (check_client_exposure default_config "CLIENT_002" 800000%float) BusyExample.w
    = Ok None
  /\ map risk_level (client_exposures (db
       (exec (check_client_exposure default_config "CLIENT_002" 800000%float)
          BusyExample.w)))
     = [LOW; HIGH; LOW].
Proof.
  pose proof (client_tier_written_back default_config "CLIENT_002" 800000%float HIGH
                BusyExample.w eq_refl eq_refl) as H.
  cbv zeta in H. destruct H as [Hnone _].
  split; [exact Hnone | reflexivity].
Defined.

(** X11.  With a positive symbol threshold and an exposure strictly above
    it, [check_symbol_exposure] returns a HIGH_SYMBOL_EXPOSURE alert for the
    symbol, of severity CRITICAL above 1.5 times the threshold and HIGH up
    to it, and leaves the world as it was: the stored [risk_level] of a
    symbol that triggers is not refreshed. *)
Theorem symbol_exposure_above_threshold_alert :
  forall (cfg : Config) (symbol : string) (exposure : float) (w : World),
    PyFloat.gt (SYMBOL_EXPOSURE_THRESHOLD cfg) 0 = true ->
    PyFloat.gt exposure (SYMBOL_EXPOSURE_THRESHOLD cfg) = true ->
    check_symbol_exposure cfg symbol exposure w
      = (Ok (Some (symbol_exposure_alert cfg symbol exposure)), w)
    /\ (PyFloat.gt exposure (SYMBOL_EXPOSURE_THRESHOLD cfg * 1.5) = false ->
        severity (symbol_exposure_alert cfg symbol exposure) = HIGH)
    /\ (PyFloat.gt exposure (SYMBOL_EXPOSURE_THRESHOLD cfg * 1.5) = true ->
        severity (symbol_exposure_alert cfg symbol exposure) = CRITICAL).
Proof.
  intros cfg symbol exposure w Hpos Hgt.
  split; [| split].
  - unfold check_symbol_exposure, bind, lift, ret.
    destruct (calculate_risk_level_nonzero exposure _ (PyFloatFacts.pos_nonzero _ Hpos))
      as [level Hlevel].
    rewrite Hlevel, Hgt. reflexivity.
  - intros Hle. simpl. unfold exposure_severity. rewrite Hle. reflexivity.
  - intros Hex. simpl. unfold exposure_severity. rewrite Hex. reflexivity.
Qed.

Lemma symbol_exposure_above_threshold_alert_witness :
  check_symbol_exposure default_config "AAPL" 850000%float Scenario.empty_world
    = (Ok (Some {| alert_type := HIGH_SYMBOL_EXPOSURE;
                   severity := CRITICAL;
                   entity_type := SYMBOL;
                   entity_id := "AAPL";
                   threshold_value := 500000%float;
                   current_value := 850000%float |}),
       Scenario.empty_world).
Proof.
  apply (proj1 (symbol_exposure_above_threshold_alert default_config "AAPL"
                  850000%float Scenario.empty_world eq_refl eq_refl)).
Defined.

(** X12.  With a client threshold of zero (0.0 or -0.0) and at least one
    client row, the exposure step of a cycle stops at the first client row,
    on the division by the threshold or on a NULL total: it prints one
    error line and creates no alert and writes no tier, for no client and
    for no symbol. *)
Theorem zero_client_threshold_stops_exposure_step :
  forall (cfg : Config) (w : World) (row : ExposureRow) (rest : list ExposureRow),
    PyFloat.eq (CLIENT_EXPOSURE_THRESHOLD cfg) 0 = true ->
    next_statement_fails w = false ->
    client_exposures (db w) = row :: rest ->
    let w' := exec (check_exposures cfg) w in
    (exists e, stdout w' = stdout w ++ [LogExposuresError e])
    /\ alerts (db w') = alerts (db w)
    /\ client_exposures (db w') = client_exposures (db w)
    /\ symbol_exposures (db w') = symbol_exposures (db w)
    /\ self w' = self w.
Proof.
  intros cfg w row rest Hzero Hnext Hrows w'.
  assert (Hrun : exists e w1,
            check_exposures cfg w = py_print (LogExposuresError e) w1
            /\ stdout w1 = stdout w /\ self w1 = self w
            /\ alerts (db w1) = alerts (db w)
            /\ client_exposures (db w1) = client_exposures (db w)
            /\ symbol_exposures (db w1) = symbol_exposures (db w)).
  { clear w'. unfold next_statement_fails in Hnext.
    destruct w as [engine d c reads env out del pr].
    destruct d as [up schedule txs clients symbols stored seq metrics].
    simpl in Hnext, Hrows. subst clients.
    unfold check_exposures, try_except, bind at 1, execute. simpl.
    destruct schedule as [| [|] schedule]; [| discriminate |];
      unfold bind at 1, get; simpl; unfold bind at 1 2 3, lift;
      (destruct (total_exposure row) as [value |]; simpl;
       [ unfold check_client_exposure, bind at 1, lift;
         rewrite (calculate_risk_level_zero value _ Hzero);
         eexists ZeroDivisionError, _; repeat split; reflexivity
       | eexists TypeError, _; repeat split; reflexivity ]). }
  destruct Hrun as [e [w1 [Hrun [Hout [Hself [Ha [Hc Hs]]]]]]].
  unfold w', exec. rewrite Hrun. simpl.
  split; [exists e; rewrite Hout; reflexivity |].
  repeat split; assumption.
Qed.

Lemma zero_client_threshold_stops_exposure_step_witness :
  PyFloat.gt 9000000%float (SYMBOL_EXPOSURE_THRESHOLD ZeroThreshold.cfg) = true
  /\ alerts (db (exec (check_exposures ZeroThreshold.cfg) ZeroThreshold.w)) = [].
Proof.
  split; [reflexivity |].
  pose proof (zero_client_threshold_stops_exposure_step ZeroThreshold.cfg
                ZeroThreshold.w (Scenario.exposure "CLIENT_001" 1000%float) []
                eq_refl eq_refl eq_refl) as H.
  cbv zeta in H. destruct H as [_ [Halerts _]]. exact Halerts.
Defined.

(* ===================================================================== *)
(** ** Notification channels, start-up and the metrics snapshot *)
(* ===================================================================== *)


(** X14.  When the database cannot be reached [run] prints the fatal error
    and nothing else: the monitoring loop is never entered, [running] stays
    as it was, no "connected" or "closed" line is printed, the store is not
    read or written and no sleep takes place. *)
Theorem run_without_database :
  forall (numpy : Numpy) (cfg : Config) (passes : nat) (w : World),
    reachable (db w) = false ->
    let w' := exec (run cfg passes) w in
    outcome (run cfg passes) w = Ok tt
    /\ stdout w' = stdout w ++ [LogFatal DatabaseError]
    /\ self w' = self w
    /\ db w' = db w
    /\ environment w' = environment w
    /\ deliveries w' = deliveries w.
Proof.
  intros numpy cfg passes w Hreach. cbv zeta.
  assert (Hrun : run cfg passes w = py_print (LogFatal DatabaseError) w).
  { unfold run, try_except at 1, bind at 1, get_db_connection, bind at 1, get.
    rewrite Hreach. reflexivity. }
  unfold exec, outcome. rewrite Hrun. repeat split; reflexivity.
Qed.

Lemma run_without_database_witness :
  stdout (exec (run default_config 25) Unreachable.w) = [LogFatal DatabaseError]
  /\ db (exec (run default_config 25) Unreachable.w) = db Unreachable.w.
Proof.
  pose proof (run_without_database reference_numpy default_config 25 Unreachable.w
                eq_refl) as H.
  cbv zeta in H. destruct H as [_ [Hout [_ [Hdb _]]]].
  split; [exact Hout | exact Hdb].
Defined.

Lemma sql_sum_none (column : list (option float)) :
  Forall (fun value => value = None) column -> sql_sum column = None.
Proof.
  intros H. unfold sql_sum.
  replace (omap id column) with (@nil float); [reflexivity |].
  induction H as [| value column Hvalue _ IH]; [reflexivity |].
  subst value. simpl. exact IH.
Qed.

Lemma sql_sum_some (column : list (option float)) (value : float) :
  In (Some value) column -> exists total, sql_sum column = Some total.
Proof.
  intros Hin. unfold sql_sum.
  destruct (omap id column) as [| first rest] eqn:Hvalues; [| eexists; reflexivity].
  exfalso. induction column as [| [other |] column IH]; simpl in *.
  - exact Hin.
  - discriminate Hvalues.
  - destruct Hin as [Hin | Hin]; [discriminate Hin | exact (IH Hin Hvalues)].
Qed.

(** X15.  With no failing statement, [update_risk_metrics] inserts exactly
    one snapshot, made of the counts of the store, the sum of the client
    totals and the alert counter of the engine, as soon as one client row
    has a total.  When no client row has one (an empty table included), the
    sum is NULL, its conversion fails, and the method prints the error and
    inserts no snapshot. *)
Theorem metrics_snapshot :
  forall (w : World),
    faults (db w) = [] ->
    let w' := exec update_risk_metrics w in
    let column := map total_exposure (client_exposures (db w)) in
    outcome update_risk_metrics w = Ok tt
    /\ (Forall (fun value => value = None) column ->
        risk_metrics (db w') = risk_metrics (db w)
        /\ stdout w' = stdout w ++ [LogMetricsError TypeError])
    /\ (forall value, In (Some value) column ->
        exists total,
          sql_sum column = Some total
          /\ risk_metrics (db w')
             = risk_metrics (db w) ++ [snapshot_of w (clock w (clock_reads w)) total]
          /\ stdout w' = stdout w).
Proof.
  intros w Hfaults.
  destruct w as [engine d c reads env out del pr].
  destruct d as [up schedule txs clients symbols stored seq metrics].
  simpl in Hfaults. subst schedule. cbv zeta.
  unfold exec, outcome, update_risk_metrics, try_except, bind, execute, get, lift,
    datetime_now, modify, ret, py_print, snapshot_of.
  simpl.
  destruct (sql_sum (map total_exposure clients)) as [total |] eqn:Hsum; simpl.
  - split; [reflexivity |]. split.
    + intros Hnone. rewrite (sql_sum_none _ Hnone) in Hsum. discriminate Hsum.
    + intros value _. exists total. repeat split; reflexivity.
  - split; [reflexivity |]. split.
    + intros _. split; reflexivity.
    + intros value Hin. destruct (sql_sum_some _ value Hin) as [total Htotal].
      rewrite Htotal in Hsum. discriminate Hsum.
Qed.

Lemma metrics_snapshot_witness :
  risk_metrics (db (exec update_risk_metrics MetricsExample.w)) = []
  /\ length (risk_metrics (db (exec update_risk_metrics ZeroThreshold.w))) = 1%nat.
Proof.
  split.
  - pose proof (metrics_snapshot MetricsExample.w eq_refl) as H.
    cbv zeta in H. destruct H as [_ [Hnone _]].
    apply Hnone. repeat constructor.
  - pose proof (metrics_snapshot ZeroThreshold.w eq_refl) as H.
    cbv zeta in H. destruct H as [_ [_ Hsome]].
    destruct (Hsome 1000%float) as [total [_ [Hrows _]]].
    + simpl. left. reflexivity.
    + rewrite Hrows. reflexivity.
Defined.

(** X16.  [detect_anomaly] only reads: whatever it returns or raises, the
    world stays as it was, and its result is the same in two worlds whose
    engines hold the same window of values. *)
Theorem detect_anomaly_reads_only :
  forall (numpy : Numpy) (cfg : Config) (value : float) (w : World),
    exec (detect_anomaly cfg value) w = w
    /\ forall w2, transaction_values (self w2) = transaction_values (self w) ->
         outcome (detect_anomaly cfg value) w2 = outcome (detect_anomaly cfg value) w.
Proof.
  intros numpy cfg value w.
  unfold exec, outcome, detect_anomaly, bind at 1 3 5, get. simpl.
  split.
  - destruct (length (transaction_values (self w)) <? 30)%nat; [reflexivity |].
    destruct (PyFloat.eq _ 0); [reflexivity |].
    unfold bind, lift.
    destruct (np_divide _ _) as [quotient | e]; [| reflexivity].
    destruct (PyFloat.gt _ _); reflexivity.
  - intros w2 Hsame. unfold bind at 1, get. simpl. rewrite Hsame.
    destruct (length (transaction_values (self w)) <? 30)%nat; [reflexivity |].
    destruct (PyFloat.eq _ 0); [reflexivity |].
    unfold bind, lift.
    destruct (np_divide _ _) as [quotient | e]; [| reflexivity].
    destruct (PyFloat.gt _ _); reflexivity.
Qed.

(* ===================================================================== *)
(** ** The cadence of the statistics *)
(* ===================================================================== *)

Lemma exec_bind_safe {A B : Type} (m : M A) (k : A -> M B) (w : World) :
  safe m -> exists a, exec (bind m k) w = exec (k a) (exec m w).
Proof.
  intros Hsafe. destruct (bind_continue m k w Hsafe) as [a [_ Hbind]].
  exists a. unfold exec at 1 2. rewrite Hbind. reflexivity.
Qed.

Lemma stats_datetime_now : preserves (unchanged stats_lines) datetime_now.
Proof. intros w. reflexivity. Qed.

Lemma stats_py_print (line : LogLine) :
  is_stats_line line = false -> preserves (unchanged stats_lines) (py_print line).
Proof.
  intros Hline w. unfold unchanged, stats_lines, exec, py_print, modify. simpl.
  rewrite List.filter_app. simpl. rewrite Hline, app_nil_r. reflexivity.
Qed.

Lemma stats_deliver (d : Delivery) : preserves (unchanged stats_lines) (deliver d).
Proof. intros w. reflexivity. Qed.

Lemma stats_execute : preserves (unchanged stats_lines) execute.
Proof.
  intros w. unfold unchanged, exec, execute.
  destruct (faults (db w)) as [| [|] rest]; reflexivity.
Qed.

Lemma stats_with_self (f : RiskEngine -> RiskEngine) :
  preserves (unchanged stats_lines) (modify (with_self f)).
Proof. intros w. reflexivity. Qed.

Lemma stats_with_db (f : Database -> Database) :
  preserves (unchanged stats_lines) (modify (with_db f)).
Proof. intros w. reflexivity. Qed.

Lemma stats_mark_processed (id : Z) :
  preserves (unchanged stats_lines) (modify (mark_processed id)).
Proof. intros w. reflexivity. Qed.

Lemma stats_sleep : preserves (unchanged stats_lines) sleep.
Proof.
  intros w. unfold unchanged, stats_lines, exec, sleep, modify. simpl.
  destruct (environment w); reflexivity.
Qed.

#[export] Hint Resolve stats_datetime_now stats_deliver stats_execute stats_with_self
  stats_with_db stats_mark_processed stats_sleep : frame.
#[export] Hint Extern 2 (preserves (unchanged stats_lines) (py_print _)) =>
  apply stats_py_print; reflexivity : frame.

Lemma stats_py_print_stats (w : World) :
  stats_lines (exec (py_print LogStats) w) = S (stats_lines w).
Proof.
  unfold stats_lines, exec, py_print, modify. simpl.
  rewrite List.filter_app, length_app. simpl. lia.
Qed.

Section Cadence.

Context {numpy : Numpy}.
Variable cfg : Config.

Lemma stats_process_new_transactions :
  preserves (unchanged stats_lines) (process_new_transactions cfg).
Proof.
  unfold process_new_transactions, process_transaction, update_tracking, run_checks,
    detect_anomaly, check_transaction_velocity, create_alert, send_alert,
    send_slack_alert, send_email_alert.
  frame.
Qed.

Lemma stats_check_exposures : preserves (unchanged stats_lines) (check_exposures cfg).
Proof.
  unfold check_exposures, check_client_exposure, check_symbol_exposure,
    update_client_risk_level, update_symbol_risk_level, create_alert, send_alert,
    send_slack_alert, send_email_alert.
  frame.
Qed.

Lemma stats_update_risk_metrics : preserves (unchanged stats_lines) update_risk_metrics.
Proof. unfold update_risk_metrics. frame. Qed.

(** A pass prints the statistics when its number is a multiple of ten, and
    only then. *)
Lemma stats_cycle (iteration : Z) (w : World) :
  stats_lines (exec (cycle cfg iteration) w)
  = (stats_lines w + (if (iteration mod 10 =? 0)%Z then 1 else 0))%nat.
Proof.
  unfold cycle.
  destruct (exec_bind_safe (process_new_transactions cfg)
              (fun _ => check_exposures cfg ;;
                 if iteration mod 10 =? 0
                 then update_risk_metrics ;; py_print LogStats else ret tt) w
              (safe_process_new_transactions cfg)) as [[] H1].
  rewrite H1. clear H1.
  set (w1 := exec (process_new_transactions cfg) w).
  destruct (exec_bind_safe (check_exposures cfg)
              (fun _ => if iteration mod 10 =? 0
                 then update_risk_metrics ;; py_print LogStats else ret tt) w1
              (safe_check_exposures cfg)) as [[] H2].
  rewrite H2. clear H2.
  set (w2 := exec (check_exposures cfg) w1).
  assert (Hsame : stats_lines w2 = stats_lines w).
  { unfold w2. rewrite <- (stats_check_exposures w1).
    unfold w1. rewrite <- (stats_process_new_transactions w). reflexivity. }
  destruct (iteration mod 10 =? 0).
  - destruct (exec_bind_safe update_risk_metrics (fun _ => py_print LogStats) w2
                safe_update_risk_metrics) as [[] H3].
    rewrite H3, stats_py_print_stats, <- (stats_update_risk_metrics w2), Hsame. lia.
  - unfold exec, ret. simpl. rewrite Hsame. lia.
Qed.

Lemma stats_monitor_passes (passes : nat) :
  forall (iteration : Z) (w : World),
    0 <= iteration ->
    Z.of_nat (stats_lines (exec (monitor_passes cfg passes iteration) w))
    = Z.of_nat (stats_lines w) + ((iteration + Z.of_nat passes) / 10 - iteration / 10).
Proof.
  induction passes as [| passes IH]; intros iteration w Hiteration.
  - simpl monitor_passes.
    assert (H : preserves (unchanged stats_lines)
                  (py_print LogStopping ;; modify (with_self (set_running false)))).
    { frame. }
    rewrite <- (H w). replace (iteration + Z.of_nat 0) with iteration by lia. lia.
  - simpl monitor_passes.
    set (pass := try_except (cycle cfg (iteration + 1) ;; sleep)
                   (fun e => py_print (LogLoopError e) ;; sleep)).
    destruct (exec_bind_safe pass (fun _ => monitor_passes cfg passes (iteration + 1)) w)
      as [[] Hbind].
    { unfold pass. no_raise. }
    rewrite Hbind, IH by lia.
    assert (Hpass : stats_lines (exec pass w)
                    = (stats_lines w
                       + (if ((iteration + 1) mod 10 =? 0)%Z then 1 else 0))%nat).
    { unfold pass, exec. rewrite try_except_safe.
      - destruct (exec_bind_safe (cycle cfg (iteration + 1)) (fun _ => sleep) w
                    (safe_cycle cfg (iteration + 1))) as [[] Hcycle].
        unfold exec in Hcycle at 1. rewrite Hcycle.
        rewrite <- (stats_sleep (exec (cycle cfg (iteration + 1)) w)).
        apply stats_cycle.
      - apply safe_bind; [apply safe_cycle | intros _; apply safe_sleep]. }
    rewrite Hpass.
    replace (iteration + Z.of_nat (S passes)) with (iteration + 1 + Z.of_nat passes) by lia.
    destruct (Z.eqb_spec ((iteration + 1) mod 10) 0) as [Hten | Hten].
    + assert (Hnext : (iteration + 1) / 10 = iteration / 10 + 1).
      { clear - Hiteration Hten. Z.div_mod_to_equations. lia. }
      rewrite Hnext, Nat2Z.inj_add. simpl (Z.of_nat 1). ring.
    + assert (Hnext : (iteration + 1) / 10 = iteration / 10).
      { clear - Hiteration Hten. Z.div_mod_to_equations. lia. }
      rewrite Hnext, Nat.add_0_r. reflexivity.
Qed.

End Cadence.

(** X17.  Over a run of [passes] passes the monitoring loop prints the
    "Monitoring Stats" line once every tenth pass, at the passes 10, 20, ...
    and at no other: the number of these lines grows by [passes / 10]
    (integer division), whatever happens to the store in the meantime. *)
Theorem stats_every_tenth_pass :
  forall (numpy : Numpy) (cfg : Config) (passes : nat) (w : World),
    Z.of_nat (stats_lines (exec (monitor_loop cfg passes) w))
    = Z.of_nat (stats_lines w) + Z.of_nat passes / 10.
Proof.
  intros numpy cfg passes w. unfold monitor_loop.
  destruct (exec_bind_safe (py_print LogStarting)
              (fun _ => modify (with_self (set_running true)) ;; monitor_passes cfg passes 0)
              w (safe_py_print LogStarting)) as [[] H1].
  rewrite H1. clear H1.
  set (w1 := exec (py_print LogStarting) w).
  destruct (exec_bind_safe (modify (with_self (set_running true)))
              (fun _ => monitor_passes cfg passes 0) w1
              (safe_modify (with_self (set_running true)))) as [[] H2].
  rewrite H2. clear H2.
  rewrite (stats_monitor_passes cfg passes 0) by lia.
  rewrite Z.add_0_l, Z.div_0_l, Z.sub_0_r by lia.
  replace (stats_lines (exec (modify (with_self (set_running true))) w1))
    with (stats_lines w); [reflexivity |].
  unfold w1, stats_lines, exec, modify, py_print. simpl.
  rewrite List.filter_app. simpl. rewrite app_nil_r. reflexivity.
Qed.

(* ===================================================================== *)
(** ** The history over the whole run *)
(* ===================================================================== *)

Lemma preserves_and {A : Type} (R1 R2 : World -> World -> Prop) (m : M A) :
  preserves R1 m -> preserves R2 m -> preserves (fun w w' => R1 w w' /\ R2 w w') m.
Proof. intros H1 H2 w. split; [apply H1 | apply H2]. Qed.

Lemma StronglySorted_append {A : Type} (R : A -> A -> Prop) (l1 l2 : list A) :
  (forall x1 x2, In x1 l1 -> In x2 l2 -> R x1 x2) ->
  StronglySorted R l1 -> StronglySorted R l2 -> StronglySorted R (l1 ++ l2).
Proof.
  intros Hcross H1 H2. induction H1 as [| x l1 _ IH Hall]; simpl; [exact H2 |].
  constructor.
  - apply IH. intros x1 x2 Hx1 Hx2. apply Hcross; [right; exact Hx1 | exact Hx2].
  - apply Forall_app. split; [exact Hall |].
    apply List.Forall_forall. intros x2 Hx2. apply Hcross; [left; reflexivity | exact Hx2].
Qed.

Section Grows.

Variable R : Z -> Z -> Prop.
Hypothesis R_lt : forall x y, x < y -> R x y.

Lemma grows_refl (w : World) : grows R w w.
Proof.
  split; [lia |]. exists []. rewrite app_nil_r.
  split; [reflexivity |]. split; constructor.
Qed.

Lemma grows_trans (w1 w2 w3 : World) : grows R w1 w2 -> grows R w2 w3 -> grows R w1 w3.
Proof.
  intros [H12 [more1 [Hp1 [Hs1 Hb1]]]] [H23 [more2 [Hp2 [Hs2 Hb2]]]].
  split; [lia |]. exists (more1 ++ more2).
  split; [rewrite Hp2, Hp1, app_assoc; reflexivity |]. split.
  - apply StronglySorted_append; [| exact Hs1 | exact Hs2].
    intros x1 x2 Hx1 Hx2. apply R_lt.
    pose proof (proj1 (List.Forall_forall _ _) Hb1 x1 Hx1) as B1.
    pose proof (proj1 (List.Forall_forall _ _) Hb2 x2 Hx2) as B2.
    simpl in B1, B2. lia.
  - apply Forall_app. split.
    + eapply List.Forall_impl; [| exact Hb1]. simpl. intros i Hi. lia.
    + eapply List.Forall_impl; [| exact Hb2]. simpl. intros i Hi. lia.
Qed.

Lemma progress_grows (w w' : World) : unchanged progress w w' -> grows R w w'.
Proof.
  unfold unchanged, progress. intros H. injection H as Hc Hp.
  split; [lia |]. exists []. rewrite app_nil_r.
  split; [symmetry; exact Hp |]. split; constructor.
Qed.

End Grows.

Lemma ascending_ids (done : list Transaction) :
  ascending done -> StronglySorted Z.le (map transaction_id done).
Proof.
  unfold ascending. induction 1 as [| tx done _ IH Hall]; simpl; constructor.
  - exact IH.
  - apply Forall_fmap. exact Hall.
Qed.



Section History.

Context {numpy : Numpy}.
Variable cfg : Config.


Lemma inputs_check_exposures : preserves (unchanged inputs) (check_exposures cfg).
Proof.
  unfold check_exposures, check_client_exposure, check_symbol_exposure,
    update_client_risk_level, update_symbol_risk_level, create_alert, send_alert,
    send_slack_alert, send_email_alert.
  frame.
Qed.

Lemma inputs_update_risk_metrics : preserves (unchanged inputs) update_risk_metrics.
Proof. unfold update_risk_metrics. frame. Qed.


(** One call of [process_new_transactions], seen from the history: a prefix
    of the batch, which is in ascending order and above the cursor. *)
Lemma process_new_transactions_history (w : World) :
  exists done,
    processed (exec (process_new_transactions cfg) w)
      = processed w ++ map transaction_id done
    /\ ascending done
    /\ Forall (fun tx => cursor w < transaction_id tx
                         <= cursor (exec (process_new_transactions cfg) w)) done
    /\ cursor w <= cursor (exec (process_new_transactions cfg) w)
    /\ (NoDup (transaction_ids (db w)) -> NoDup (map transaction_id done)).
Proof.
  destruct (process_new_transactions_prefix cfg w) as [done [rest [Hsplit [Hp Hc]]]].
  pose proof (select_new_transactions_above (db w) (cursor w)) as Habove.
  pose proof (select_new_transactions_ascending (db w) (cursor w)) as Hsorted.
  rewrite Hsplit in Habove, Hsorted.
  apply Forall_app in Habove. destruct Habove as [Habove _].
  apply ascending_app_l in Hsorted.
  destruct (cursor_after_bounds done Hsorted (cursor w)) as [Hge Hall].
  { eapply List.Forall_impl; [| exact Habove]. simpl. intros tx Htx. lia. }
  exists done. rewrite Hc. repeat split; try assumption.
  - apply List.Forall_forall. intros tx Hin.
    pose proof (proj1 (List.Forall_forall _ _) Habove tx Hin) as H1.
    pose proof (proj1 (List.Forall_forall _ _) Hall tx Hin) as H2.
    simpl in H1, H2. lia.
  - intros Hunique.
    pose proof (NoDup_select_new_transactions (db w) (cursor w) Hunique) as Hnodup.
    rewrite Hsplit, map_app in Hnodup. apply NoDup_app in Hnodup. apply Hnodup.
Qed.

Lemma grows_process_new_transactions :
  preserves (grows Z.le) (process_new_transactions cfg).
Proof.
  intros w.
  destruct (process_new_transactions_history w) as [done [Hp [Hs [Hb [Hc _]]]]].
  split; [exact Hc |]. exists (map transaction_id done).
  split; [exact Hp |]. split; [apply ascending_ids, Hs |].
  apply Forall_fmap. exact Hb.
Qed.


(** The loop, for any relation that the batch step and the sleep respect
    and that holds between worlds with the same cursor, history,
    environment and inputs. *)
Section Loop.

Variable step : World -> World -> Prop.
Context `{!Reflexive step, !Transitive step}.
Hypothesis step_frame :
  forall w w', unchanged kept w w' -> unchanged inputs w w' -> step w w'.
Hypothesis step_batch : preserves step (process_new_transactions cfg).
Hypothesis step_sleep : preserves step sleep.

Lemma step_framed {A : Type} (m : M A) :
  preserves (unchanged kept) m -> preserves (unchanged inputs) m -> preserves step m.
Proof. intros Hkept Hinputs w. apply step_frame; [apply Hkept | apply Hinputs]. Qed.

Lemma step_cycle (iteration : Z) : preserves step (cycle cfg iteration).
Proof.
  unfold cycle.
  apply preserves_bind; [typeclasses eauto | exact step_batch |].
  intros _. apply preserves_bind; [typeclasses eauto | |].
  - apply step_framed; [apply kept_check_exposures | apply inputs_check_exposures].
  - intros _. destruct (iteration mod 10 =? 0).
    + apply preserves_bind; [typeclasses eauto | |].
      * apply step_framed; [apply kept_update_risk_metrics | apply inputs_update_risk_metrics].
      * intros _. apply step_framed; frame.
    + apply preserves_ret. typeclasses eauto.
Qed.

Lemma step_monitor_passes (passes : nat) :
  forall iteration, preserves step (monitor_passes cfg passes iteration).
Proof.
  induction passes as [| passes IH]; intros iteration; simpl.
  - apply step_framed; frame.
  - apply preserves_bind; [typeclasses eauto | | intros _; apply IH].
    apply preserves_try_except; [typeclasses eauto | |].
    + apply preserves_bind; [typeclasses eauto | apply step_cycle |].
      intros _. exact step_sleep.
    + intros e. apply preserves_bind; [typeclasses eauto | |].
      * apply step_framed; frame.
      * intros _. exact step_sleep.
Qed.

Lemma step_monitor_loop (passes : nat) : preserves step (monitor_loop cfg passes).
Proof.
  unfold monitor_loop.
  apply preserves_bind; [typeclasses eauto | apply step_framed; frame |].
  intros _. apply preserves_bind; [typeclasses eauto | apply step_framed; frame |].
  intros _. apply step_monitor_passes.
Qed.

End Loop.

Lemma grows_monitor_loop (passes : nat) :
  preserves (grows Z.le) (monitor_loop cfg passes).
Proof.
  apply step_monitor_loop.
  - intros w. apply grows_refl.
  - intros w1 w2 w3. apply grows_trans. intros x y Hxy. lia.
  - intros w w' Hkept _. apply progress_grows, kept_progress, Hkept.
  - exact grows_process_new_transactions.
  - intros w. apply progress_grows, kept_sleep_progress.
Qed.


End History.

(** X18.  Over a whole run of the monitoring loop, whatever the other
    writers do to the store and whatever fails on the way, the history only
    grows, the transactions are processed in ascending id order across all
    the passes, and every id processed during the run lies above the cursor
    the run started from: a row that turns up with an id at or below the
    cursor is never processed. *)
Theorem history_in_id_order :
  forall (numpy : Numpy) (cfg : Config) (passes : nat) (w : World),
    let w' := exec (monitor_loop cfg passes) w in
    exists more,
      processed w' = processed w ++ more
      /\ StronglySorted Z.le more
      /\ Forall (fun i => cursor w < i <= cursor w') more
      /\ forall i, i <= cursor w -> In i (processed w') -> In i (processed w).
Proof.
  intros numpy cfg passes w w'.
  destruct (grows_monitor_loop cfg passes w) as [_ [more [Hp [Hs Hb]]]].
  exists more. fold w' in Hp, Hb. repeat split; try assumption.
  intros i Hi Hin. rewrite Hp in Hin. apply List.in_app_or in Hin.
  destruct Hin as [Hin | Hin]; [exact Hin |].
  pose proof (proj1 (List.Forall_forall _ _) Hb i Hin) as Hbound. simpl in Hbound. lia.
Qed.




(* ===================================================================== *)
(** ** database_config.py: the blocks of [get_cursor] *)
(* ===================================================================== *)

Lemma balanced_statement {Store : Type} (change : Store -> Store) (fails : bool) :
  DatabaseConfig.balanced (DatabaseConfig.statement change fails).
Proof. intros s. unfold DatabaseConfig.statement. destruct fails; reflexivity. Qed.

Lemma balanced_failing {Store A : Type} (e : exn) :
  DatabaseConfig.balanced (@DatabaseConfig.failing Store A e).
Proof. intros s. reflexivity. Qed.

Lemma balanced_and_then {Store A B : Type} (m : DatabaseConfig.Block Store A)
    (k : A -> DatabaseConfig.Block Store B) :
  DatabaseConfig.balanced m -> (forall a, DatabaseConfig.balanced (k a)) ->
  DatabaseConfig.balanced (DatabaseConfig.and_then m k).
Proof.
  intros Hm Hk s. specialize (Hm s). unfold DatabaseConfig.and_then.
  destruct (m s) as [[a | e] s1]; simpl in *; [| exact Hm].
  rewrite Hk. exact Hm.
Qed.

Lemma balanced_with_cursor {Store A : Type} (body : DatabaseConfig.Block Store A) :
  DatabaseConfig.balanced body -> DatabaseConfig.balanced (DatabaseConfig.with_cursor body).
Proof.
  intros Hbody s. specialize (Hbody (DatabaseConfig.cursor_open s)).
  unfold DatabaseConfig.with_cursor.
  destruct (body (DatabaseConfig.cursor_open s)) as [[a | e] s1]; simpl in *;
    rewrite Hbody; reflexivity.
Qed.

(** X20.  The exit of a [get_cursor] block on an open connection: the block
    returns what its body returns and raises what its body raises; when the
    body returned, what the connection saw is committed, and when it raised,
    the pending work is rolled back and what was committed stays; in both
    cases nothing is left pending and the cursor is closed. *)
Theorem get_cursor_commits_or_rolls_back :
  forall (Store A : Type) (body : DatabaseConfig.Block Store A)
         (c : DatabaseConfig.DatabaseConnection Store) (view : Store),
    DatabaseConfig.connection c = Some view ->
    DatabaseConfig.balanced body ->
    let start := {| DatabaseConfig.working := view;
                    DatabaseConfig.durable := DatabaseConfig.database c;
                    DatabaseConfig.open_cursors := S (DatabaseConfig.cursors c) |} in
    let r := DatabaseConfig.get_cursor body c in
    fst r = fst (body start)
    /\ DatabaseConfig.clean (snd r)
    /\ (forall a, fst (body start) = Ok a ->
        DatabaseConfig.database (snd r) = DatabaseConfig.working (snd (body start)))
    /\ (forall e, fst (body start) = Raise e ->
        DatabaseConfig.database (snd r) = DatabaseConfig.durable (snd (body start)))
    /\ DatabaseConfig.cursors (snd r) = DatabaseConfig.cursors c.
Proof.
  intros Store A body c view Hconn Hbalanced start r.
  unfold r, DatabaseConfig.get_cursor. rewrite Hconn.
  unfold DatabaseConfig.in_session, DatabaseConfig.with_cursor, DatabaseConfig.cursor_open.
  simpl. fold start. pose proof (Hbalanced start) as Hcursors.
  destruct (body start) as [[a | e] s1]; simpl in *;
    unfold DatabaseConfig.clean; simpl; rewrite Hcursors;
    repeat split; try reflexivity; intros x Hx; discriminate Hx.
Qed.

Lemma get_cursor_commits_or_rolls_back_witness :
  DatabaseConfig.database
    (snd (DatabaseConfig.get_cursor
            (DatabaseConfig.and_then (BlockExample.write "alert")
               (fun _ => @DatabaseConfig.failing (list string) unit TypeError))
            BlockExample.idle))
  = ["seed"].
Proof.
  pose proof (get_cursor_commits_or_rolls_back (list string) unit
                (DatabaseConfig.and_then (BlockExample.write "alert")
                   (fun _ => @DatabaseConfig.failing (list string) unit TypeError))
                BlockExample.idle ["seed"] eq_refl
                (balanced_and_then _ _ (balanced_statement _ _)
                   (fun _ => @balanced_failing (list string) unit TypeError))) as H.
  cbv zeta in H. destruct H as [_ [_ [_ [Hraise _]]]].
  rewrite (Hraise TypeError eq_refl). reflexivity.
Defined.

(** X21.  A block nested in another works on the same connection, and its
    commit makes durable what the enclosing block had written before it as
    well as its own writes; when the enclosing block raises afterwards, its
    rollback undoes none of them. *)
Theorem nested_block_commits_enclosing_writes :
  forall (Store A B : Type) (first : DatabaseConfig.Block Store unit)
         (inner : DatabaseConfig.Block Store A) (a : A) (e : exn)
         (s : DatabaseConfig.Session Store),
    let s1 := snd (first (DatabaseConfig.cursor_open s)) in
    let s2 := snd (inner (DatabaseConfig.cursor_open s1)) in
    fst (first (DatabaseConfig.cursor_open s)) = Ok tt ->
    fst (inner (DatabaseConfig.cursor_open s1)) = Ok a ->
    let r := DatabaseConfig.with_cursor
               (DatabaseConfig.and_then first (fun _ =>
                  DatabaseConfig.and_then (DatabaseConfig.with_cursor inner) (fun _ =>
                    @DatabaseConfig.failing Store B e))) s in
    fst r = Raise e
    /\ DatabaseConfig.durable (snd r) = DatabaseConfig.working s2
    /\ DatabaseConfig.working (snd r) = DatabaseConfig.working s2.
Proof.
  intros Store A B first inner a e s s1 s2 Hfirst Hinner r.
  subst r s2 s1.
  destruct (first (DatabaseConfig.cursor_open s)) as [r1 s1] eqn:Efirst.
  simpl in Hfirst, Hinner |- *. subst r1.
  destruct (inner (DatabaseConfig.cursor_open s1)) as [r2 s2] eqn:Einner.
  simpl in Hinner |- *. subst r2.
  unfold DatabaseConfig.with_cursor, DatabaseConfig.and_then.
  rewrite Efirst. cbv beta iota. rewrite Einner. simpl.
  repeat split; reflexivity.
Qed.

Lemma nested_block_commits_enclosing_writes_witness :
  DatabaseConfig.durable
    (snd (DatabaseConfig.with_cursor
            (DatabaseConfig.and_then (BlockExample.write "tier") (fun _ =>
               DatabaseConfig.and_then
                 (DatabaseConfig.with_cursor (BlockExample.write "alert")) (fun _ =>
                    @DatabaseConfig.failing (list string) unit TypeError)))
            BlockExample.session))
  = ["alert"; "tier"; "seed"].
Proof.
  pose proof (nested_block_commits_enclosing_writes (list string) unit unit
                (BlockExample.write "tier") (BlockExample.write "alert") tt TypeError
                BlockExample.session eq_refl eq_refl) as H.
  cbv zeta in H. destruct H as [_ [Hdurable _]].
  rewrite Hdurable. reflexivity.
Defined.

(** X22.  A block made of a single statement, as the engine writes them,
    run while nothing is pending: when the statement succeeds its change is
    committed, when it fails the block raises and the committed contents
    are what they were; nothing is pending afterwards, the connection is
    open and the cursor is closed. *)
Theorem single_statement_block :
  forall (Store : Type) (change : Store -> Store) (fails : bool)
         (c : DatabaseConfig.DatabaseConnection Store),
    DatabaseConfig.clean c ->
    (DatabaseConfig.connection c = None -> DatabaseConfig.reachable c = true) ->
    let r := DatabaseConfig.get_cursor (DatabaseConfig.statement change fails) c in
    fst r = (if fails then Raise DatabaseError else Ok tt)
    /\ DatabaseConfig.database (snd r)
       = (if fails then DatabaseConfig.database c else change (DatabaseConfig.database c))
    /\ DatabaseConfig.connection (snd r) = Some (DatabaseConfig.database (snd r))
    /\ DatabaseConfig.cursors (snd r) = DatabaseConfig.cursors c.
Proof.
  intros Store change fails c Hclean Hup r. unfold r. clear r.
  unfold DatabaseConfig.clean in Hclean.
  unfold DatabaseConfig.get_cursor, DatabaseConfig.connect.
  destruct (DatabaseConfig.connection c) as [view |] eqn:Hconn.
  - subst view.
    unfold DatabaseConfig.in_session, DatabaseConfig.with_cursor, DatabaseConfig.statement.
    destruct fails; simpl; repeat split; reflexivity.
  - rewrite (Hup eq_refl).
    unfold DatabaseConfig.in_session, DatabaseConfig.with_cursor, DatabaseConfig.statement.
    destruct fails; simpl; repeat split; reflexivity.
Qed.

Lemma single_statement_block_witness :
  DatabaseConfig.database
    (snd (DatabaseConfig.get_cursor (BlockExample.write "alert") BlockExample.idle))
  = ["alert"; "seed"]
  /\ DatabaseConfig.database
       (snd (DatabaseConfig.get_cursor (DatabaseConfig.statement (cons "alert") true)
               (DatabaseConfig.close BlockExample.idle)))
     = ["seed"].
Proof.
  split.
  - apply (proj1 (proj2 (single_statement_block (list string) (cons "alert") false
                           BlockExample.idle eq_refl
                           (fun H => eq_refl)))).
  - apply (proj1 (proj2 (single_statement_block (list string) (cons "alert") true
                           (DatabaseConfig.close BlockExample.idle) I
                           (fun H => eq_refl)))).
Defined.

(** X23.  [get_cursor] on an object without a connection connects first:
    when the server cannot be reached it raises before a cursor exists and
    before the body runs, and the object is as it was; when it can, the
    block runs on the new connection, which sees the committed contents, so
    that what was pending on a connection closed before is not seen any
    more. *)
Theorem get_cursor_connects_first :
  forall (Store A : Type) (body : DatabaseConfig.Block Store A)
         (c : DatabaseConfig.DatabaseConnection Store),
    DatabaseConfig.connection c = None ->
    (DatabaseConfig.reachable c = false ->
     DatabaseConfig.get_cursor body c = (Raise DatabaseError, c))
    /\ (DatabaseConfig.reachable c = true ->
        DatabaseConfig.get_cursor body c
        = DatabaseConfig.get_cursor body (snd (DatabaseConfig.connect c))
        /\ DatabaseConfig.connection (snd (DatabaseConfig.connect c))
           = Some (DatabaseConfig.database c)).
Proof.
  intros Store A body c Hnone. split; intros Hup.
  - unfold DatabaseConfig.get_cursor, DatabaseConfig.connect. rewrite Hnone, Hup.
    reflexivity.
  - unfold DatabaseConfig.get_cursor, DatabaseConfig.connect. rewrite Hnone, Hup.
    simpl. split; reflexivity.
Qed.

Lemma get_cursor_connects_first_witness :
  fst (DatabaseConfig.get_cursor (BlockExample.write "alert")
         (DatabaseConfig.new_connection ["seed"] false))
  = Raise DatabaseError.
Proof.
  rewrite (proj1 (get_cursor_connects_first (list string) unit (BlockExample.write "alert")
                    (DatabaseConfig.new_connection ["seed"] false) eq_refl) eq_refl).
  reflexivity.
Defined.

(* ===================================================================== *)
(** ** The alerts of the exposure step *)
(* ===================================================================== *)

Lemma checked_nil (w : World) : faults (db w) = [] -> checked [] w w.
Proof. intros H. unfold checked. rewrite !app_nil_r. repeat split. exact H. Qed.

Lemma checked_app (new1 new2 : list AlertData) (w1 w2 w3 : World) :
  checked new1 w1 w2 -> checked new2 w2 w3 -> checked (new1 ++ new2) w1 w3.
Proof.
  intros [F1 [S1 [D1 [C1 Y1]]]] [F2 [S2 [D2 [C2 Y2]]]].
  unfold checked. rewrite S2, S1, D2, D1, C2, C1, Y2, Y1, !app_assoc.
  repeat split. exact F2.
Qed.

Lemma omap_exposure_data {A : Type} (f : ExposureRow -> option A) (rows rows' : list ExposureRow) :
  (forall r r', exposure_key r = exposure_key r' -> total_exposure r = total_exposure r' ->
                f r = f r') ->
  exposure_data rows = exposure_data rows' -> omap f rows = omap f rows'.
Proof.
  intros Hf. revert rows'.
  induction rows as [| r rows IH]; intros [| r' rows'] H; simpl in H;
    try discriminate H; [reflexivity |].
  injection H as Hkey Htotal Hrest.
  csimpl. rewrite (Hf r r' Hkey Htotal), (IH rows' Hrest). reflexivity.
Qed.

Section Exposures.

Variable cfg : Config.

(** One row of the client loop. *)
Lemma client_row_checked (row : ExposureRow) (w : World) :
  faults (db w) = [] ->
  PyFloat.eq (CLIENT_EXPOSURE_THRESHOLD cfg) 0 = false ->
  total_exposure row <> None ->
  exists w',
    (let* exposure := lift (py_float (total_exposure row)) in
     let* alert := check_client_exposure cfg (exposure_key row) exposure in
     when_some alert create_alert) w = (Ok tt, w')
    /\ checked (option_list (client_alert_of cfg row)) w w'.
Proof.
  intros Hfaults Hthreshold Htotal.
  destruct w as [[[slack email] on ct st tv cur ag tp] d c cr env out del pr].
  destruct d as [up schedule txs clients symbols rows seq metrics].
  simpl in Hfaults. subst schedule.
  unfold client_alert_of.
  destruct (total_exposure row) as [exposure |]; [| contradiction].
  destruct (calculate_risk_level_nonzero exposure _ Hthreshold) as [level Hlevel].
  unfold bind at 1, lift. simpl.
  unfold bind at 1, check_client_exposure, bind at 1, lift. rewrite Hlevel.
  destruct (PyFloat.gt exposure (CLIENT_EXPOSURE_THRESHOLD cfg)).
  - unfold checked, stored_alerts, dispatched, when_some, create_alert, send_alert,
      send_slack_alert, send_email_alert, try_except, bind, datetime_now, execute, get,
      py_print, deliver, modify, ret.
    destruct slack, email; simpl; eexists; (split; [reflexivity |]); simpl;
      rewrite ?map_app, ?omap_app; simpl; rewrite ?app_nil_r; repeat split.
  - unfold checked, stored_alerts, dispatched, when_some, update_client_risk_level,
      try_except, bind, execute, get, py_print, modify, ret.
    simpl. eexists. split; [reflexivity |]. simpl.
    rewrite exposure_data_set_risk_level, !app_nil_r. repeat split.
Qed.

(** One row of the symbol loop. *)
Lemma symbol_row_checked (row : ExposureRow) (w : World) :
  faults (db w) = [] ->
  PyFloat.eq (SYMBOL_EXPOSURE_THRESHOLD cfg) 0 = false ->
  total_exposure row <> None ->
  exists w',
    (let* exposure := lift (py_float (total_exposure row)) in
     let* alert := check_symbol_exposure cfg (exposure_key row) exposure in
     when_some alert create_alert) w = (Ok tt, w')
    /\ checked (option_list (symbol_alert_of cfg row)) w w'.
Proof.
  intros Hfaults Hthreshold Htotal.
  destruct w as [[[slack email] on ct st tv cur ag tp] d c cr env out del pr].
  destruct d as [up schedule txs clients symbols rows seq metrics].
  simpl in Hfaults. subst schedule.
  unfold symbol_alert_of.
  destruct (total_exposure row) as [exposure |]; [| contradiction].
  destruct (calculate_risk_level_nonzero exposure _ Hthreshold) as [level Hlevel].
  unfold bind at 1, lift. simpl.
  unfold bind at 1, check_symbol_exposure, bind at 1, lift. rewrite Hlevel.
  destruct (PyFloat.gt exposure (SYMBOL_EXPOSURE_THRESHOLD cfg)).
  - unfold checked, stored_alerts, dispatched, when_some, create_alert, send_alert,
      send_slack_alert, send_email_alert, try_except, bind, datetime_now, execute, get,
      py_print, deliver, modify, ret.
    destruct slack, email; simpl; eexists; (split; [reflexivity |]); simpl;
      rewrite ?map_app, ?omap_app; simpl; rewrite ?app_nil_r; repeat split.
  - unfold checked, stored_alerts, dispatched, when_some, update_symbol_risk_level,
      try_except, bind, execute, get, py_print, modify, ret.
    simpl. eexists. split; [reflexivity |]. simpl.
    rewrite exposure_data_set_risk_level, !app_nil_r. repeat split.
Qed.

(** A loop over fetched rows, each of which does what [alert_of] says. *)
Lemma for_each_checked (alert_of : ExposureRow -> option AlertData)
    (body : ExposureRow -> M unit) (rows : list ExposureRow) :
  (forall row w, In row rows -> faults (db w) = [] ->
     exists w', body row w = (Ok tt, w') /\ checked (option_list (alert_of row)) w w') ->
  forall w, faults (db w) = [] ->
    exists w', for_each rows body w = (Ok tt, w') /\ checked (omap alert_of rows) w w'.
Proof.
  induction rows as [| row rows IH]; intros Hbody w Hfaults.
  - exists w. split; [reflexivity | apply checked_nil, Hfaults].
  - destruct (Hbody row w (or_introl eq_refl) Hfaults) as [w1 [Hrow Hchecked]].
    destruct (IH (fun r v Hin => Hbody r v (or_intror Hin)) w1 (proj1 Hchecked))
      as [w2 [Hrest Hchecked']].
    exists w2. split.
    + simpl. unfold bind. rewrite Hrow. exact Hrest.
    + replace (omap alert_of (row :: rows))
        with (option_list (alert_of row) ++ omap alert_of rows).
      * exact (checked_app _ _ w w1 w2 Hchecked Hchecked').
      * simpl. destruct (alert_of row); reflexivity.
Qed.

Lemma totals_data (rows rows' : list ExposureRow) :
  exposure_data rows' = exposure_data rows ->
  Forall (fun row => total_exposure row <> None) rows ->
  Forall (fun row => total_exposure row <> None) rows'.
Proof.
  revert rows. induction rows' as [| r rows' IH]; intros [| r0 rows] Hdata Hall;
    simpl in Hdata; try discriminate Hdata; constructor.
  - injection Hdata as _ Htotal _. inversion Hall. congruence.
  - injection Hdata as _ _ Hrest. inversion Hall. eapply IH; eassumption.
Qed.

(** The whole step, when nothing fails. *)
Lemma check_exposures_checked (w : World) :
  faults (db w) = [] ->
  PyFloat.eq (CLIENT_EXPOSURE_THRESHOLD cfg) 0 = false ->
  PyFloat.eq (SYMBOL_EXPOSURE_THRESHOLD cfg) 0 = false ->
  Forall (fun row => total_exposure row <> None) (client_exposures (db w)) ->
  Forall (fun row => total_exposure row <> None) (symbol_exposures (db w)) ->
  exists w',
    check_exposures cfg w = (Ok tt, w')
    /\ checked (exposure_alerts cfg (db w)) w w'.
Proof.
  intros Hfaults Hclient Hsymbol Hclients Hsymbols.
  destruct (for_each_checked (client_alert_of cfg)
              (fun row =>
                 let* exposure := lift (py_float (total_exposure row)) in
                 let* alert := check_client_exposure cfg (exposure_key row) exposure in
                 when_some alert create_alert)
              (client_exposures (db w))) with (w := w) as [w1 [Hloop1 Hchecked1]].
  { intros row v Hin Hv. apply client_row_checked; [exact Hv | exact Hclient |].
    exact (proj1 (List.Forall_forall _ _) Hclients row Hin). }
  { exact Hfaults. }
  assert (Hsymbols1 : Forall (fun row => total_exposure row <> None)
                        (symbol_exposures (db w1))).
  { exact (totals_data _ _ (proj2 (proj2 (proj2 (proj2 Hchecked1)))) Hsymbols). }
  destruct (for_each_checked (symbol_alert_of cfg)
              (fun row =>
                 let* exposure := lift (py_float (total_exposure row)) in
                 let* alert := check_symbol_exposure cfg (exposure_key row) exposure in
                 when_some alert create_alert)
              (symbol_exposures (db w1))) with (w := w1) as [w2 [Hloop2 Hchecked2]].
  { intros row v Hin Hv. apply symbol_row_checked; [exact Hv | exact Hsymbol |].
    exact (proj1 (List.Forall_forall _ _) Hsymbols1 row Hin). }
  { exact (proj1 Hchecked1). }
  exists w2. split.
  - unfold check_exposures, try_except, bind at 1, execute. rewrite Hfaults.
    unfold bind at 1, get. unfold bind at 1. rewrite Hloop1.
    unfold bind at 1, execute. rewrite (proj1 Hchecked1).
    unfold bind at 1, get. rewrite Hloop2. reflexivity.
  - unfold exposure_alerts.
    replace (omap (symbol_alert_of cfg) (symbol_exposures (db w)))
      with (omap (symbol_alert_of cfg) (symbol_exposures (db w1))).
    + exact (checked_app _ _ w w1 w2 Hchecked1 Hchecked2).
    + apply omap_exposure_data; [| apply Hchecked1].
      intros r r' Hkey Htotal. unfold symbol_alert_of. rewrite Htotal, Hkey. reflexivity.
Qed.

Lemma exposure_alerts_data (d d' : Database) :
  exposure_data (client_exposures d') = exposure_data (client_exposures d) ->
  exposure_data (symbol_exposures d') = exposure_data (symbol_exposures d) ->
  exposure_alerts cfg d' = exposure_alerts cfg d.
Proof.
  intros Hc Hs. unfold exposure_alerts. f_equal.
  - apply omap_exposure_data; [| exact Hc].
    intros r r' Hkey Htotal. unfold client_alert_of. rewrite Htotal, Hkey. reflexivity.
  - apply omap_exposure_data; [| exact Hs].
    intros r r' Hkey Htotal. unfold symbol_alert_of. rewrite Htotal, Hkey. reflexivity.
Qed.

End Exposures.

(** X24.  When no statement fails, no threshold is zero and every exposure
    row has a total, [check_exposures] returns normally and creates exactly
    one alert for each row whose total is strictly above its threshold, and
    no other: first the clients in the order of their table, then the
    symbols in the order of theirs; each alert is stored and handed to
    [send_alert] once, in that order. *)
Theorem exposure_alerts_exact :
  forall (cfg : Config) (w : World),
    faults (db w) = [] ->
    PyFloat.eq (CLIENT_EXPOSURE_THRESHOLD cfg) 0 = false ->
    PyFloat.eq (SYMBOL_EXPOSURE_THRESHOLD cfg) 0 = false ->
    Forall (fun row => total_exposure row <> None) (client_exposures (db w)) ->
    Forall (fun row => total_exposure row <> None) (symbol_exposures (db w)) ->
    let w' := exec (check_exposures cfg) w in
    outcome (check_exposures cfg) w = Ok tt
    /\ stored_alerts w' = stored_alerts w ++ exposure_alerts cfg (db w)
    /\ dispatched w' = dispatched w ++ exposure_alerts cfg (db w).
Proof.
  intros cfg w Hfaults Hclient Hsymbol Hclients Hsymbols w'.
  destruct (check_exposures_checked cfg w Hfaults Hclient Hsymbol Hclients Hsymbols)
    as [w1 [Hrun [_ [Hstored [Hsent _]]]]].
  unfold w', exec, outcome. rewrite Hrun. simpl.
  split; [reflexivity |]. split; assumption.
Qed.

Lemma exposure_alerts_exact_witness :
  map entity_id (stored_alerts (exec (check_exposures default_config) RepeatExample.w))
  = ["CLIENT_001"; "AAPL"].
Proof.
  pose proof (exposure_alerts_exact default_config RepeatExample.w eq_refl eq_refl eq_refl
                ltac:(repeat constructor; discriminate)
                ltac:(repeat constructor; discriminate)) as H.
  cbv zeta in H. destruct H as [_ [Hstored _]].
  rewrite Hstored. reflexivity.
Defined.

(** X25.  The exposure step keeps no memory of the alerts it has raised:
    under the same conditions, running it again on the store it left
    creates the same alerts a second time, one more for every row that is
    still above its threshold. *)
Theorem exposure_alerts_repeat :
  forall (cfg : Config) (w : World),
    faults (db w) = [] ->
    PyFloat.eq (CLIENT_EXPOSURE_THRESHOLD cfg) 0 = false ->
    PyFloat.eq (SYMBOL_EXPOSURE_THRESHOLD cfg) 0 = false ->
    Forall (fun row => total_exposure row <> None) (client_exposures (db w)) ->
    Forall (fun row => total_exposure row <> None) (symbol_exposures (db w)) ->
    let w' := exec (check_exposures cfg) (exec (check_exposures cfg) w) in
    stored_alerts w'
    = stored_alerts w ++ exposure_alerts cfg (db w) ++ exposure_alerts cfg (db w).
Proof.
  intros cfg w Hfaults Hclient Hsymbol Hclients Hsymbols w'.
  destruct (check_exposures_checked cfg w Hfaults Hclient Hsymbol Hclients Hsymbols)
    as [w1 [Hrun1 [Hfaults1 [Hstored1 [_ [Hc1 Hs1]]]]]].
  destruct (check_exposures_checked cfg w1 Hfaults1 Hclient Hsymbol
              (totals_data _ _ Hc1 Hclients) (totals_data _ _ Hs1 Hsymbols))
    as [w2 [Hrun2 [_ [Hstored2 _]]]].
  unfold w', exec. rewrite Hrun1. simpl. rewrite Hrun2. simpl.
  rewrite Hstored2, Hstored1, (exposure_alerts_data cfg (db w) (db w1) Hc1 Hs1), app_assoc.
  reflexivity.
Qed.

Lemma exposure_alerts_repeat_witness :
  map entity_id
    (stored_alerts (exec (check_exposures default_config)
                      (exec (check_exposures default_config) RepeatExample.w)))
  = ["CLIENT_001"; "AAPL"; "CLIENT_001"; "AAPL"].
Proof.
  pose proof (exposure_alerts_repeat default_config RepeatExample.w eq_refl eq_refl eq_refl
                ltac:(repeat constructor; discriminate)
                ltac:(repeat constructor; discriminate)) as H.
  cbv zeta in H. rewrite H. reflexivity.
Defined.
